(** * git-fastcdc: a shallow embedding of [git_fastcdc.py]

    The filter is a single Python module.  Its functions are embedded one by
    one, with the names of the source.  Python [bytes] are lists of
    [Byte.byte], Python [str] are lists of code points, the file system, the
    object store of git and the local configuration are finite maps, and the
    functions that read standard input, write standard output or touch the
    disk are computations in a state-and-exception monad: an exception leaves
    the effects done so far in place, as it does in Python. *)

From Stdlib Require Import ZArith NArith List Bool Lia.
From Stdlib.Strings Require Import Ascii String Byte.
From stdpp Require Import gmap list.

Abbreviation bytes := (list byte).
Abbreviation str := (list N).

(** ** Literals *)

(** [b"..."] of the source. *)
Definition blit (s : string) : bytes := list_byte_of_string s.
(** ["..."] of the source; every literal of the module is ASCII. *)
Definition lit (s : string) : str := map Byte.to_N (list_byte_of_string s).
Arguments blit s%_string.
Arguments lit s%_string.

Definition LF : N := 10.
Definition CR : N := 13.

(** ** chunk_string *)

(** [range(0, stop, step)] for a positive step. *)
Definition py_range (stop step : nat) : list nat :=
  map (fun k => k * step) (seq 0 ((stop + (step - 1)) / step)).

(** [input_string[i : i + chunk_size]]: a slice is clamped to the sequence. *)
Definition slice {A} (l : list A) (start len : nat) : list A :=
  take len (drop start l).

Definition chunk_string_with {A} (chunk_size : nat) (input_string : list A)
  : list (list A) :=
  map (fun i => slice input_string i chunk_size)
      (py_range (length input_string) chunk_size).

(** The default of the keyword argument, the only value the module uses. *)
Definition chunk_size : nat := N.to_nat 65516.

Definition chunk_string {A} (input_string : list A) : list (list A) :=
  chunk_string_with chunk_size input_string.


(** ** Builtins of Python the module relies on *)

(** *** [bytes] *)

Definition byte_of (n : N) : byte := default x00 (Byte.of_N n).

(** The bytes [bytes.strip()] and [int()] treat as white space. *)
Definition byte_isspace (c : byte) : bool :=
  let n := Byte.to_N c in ((9 <=? n) && (n <=? 13) || (n =? 32))%N.

Fixpoint lstrip_by {A} (sp : A -> bool) (l : list A) : list A :=
  match l with
  | [] => []
  | c :: l' => if sp c then lstrip_by sp l' else l
  end.

Definition rstrip_by {A} (sp : A -> bool) (l : list A) : list A :=
  rev (lstrip_by sp (rev l)).

Definition strip_by {A} (sp : A -> bool) (l : list A) : list A :=
  rstrip_by sp (lstrip_by sp l).

Definition bytes_strip : bytes -> bytes := strip_by byte_isspace.

(** *** [str] *)

(** [str.isspace] on one code point. *)
Definition isspace (c : N) : bool :=
  ((9 <=? c) && (c <=? 13) || (28 <=? c) && (c <=? 32) || (c =? 133)
   || (c =? 160) || (c =? 5760) || (8192 <=? c) && (c <=? 8202)
   || (c =? 8232) || (c =? 8233) || (c =? 8239) || (c =? 8287)
   || (c =? 12288))%N.

(** The line boundaries of [str.splitlines]. *)
Definition is_linebreak (c : N) : bool :=
  ((10 <=? c) && (c <=? 13) || (28 <=? c) && (c <=? 30) || (c =? 133)
   || (c =? 8232) || (c =? 8233))%N.

Definition str_strip : str -> str := strip_by isspace.

(** Prepend a character to the first line of an already split rest. *)
Definition cons_line (c : N) (ls : list str) : list str :=
  match ls with
  | [] => [[c]]
  | l :: ls' => (c :: l) :: ls'
  end.

(** [s.splitlines()]: the boundaries are dropped, [\r\n] counts once, and a
    boundary at the very end opens no further line. *)
Fixpoint splitlines (s : str) : list str :=
  match s with
  | [] => []
  | c :: s' =>
      if is_linebreak c then
        [] :: match s' with
              | c' :: s'' =>
                  if (c =? CR)%N && (c' =? LF)%N then splitlines s''
                  else splitlines s'
              | [] => []
              end
      else cons_line c (splitlines s')
  end.

(** Reading a text file translates [\r\n] and [\r] to [\n] ... *)
Fixpoint universal_newlines (s : str) : str :=
  match s with
  | [] => []
  | c :: s' =>
      if (c =? CR)%N then
        LF :: match s' with
              | c' :: s'' =>
                  if (c' =? LF)%N then universal_newlines s''
                  else universal_newlines s'
              | [] => []
              end
      else c :: universal_newlines s'
  end.

(** ... and iterating over it yields the lines with their [\n]. *)
Fixpoint readlines (s : str) : list str :=
  match s with
  | [] => []
  | c :: s' =>
      if (c =? LF)%N then [c] :: readlines s'
      else cons_line c (readlines s')
  end.

(** [s.partition("=")], without the separator. *)
Fixpoint partition_eq (s : str) : str * str :=
  match s with
  | [] => ([], [])
  | c :: s' =>
      if (c =? 61)%N then ([], s')
      else let '(k, v) := partition_eq s' in (c :: k, v)
  end.

Fixpoint startswith {A} `{EqDecision A} (s p : list A) : bool :=
  match p, s with
  | [], _ => true
  | _ :: _, [] => false
  | x :: p', y :: s' => bool_decide (x = y) && startswith s' p'
  end.

Definition endswith {A} `{EqDecision A} (s p : list A) : bool :=
  startswith (rev s) (rev p).

(** [p in s] for strings. *)
Fixpoint contains {A} `{EqDecision A} (p s : list A) : bool :=
  startswith s p
  || match s with
     | [] => false
     | _ :: s' => contains p s'
     end.

(** [sep.join(ls)] for a one-character separator. *)
Fixpoint join (sep : N) (ls : list str) : str :=
  match ls with
  | [] => []
  | [l] => l
  | l :: ls' => l ++ sep :: join sep ls'
  end.

(** [s.split(sep)] for a one-character separator. *)
Fixpoint split_on (sep : N) (s : str) : list str :=
  match s with
  | [] => [[]]
  | c :: s' =>
      if (c =? sep)%N then [] :: split_on sep s'
      else cons_line c (split_on sep s')
  end.

(** *** UTF-8 *)

Definition continuation (c : byte) : option N :=
  let n := Byte.to_N c in
  if ((128 <=? n) && (n <=? 191))%N then Some (n - 128)%N else None.

(** [bs.decode(encoding="UTF-8")]; [None] stands for [UnicodeDecodeError]. *)
Fixpoint utf8_decode (bs : bytes) : option str :=
  match bs with
  | [] => Some []
  | b0 :: r =>
      let n := Byte.to_N b0 in
      if (n <? 128)%N then cons n <$> utf8_decode r
      else if (n <? 194)%N then None
      else if (n <? 224)%N then
        match r with
        | b1 :: r' =>
            match continuation b1 with
            | Some c1 => cons ((n - 192) * 64 + c1)%N <$> utf8_decode r'
            | None => None
            end
        | _ => None
        end
      else if (n <? 240)%N then
        match r with
        | b1 :: b2 :: r' =>
            match continuation b1, continuation b2 with
            | Some c1, Some c2 =>
                let cp := ((n - 224) * 4096 + c1 * 64 + c2)%N in
                if ((cp <? 2048) || (55296 <=? cp) && (cp <=? 57343))%N
                then None
                else cons cp <$> utf8_decode r'
            | _, _ => None
            end
        | _ => None
        end
      else if (n <? 245)%N then
        match r with
        | b1 :: b2 :: b3 :: r' =>
            match continuation b1, continuation b2, continuation b3 with
            | Some c1, Some c2, Some c3 =>
                let cp := ((n - 240) * 262144 + c1 * 4096 + c2 * 64 + c3)%N in
                if ((cp <? 65536) || (1114111 <? cp))%N then None
                else cons cp <$> utf8_decode r'
            | _, _, _ => None
            end
        | _ => None
        end
      else None
  end.

(** The code points [str.encode()] accepts: everything but surrogates. *)
Definition scalar (c : N) : bool :=
  ((c <? 55296) || (57343 <? c) && (c <? 1114112))%N.

Definition utf8_encode_cp (c : N) : bytes :=
  if (c <? 128)%N then [byte_of c]
  else if (c <? 2048)%N then
    [byte_of (192 + c / 64); byte_of (128 + c mod 64)]
  else if (c <? 65536)%N then
    [byte_of (224 + c / 4096); byte_of (128 + (c / 64) mod 64);
     byte_of (128 + c mod 64)]
  else
    [byte_of (240 + c / 262144); byte_of (128 + (c / 4096) mod 64);
     byte_of (128 + (c / 64) mod 64); byte_of (128 + c mod 64)].

(** [s.encode()]; [None] stands for [UnicodeEncodeError]. *)
Fixpoint utf8_encode (s : str) : option bytes :=
  match s with
  | [] => Some []
  | c :: s' =>
      if scalar c then app (utf8_encode_cp c) <$> utf8_encode s' else None
  end.

(** *** [pathlib.PurePosixPath]

    A path is its root and its parts, as pathlib keeps it. *)

Record Path := mkPath { root : str; parts : list str }.

Definition SLASH : N := 47.
Definition DOT : N := 46.

Definition path_root (s : str) : str :=
  match s with
  | 47 :: 47 :: 47 :: _ => [SLASH]
  | 47 :: 47 :: _ => [SLASH; SLASH]
  | 47 :: _ => [SLASH]
  | _ => []
  end%N.

Definition path_parts (s : str) : list str :=
  List.filter (fun x => negb (bool_decide (x = [])) && negb (bool_decide (x = [DOT])))
              (split_on SLASH s).

(** [Path(s)] *)
Definition Path_of (s : str) : Path :=
  {| root := path_root s; parts := path_parts s |}.

(** [str(p)] *)
Definition path_str (p : Path) : str :=
  match root p, parts p with
  | [], [] => [DOT]
  | r, ps => r ++ join SLASH ps
  end.

(** [p / s] *)
Definition truediv (p : Path) (s : str) : Path :=
  match s with
  | 47%N :: _ => Path_of s
  | _ => {| root := root p; parts := parts p ++ path_parts s |}
  end.

(** [p.name] *)
Definition name (p : Path) : str := List.last (parts p) [].

(** [s.rfind(c)] *)
Fixpoint rfind (c : N) (s : str) : option nat :=
  match s with
  | [] => None
  | x :: s' =>
      match rfind c s' with
      | Some i => Some (S i)
      | None => if (x =? c)%N then Some 0 else None
      end
  end.

(** Where the suffix of a name starts: [i = name.rfind('.')] when
    [0 < i < len(name) - 1]. *)
Definition suffix_index (n : str) : option nat :=
  match rfind DOT n with
  | Some i => if (0 <? i) && (i <? length n - 1) then Some i else None
  | None => None
  end.

(** [p.suffix] *)
Definition suffix (p : Path) : str :=
  match suffix_index (name p) with
  | Some i => drop i (name p)
  | None => []
  end.

(** [p.stem] *)
Definition stem (p : Path) : str :=
  match suffix_index (name p) with
  | Some i => take i (name p)
  | None => name p
  end.

(** [p.with_suffix(suf)] for a well-formed [suf]; [None] stands for the
    [ValueError] of a path with an empty name. *)
Definition with_suffix (p : Path) (suf : str) : option Path :=
  match name p with
  | [] => None
  | _ :: _ => Some {| root := root p;
                 parts := removelast (parts p) ++ [stem p ++ suf] |}
  end.

(** *** [int(x, 16)] on bytes and [f"{n:04x}"] *)

Definition hex_value (c : byte) : option N :=
  let n := Byte.to_N c in
  (if (48 <=? n) && (n <=? 57) then Some (n - 48)
   else if (97 <=? n) && (n <=? 102) then Some (n - 87)
   else if (65 <=? n) && (n <=? 70) then Some (n - 55)
   else None)%N.

(** The digits of a literal, single underscores allowed between them; the
    result is the value and what follows the literal. *)
Fixpoint scan_hex (acc : N) (prev_underscore : bool) (l : bytes)
  : option (N * bytes) :=
  match l with
  | [] => if prev_underscore then None else Some (acc, [])
  | c :: l' =>
      if Byte.eqb c "_"%byte then
        if prev_underscore then None else scan_hex acc true l'
      else
        match hex_value c with
        | Some d => scan_hex (16 * acc + d)%N false l'
        | None => if prev_underscore then None else Some (acc, l)
        end
  end.

(** [int(s, 16)]: white space around the literal, a sign, a [0x] prefix and
    underscores between digits are accepted; [None] stands for [ValueError]. *)
Definition py_int16 (s : bytes) : option Z :=
  let s := lstrip_by byte_isspace s in
  let '(neg, s) :=
    match s with
    | c :: r => if Byte.eqb c "+"%byte then (false, r)
                else if Byte.eqb c "-"%byte then (true, r)
                else (false, s)
    | [] => (false, s)
    end in
  let s :=
    match s with
    | c0 :: c1 :: r =>
        if Byte.eqb c0 "0"%byte && (Byte.eqb c1 "x"%byte || Byte.eqb c1 "X"%byte)
        then match r with
             | c2 :: r' => if Byte.eqb c2 "_"%byte then r' else r
             | [] => r
             end
        else s
    | _ => s
    end in
  match s with
  | [] => None
  | c :: _ =>
      match hex_value c with
      | None => None
      | Some _ =>
          match scan_hex 0 false s with
          | Some (v, rest) =>
              match lstrip_by byte_isspace rest with
              | [] => Some (if neg then - Z.of_N v else Z.of_N v)%Z
              | _ :: _ => None
              end
          | None => None
          end
      end
  end.

Definition hex_digit (d : N) : byte :=
  byte_of (if d <? 10 then 48 + d else 87 + d)%N.

(** The last [width] hexadecimal digits of [n]. *)
Fixpoint hex_digits (width : nat) (n : N) : bytes :=
  match width with
  | O => []
  | S width' => hex_digits width' (n / 16)%N ++ [hex_digit (n mod 16)%N]
  end.

(** The number of hexadecimal digits of [n]. *)
Definition hex_width (n : N) : nat := N.to_nat (N.log2 n / 4 + 1).

(** [f"{n:04x}"]: the digits of [n], padded with zeros to four. *)
Definition format_04x (n : N) : bytes := hex_digits (Nat.max 4 (hex_width n)) n.

(** ** The world the module runs in *)

#[global] Instance byte_eq_dec : EqDecision byte := Byte.byte_eq_dec.
#[global] Instance byte_countable : Countable byte :=
  inj_countable Byte.to_N Byte.of_N Byte.of_to_N.

(** What the module can raise.  [ChunkerError] is whatever the chunking
    library raises; [OutOfFuel] is no exception of Python: it marks a loop of
    the model that was cut short, which the loops below never are
    (see [while_read_fuel]). *)
Inductive exn :=
| ValueError | AssertionError | IndexError
| UnicodeDecodeError | UnicodeEncodeError
| OSError | FileNotFoundError | CalledProcessError
| ChunkerError | OutOfFuel.

#[global] Instance exn_eq_dec : EqDecision exn.
Proof. solve_decision. Defined.

(** The git executable, as far as the module observes it.  Blobs written with
    [hash-object -w] are kept in the state below; the index is not modelled,
    and what the module reads from it comes from here. *)
Class Git := {
  (** standard output of [git hash-object -w -t blob --stdin] on the given
      input; [None]: the command exits non-zero *)
  hash_object_stdout : bytes -> option bytes;
  (** standard output of [git ls-files], decoded *)
  ls_files_stdout : option str;
  (** standard output of [git show <id>] once the path was staged *)
  show_stdout : str -> option bytes;
  (** what [git add <paths>] leaves in the working tree (the filters it
      starts may write chunk files); [None]: the command exits non-zero *)
  add_worktree : list str -> gmap str bytes -> option (gmap str bytes);
}.

(** The [fastcdc] library: the spans [(offset, length)] the generator yields
    for the given input and average size, and the exception it ends with,
    if any. *)
Class FastCDC := {
  fastcdc : bytes -> Z -> list (nat * nat) * option exn;
}.

(** [fnmatch.fnmatch] and [shlex.split] of the standard library ([None]:
    [ValueError]). *)
Class PyLib := {
  fnmatch : str -> str -> bool;
  shlex_split : str -> option (list str);
}.

(** Standard input is what is still to be read, and whether the stream ends
    in an I/O error instead of an end of file.  Files are keyed by their
    path relative to the top level of the repository; a directory exists when
    a file lies below it.  File-system calls on existing files succeed. *)
Record state := mkState {
  stdin : bytes;
  stdin_broken : bool;
  stdout : bytes;
  files : gmap str bytes;
  objects : gmap bytes bytes;
  config : gmap str bytes;
  _ondisk : option bool;
}.

Definition set_stdin (x : bytes) (s : state) : state :=
  mkState x (stdin_broken s) (stdout s) (files s) (objects s) (config s) (_ondisk s).
Definition set_stdout (x : bytes) (s : state) : state :=
  mkState (stdin s) (stdin_broken s) x (files s) (objects s) (config s) (_ondisk s).
Definition set_files (x : gmap str bytes) (s : state) : state :=
  mkState (stdin s) (stdin_broken s) (stdout s) x (objects s) (config s) (_ondisk s).
Definition set_objects (x : gmap bytes bytes) (s : state) : state :=
  mkState (stdin s) (stdin_broken s) (stdout s) (files s) x (config s) (_ondisk s).
Definition set_config (x : gmap str bytes) (s : state) : state :=
  mkState (stdin s) (stdin_broken s) (stdout s) (files s) (objects s) x (_ondisk s).
Definition set_ondisk (x : option bool) (s : state) : state :=
  mkState (stdin s) (stdin_broken s) (stdout s) (files s) (objects s) (config s) x.

(** ** Computations *)

Inductive result (A : Type) :=
| Ok (a : A)
| Raise (e : exn).
Arguments Ok {A} a.
Arguments Raise {A} e.

Definition M (A : Type) : Type := state -> result A * state.

Definition ret {A} (a : A) : M A := fun s => (Ok a, s).
Definition raise {A} (e : exn) : M A := fun s => (Raise e, s).
Definition bind {A B} (m : M A) (k : A -> M B) : M B :=
  fun s => match m s with
           | (Ok a, s') => k a s'
           | (Raise e, s') => (Raise e, s')
           end.

Notation "x <- m ;; k" := (bind m (fun x => k))
  (at level 100, m at next level, right associativity).
Notation "m ;; k" := (bind m (fun _ => k))
  (at level 100, right associativity).

Definition get {A} (f : state -> A) : M A := fun s => (Ok (f s), s).
Definition modify (f : state -> state) : M unit := fun s => (Ok tt, f s).

(** [assert b] *)
Definition py_assert (b : bool) : M unit :=
  if b then ret tt else raise AssertionError.

(** [None] of the library functions becomes the exception. *)
Definition or_raise {A} (e : exn) (o : option A) : M A :=
  match o with
  | Some a => ret a
  | None => raise e
  end.

(** [try: body finally: fin] *)
Definition try_finally {A} (body : M A) (fin : M unit) : M A :=
  fun s => let '(r, s1) := body s in
           match fin s1 with
           | (Ok _, s2) => (r, s2)
           | (Raise e, s2) => (Raise e, s2)
           end.

(** [for x in xs: acc = body(x, acc)] *)
Fixpoint for_each {A T} (body : A -> T -> M T) (xs : list A) (acc : T) : M T :=
  match xs with
  | [] => ret acc
  | x :: xs' => acc' <- body x acc ;; for_each body xs' acc'
  end.

(** [while x := rd(): acc = body(x, acc)]: the loop ends at the first empty
    [x].  Every use reads standard input in [rd], and a non-empty packet
    takes bytes off it, so [S (length stdin)] rounds are enough. *)
Fixpoint while_read {A T} (fuel : nat) (rd : M (list A))
    (body : list A -> T -> M T) (acc : T) : M T :=
  match fuel with
  | O => raise OutOfFuel
  | S fuel' =>
      x <- rd ;;
      match x with
      | [] => ret acc
      | _ :: _ => acc' <- body x acc ;; while_read fuel' rd body acc'
      end
  end.

Definition while_pkt {A T} (rd : M (list A)) (body : list A -> T -> M T)
    (acc : T) : M T :=
  fun s => while_read (S (length (stdin s))) rd body acc s.

(** ** Module constants *)

Definition tmpfile : Path := Path_of (lit ".fast_cdc_tmp_file_29310b6").
Definition cdcdir : Path := Path_of (lit ".cdc").
Definition cdcmatch : str := lit ".cdc/**/*.cdc".
Definition cdcline : str := lit "/.cdc/**/*.cdc binary filter=git_fastcdc".
Definition cdcattr : str := lit "/.gitattributes text -binary -filter".
Definition avg_min : Z := 128 * 1024.

(** ** Packet framing *)

(** [sys.stdin.buffer.read(n)]: up to [n] bytes, fewer only at the end of the
    stream; [-1] reads to the end. *)
Definition read (n : Z) : M bytes := fun s =>
  if (n <? -1)%Z then (Raise ValueError, s)
  else if (0 <=? n)%Z && (Z.to_nat n <=? length (stdin s)) then
    (Ok (take (Z.to_nat n) (stdin s)), set_stdin (drop (Z.to_nat n) (stdin s)) s)
  else if stdin_broken s then (Raise OSError, set_stdin [] s)
  else (Ok (stdin s), set_stdin [] s).

Definition write (data : bytes) : M unit :=
  modify (fun s => set_stdout (stdout s ++ data) s).

Definition read_pkt_line : M bytes :=
  length_hex <- read 4 ;;
  match length_hex with
  | [] => ret []
  | _ :: _ =>
      len <- or_raise ValueError (py_int16 length_hex) ;;
      if (len =? 0)%Z then ret [] else read (len - 4)
  end.

Definition read_pkt_line_str : M str :=
  pkt <- read_pkt_line ;;
  text <- or_raise UnicodeDecodeError (utf8_decode pkt) ;;
  ret (str_strip text).

(** What [write_pkt_line] puts on the wire:
    [f"{length:04x}".encode() + data]. *)
Definition pkt_line (data : bytes) : bytes :=
  let len := (N.of_nat (length data) + 4)%N in
  format_04x len ++ data.

Definition write_pkt_line (data : bytes) : M unit :=
  write (pkt_line data).

Definition write_pkt_line_str (string : str) : M unit :=
  data <- or_raise UnicodeEncodeError (utf8_encode string) ;;
  write_pkt_line data.

Definition flush_pkt : M unit := write (blit "0000").

(** ** The file system *)

Definition file_key (p : Path) : str := path_str p.

(** [p.exists()]: a file, or a directory some file lies below. *)
Definition exists_in (fs : gmap str bytes) (k : str) : bool :=
  bool_decide (is_Some (fs !! k))
  || existsb (fun kv => startswith (fst kv) (k ++ [SLASH])) (map_to_list fs).

Definition path_exists (p : Path) : M bool :=
  fs <- get files ;; ret (exists_in fs (file_key p)).

(** [p.open("w")] and [p.open("wb")]: the file is created or emptied. *)
Definition file_open_w (p : Path) : M unit :=
  modify (fun s => set_files (<[file_key p := []]> (files s)) s).

(** [f.write(data)] on a file opened for writing. *)
Definition file_write (p : Path) (data : bytes) : M unit :=
  modify (fun s => set_files (alter (fun c => c ++ data) (file_key p) (files s)) s).

(** [f.write(text)] on a file opened in text mode. *)
Definition file_write_str (p : Path) (text : str) : M unit :=
  data <- or_raise UnicodeEncodeError (utf8_encode text) ;;
  file_write p data.

Definition file_content (p : Path) : M bytes :=
  fs <- get files ;; or_raise FileNotFoundError (fs !! file_key p).

(** [p.stat().st_size] *)
Definition stat_size (p : Path) : M Z :=
  c <- file_content p ;; ret (Z.of_nat (length c)).

(** [f.seek(offset); f.read(length)] on the file opened for reading. *)
Definition file_read_at (p : Path) (offset len : nat) : M bytes :=
  c <- file_content p ;; ret (slice c offset len).

(** [f.read()] on a file opened with [open("r", encoding="UTF-8")]. *)
Definition file_read_str (p : Path) : M str :=
  c <- file_content p ;;
  text <- or_raise UnicodeDecodeError (utf8_decode c) ;;
  ret (universal_newlines text).

(** [p.unlink()] *)
Definition unlink (p : Path) : M unit :=
  fs <- get files ;;
  match fs !! file_key p with
  | Some _ => modify (fun s => set_files (delete (file_key p) (files s)) s)
  | None => raise FileNotFoundError
  end.

(** [p.touch()] *)
Definition touch (p : Path) : M unit :=
  fs <- get files ;;
  match fs !! file_key p with
  | Some _ => ret tt
  | None => file_open_w p
  end.

(** ** Calls of git *)

Section Module.
Context `{Git} `{FastCDC} `{PyLib}.

(** The object is stored under the name git prints. *)
Definition git_hash_blob (data : bytes) : M str :=
  out <- or_raise CalledProcessError (hash_object_stdout data) ;;
  modify (fun s => set_objects (<[bytes_strip out := data]> (objects s)) s) ;;
  or_raise UnicodeDecodeError (utf8_decode (bytes_strip out)).

Definition git_ls_files : M str :=
  or_raise CalledProcessError ls_files_stdout.

(** [git cat-file blob hash], for the name of a stored blob. *)
Definition git_get_blob (hash : str) : M bytes :=
  key <- or_raise UnicodeEncodeError (utf8_encode hash) ;;
  objs <- get objects ;;
  or_raise CalledProcessError (objs !! key).

(** No [check=True]: a missing key prints nothing. *)
Definition git_config_ondisk : M bytes :=
  cfg <- get config ;;
  ret (match cfg !! lit "fastcdc.ondisk" with
       | Some v => v ++ [x0a]
       | None => []
       end).

Definition git_show (id : str) : M bytes :=
  or_raise CalledProcessError (show_stdout id).

Definition git_add (args : list str) : M unit :=
  fs <- get files ;;
  fs' <- or_raise CalledProcessError (add_worktree args fs) ;;
  modify (set_files fs').

(** ** Helpers *)

(** [dir.mkdir(parents=True, exist_ok=True)] leaves the file map as it
    is: directories are implicit. *)
Definition hash_dir (base : Path) (hash : str) : Path :=
  let dir := truediv (truediv base (slice hash 0 2)) (slice hash 2 2) in
  truediv dir hash.

Definition bit_length (n : Z) : Z :=
  if (n =? 0)%Z then 0%Z else (Z.log2 (Z.abs n) + 1)%Z.

(** [x] rounded to the nearest multiple of [2^k], a tie to the even one. *)
Definition round_to_even (x k : Z) : Z :=
  let q := Z.shiftr x k in
  let r := (x - Z.shiftl q k)%Z in
  let half := Z.shiftl 1 (k - 1) in
  if (r <? half)%Z then Z.shiftl q k
  else if (half <? r)%Z then Z.shiftl (q + 1) k
  else if Z.even q then Z.shiftl q k
  else Z.shiftl (q + 1) k.

(** The float nearest to a non-negative [int]: a binary64 keeps 53
    significant bits. *)
Definition to_float (n : Z) : Z :=
  let bits := bit_length n in
  if (bits <=? 53)%Z then n else round_to_even n (bits - 53).

(** [int(size / 32)].  [/] is the true division of Python: the quotient is
    rounded to the nearest float, which for a division by 32 is the float
    nearest to [size] divided by 32, and [int] drops the fraction.  Sizes
    are lengths of buffers and files, far below the overflow of a float. *)
Definition int_truediv_32 (size : Z) : Z := (to_float size / 32)%Z.

Definition get_avg_size (size : Z) : Z :=
  let box := int_truediv_32 size in
  let bits := bit_length box in
  let shift := Z.max (bits - 5) 0 in
  Z.shiftl (Z.shiftr box shift) shift.

(** ** Handlers *)

Definition status_success : str := lit "status=success" ++ [LF].

(** The body of the loop over the chunks, shared by both clean handlers. *)
Definition store_chunk (data : bytes) (new : bool) : M bool :=
  hash <- git_hash_blob data ;;
  path <- or_raise ValueError (with_suffix (hash_dir cdcdir hash) (lit ".cdc")) ;;
  ex <- path_exists path ;;
  let new := new || negb ex in
  file_open_w path ;;
  file_write_str path hash ;;
  write_pkt_line_str (name path ++ [LF]) ;;
  ret new.

(** The generator ends: with [StopIteration], or with its exception. *)
Definition generator_end (e : option exn) : M unit :=
  match e with
  | Some e => raise e
  | None => ret tt
  end.

Definition clean (pathname : Path) : M bool :=
  io <- while_pkt read_pkt_line (fun pkg io => ret (io ++ pkg)) [] ;;
  let size := Z.of_nat (length io) in
  let avg_size := Z.max avg_min (get_avg_size size) in
  write_pkt_line_str status_success ;;
  flush_pkt ;;
  let '(spans, e) := fastcdc io avg_size in
  new <- for_each (fun cdc new =>
                     let data := slice io (fst cdc) (snd cdc) in
                     store_chunk data new) spans false ;;
  generator_end e ;;
  flush_pkt ;;
  flush_pkt ;;
  ret new.

Definition clean_ondisk (pathname : Path) : M bool :=
  try_finally
    (file_open_w tmpfile ;;
     while_pkt read_pkt_line (fun pkg _ => file_write tmpfile pkg) tt ;;
     size <- stat_size tmpfile ;;
     let avg_size := Z.max avg_min (get_avg_size size) in
     write_pkt_line_str status_success ;;
     flush_pkt ;;
     input <- file_content tmpfile ;;
     let '(spans, e) := fastcdc input avg_size in
     new <- for_each (fun cdc new =>
                        data <- file_read_at tmpfile (fst cdc) (snd cdc) ;;
                        store_chunk data new) spans false ;;
     generator_end e ;;
     flush_pkt ;;
     flush_pkt ;;
     ret new)
    (unlink tmpfile).

Definition smudge_cdc (pathname : Path) (blob : option str) : M unit :=
  while_pkt read_pkt_line (fun _ _ => ret tt) tt ;;
  write_pkt_line_str status_success ;;
  flush_pkt ;;
  py_assert (bool_decide (Some (stem pathname) = blob)) ;;
  write_pkt_line_str (default [] blob) ;;
  flush_pkt ;;
  flush_pkt.

Definition clean_cdc (pathname : Path) : M unit :=
  hash <- read_pkt_line_str ;;
  terminator <- read_pkt_line_str ;;
  py_assert (bool_decide (terminator = [])) ;;
  write_pkt_line_str status_success ;;
  flush_pkt ;;
  blob <- git_get_blob hash ;;
  for_each (fun chunk _ => write_pkt_line chunk) (chunk_string blob) tt ;;
  flush_pkt ;;
  flush_pkt.

Definition smudge (pathname : Path) (blob : option str) : M unit :=
  lines <- while_pkt read_pkt_line_str
             (fun pkg lines => ret (lines ++ splitlines pkg)) [] ;;
  write_pkt_line_str status_success ;;
  flush_pkt ;;
  for_each (fun line _ =>
              let line := str_strip line in
              let hash := stem (Path_of line) in
              match line with
              | [] => ret tt
              | _ :: _ =>
                  blob <- git_get_blob hash ;;
                  for_each (fun chunk _ => write_pkt_line chunk)
                           (chunk_string blob) tt
              end) lines tt ;;
  flush_pkt ;;
  flush_pkt.

Definition cat : M unit :=
  pkgs <- while_pkt read_pkt_line (fun pkg pkgs => ret (pkgs ++ [pkg])) [] ;;
  write_pkt_line_str status_success ;;
  flush_pkt ;;
  for_each (fun pkg _ => write_pkt_line pkg) pkgs tt ;;
  flush_pkt ;;
  flush_pkt.

Definition ondisk : M bool :=
  memo <- get _ondisk ;;
  match memo with
  | Some v => ret v
  | None =>
      out <- git_config_ondisk ;;
      let v := bool_decide (bytes_strip out = blit "true") in
      modify (set_ondisk (Some v)) ;;
      ret v
  end.

(** ** The session *)

(** One round of the loop over the header packets of a request.  On an
    unknown key the source builds a [RuntimeError] and drops it. *)
Definition header (line : str) (h : option str * option str * option str)
  : M (option str * option str * option str) :=
  let '(treeish, ref, blob) := h in
  let '(key, value) := partition_eq line in
  if bool_decide (key = lit "treeish") then ret (Some value, ref, blob)
  else if bool_decide (key = lit "ref") then ret (treeish, Some value, blob)
  else if bool_decide (key = lit "blob") then ret (treeish, ref, Some value)
  else ret (treeish, ref, blob).

Definition read_headers : M (option str * option str * option str) :=
  while_pkt read_pkt_line_str header (None, None, None).

Definition dispatch (command : str) (pathname : Path) (blob : option str)
    (new : bool) : M bool :=
  if bool_decide (command = lit "clean") then
    if startswith (path_str pathname) (lit ".cdc/") then
      (if bool_decide (suffix pathname = lit ".cdc")
       then clean_cdc pathname
       else cat) ;;
      ret new
    else
      od <- ondisk ;;
      if od then
        n <- clean_ondisk pathname ;; ret (n || new)
      else
        n <- clean pathname ;; ret (n || new)
  else if bool_decide (command = lit "smudge") then
    (if startswith (path_str pathname) (lit ".cdc/")
     then smudge_cdc pathname blob
     else smudge pathname blob) ;;
    ret new
  else ret new.

(** One round of the request loop, entered with the command line read. *)
Definition request (line : str) (new : bool) : M bool :=
  let '(key, command) := partition_eq line in
  py_assert (bool_decide (key = lit "command")) ;;
  line2 <- read_pkt_line_str ;;
  let '(key, pathname) := partition_eq line2 in
  let pathname := Path_of pathname in
  py_assert (bool_decide (key = lit "pathname")) ;;
  h <- read_headers ;;
  let '(treeish, ref, blob) := h in
  dispatch command pathname blob new.

Definition expect (text : str) : M unit :=
  line <- read_pkt_line_str ;;
  py_assert (bool_decide (line = text)).

Definition process : M unit :=
  expect (lit "git-filter-client") ;;
  expect (lit "version=2") ;;
  write_pkt_line_str (lit "git-filter-server") ;;
  write_pkt_line_str (lit "version=2") ;;
  flush_pkt ;;
  expect [] ;;
  capability <- while_pkt read_pkt_line_str
                  (fun line (capability : gset str) =>
                     let '(key, cap) := partition_eq line in
                     py_assert (bool_decide (key = lit "capability")) ;;
                     ret ({[cap]} ∪ capability)) ∅ ;;
  py_assert (bool_decide ({[lit "clean"; lit "smudge"]} ⊆ capability)) ;;
  write_pkt_line_str (lit "capability=clean") ;;
  write_pkt_line_str (lit "capability=smudge") ;;
  flush_pkt ;;
  new <- while_pkt read_pkt_line_str request false ;;
  if new : bool then
    let cdc := Path_of (lit ".cdc") in
    ex <- path_exists cdc ;;
    if ex : bool then git_add [path_str cdc] else ret tt
  else ret tt.

(** ** prune *)

(** Directories are implicit: one without files is gone already. *)
Definition remove_empty_dirs (path : Path) : M unit := ret tt.

Definition read_blobs (entry : str) (blobs : gset str) : M (gset str) :=
  git_add [entry] ;;
  out <- git_show (lit ":" ++ entry) ;;
  text <- or_raise UnicodeDecodeError (utf8_decode out) ;;
  ret (foldl (fun blobs blob =>
                if fnmatch blob (lit "*.cdc") then {[blob]} ∪ blobs else blobs)
             blobs (splitlines text)).

(** What [Path(".").glob(cdcmatch)] yields: the files below [.cdc] whose
    name ends in [.cdc]. *)
Definition matches_cdcmatch (p : Path) : bool :=
  match root p, parts p with
  | [], d :: rest =>
      bool_decide (d = lit ".cdc") && negb (bool_decide (rest = []))
      && endswith (name p) (lit ".cdc")
  | _, _ => false
  end.

Definition glob_cdcmatch (fs : gmap str bytes) : list Path :=
  List.filter matches_cdcmatch (map (fun kv => Path_of (fst kv)) (map_to_list fs)).

Definition prune_blobs (blobs : gset str) : M unit :=
  fs <- get files ;;
  for_each (fun file _ =>
              if bool_decide (name file ∈ blobs) then ret tt else unlink file)
           (glob_cdcmatch fs) tt.

Definition prune : M unit :=
  let file := Path_of (lit ".gitattributes") in
  ls <- git_ls_files ;;
  let file_list :=
    List.filter (fun entry =>
                   negb (fnmatch entry cdcmatch
                         || contains (lit ".gitattributes") entry))
                (map str_strip (splitlines ls)) in
  ex <- path_exists file ;;
  blobs <- (if ex : bool then
              text <- file_read_str file ;;
              for_each (fun line blobs =>
                 if contains (lit "filter=git_fastcdc") line
                    && negb (contains cdcline line)
                 then
                   tokens <- or_raise ValueError (shlex_split line) ;;
                   pat <- or_raise IndexError (head tokens) ;;
                   for_each (fun entry blobs =>
                               if fnmatch entry pat
                               then read_blobs entry blobs
                               else ret blobs) file_list blobs
                 else ret blobs) (readlines text) ∅
            else ret ∅) ;;
  prune_blobs blobs ;;
  let cdc := Path_of (lit ".cdc") in
  ex <- path_exists cdc ;;
  if ex : bool then
    remove_empty_dirs cdc ;;
    git_add [path_str cdc]
  else ret tt.

(** ** install and remove *)

(** [git config --local --unset key]; the exit status is not looked at. *)
Definition git_config_unset (key : str) : M unit :=
  modify (fun s => set_config (delete key (config s)) s).

(** [git config --local key value] *)
Definition git_config_set (key : str) (value : bytes) : M unit :=
  modify (fun s => set_config (<[key := value]> (config s)) s).

Definition do_remove : M unit :=
  git_config_unset (lit "filter.git_fastcdc.process") ;;
  git_config_unset (lit "filter.git_fastcdc.required") ;;
  let file := Path_of (lit ".gitattributes") in
  touch file ;;
  data <- file_read_str file ;;
  file_open_w file ;;
  for_each (fun line _ =>
              if negb (contains cdcline line) && negb (contains cdcattr line)
              then file_write_str file (line ++ [LF])
              else ret tt) (splitlines data) tt.

Definition install : M unit :=
  do_remove ;;
  git_config_set (lit "filter.git_fastcdc.process") (blit "git-fastcdc process") ;;
  git_config_set (lit "filter.git_fastcdc.required") (blit "true") ;;
  let file := Path_of (lit ".gitattributes") in
  touch file ;;
  text <- file_read_str file ;;
  let data := str_strip text in
  file_open_w file ;;
  match data with
  | [] => ret tt
  | _ :: _ => file_write_str file (data ++ [LF])
  end ;;
  file_write_str file (cdcline ++ [LF]) ;;
  file_write_str file (cdcattr ++ [LF]).

Definition remove : M unit := do_remove.

End Module.

(** ** The specification's adaptive average

    Section 4.4 of the specification, in its words: [box = n / 32] by integer
    division, [bits] the number of significant bits of [box], the top five
    bits kept, and a floor of 128 KiB. *)
Definition spec_avg_size (n : Z) : Z :=
  let box := (n / 32)%Z in
  let bits := Z.log2_up (box + 1) in
  let shift := Z.max (bits - 5) 0 in
  Z.max 131072 (Z.shiftl (Z.shiftr box shift) shift).

(** ** Vocabulary of the statements *)

(** Keeping the top five bits of [box], the last two lines of
    [get_avg_size]. *)
Definition quantize (box : Z) : Z :=
  let shift := Z.max (bit_length box - 5) 0 in
  Z.shiftl (Z.shiftr box shift) shift.

(** The host's side of the wire: a flush packet, and a run of packets. *)
Definition flush_line : bytes := blit "0000".

Definition pkt_lines (pkts : list bytes) : bytes :=
  concat (map pkt_line pkts).

(** A payload a packet can carry: not empty, and short enough for a length
    of four hexadecimal digits. *)
Definition payload_ok (p : bytes) : Prop :=
  p <> [] /\ (N.of_nat (length p) <= 65531)%N.

(** A state with the given standard input and nothing else. *)
Definition input_state (data : bytes) (broken : bool) : state :=
  mkState data broken [] ∅ ∅ ∅ None.

(** The packet [p] carries the text line [line]: it is a well-formed
    payload and decodes, stripped, to [line]. *)
Definition carries (p : bytes) (line : str) : Prop :=
  payload_ok p /\ exists text, utf8_decode p = Some text /\ str_strip text = line.

(** The header keys the session knows. *)
Definition known_keys : list str := [lit "treeish"; lit "ref"; lit "blob"].

(** The text a packet carries, empty if it does not decode. *)
Definition line_of (p : bytes) : str :=
  match utf8_decode p with
  | Some text => str_strip text
  | None => []
  end.

(** [status=success\n] on the wire. *)
Definition status_line : bytes := blit "status=success" ++ [x0a].

(** A packet that carries a non-empty line of text. *)
Definition text_ok (p : bytes) : Prop :=
  payload_ok p /\ utf8_decode p <> None /\ line_of p <> [].

(** An object name as git prints it: hexadecimal digits, at least four. *)
Definition is_hex (c : byte) : bool :=
  match hex_value c with
  | Some _ => true
  | None => false
  end.

Definition object_name (h : bytes) : bool :=
  (4 <=? length h) && forallb is_hex h.

(** The text of ASCII bytes. *)
Definition text_of (bs : bytes) : str := map Byte.to_N bs.

(** The path of the chunk manifest of [hash], as the specification writes
    it: [.cdc/<hash[0:2]>/<hash[2:4]>/<hash>.cdc]. *)
Definition chunk_path (hash : str) : str :=
  lit ".cdc/" ++ take 2 hash ++ [SLASH] ++ take 2 (drop 2 hash) ++ [SLASH]
    ++ hash ++ lit ".cdc".

(** The packet [clean] answers for the chunk named [hb]: [<hash>.cdc\n]. *)
Definition manifest_line (hb : bytes) : bytes := hb ++ blit ".cdc" ++ [x0a].

(** The state [store_chunk] leaves for the chunk [data] named [hb]: the
    blob is in the object store, the chunk manifest holds the hash, and the
    manifest line is on standard output. *)
Definition chunk_stored (data hb : bytes) (s : state) : state :=
  set_stdout (stdout s ++ pkt_line (manifest_line hb))
    (set_files (<[chunk_path (text_of hb) := hb]> (files s))
       (set_objects (<[hb := data]> (objects s)) s)).

(** The name git prints for [data], if it prints a well-formed one. *)
Definition name_of `{Git} (data : bytes) : option bytes :=
  match hash_object_stdout data with
  | Some out => if object_name (bytes_strip out) then Some (bytes_strip out) else None
  | None => None
  end.

(** The data of the chunks: [buffer[cdc.offset : cdc.offset + cdc.length]]
    for every span. *)
Definition chunks_of (io : bytes) (spans : list (nat * nat)) : list bytes :=
  map (fun cdc => slice io (fst cdc) (snd cdc)) spans.

(** The spans cover the [n] bytes from [offset] on exactly and in order:
    each starts where the one before ends, and the last ends at [n]. *)
Fixpoint covers (offset : nat) (spans : list (nat * nat)) (n : nat) : bool :=
  match spans with
  | [] => offset =? n
  | cdc :: spans' =>
      (fst cdc =? offset) && covers (offset + snd cdc) spans' n
  end.

(** Git names every chunk ... *)
Definition named `{Git} (chunks : list bytes) : bool :=
  forallb (fun d => bool_decide (is_Some (name_of d))) chunks.

(** ... and gives no two different chunks the same name. *)
Definition distinct `{Git} (chunks : list bytes) : bool :=
  forallb (fun d =>
             forallb (fun d' =>
                        implb (bool_decide (name_of d = name_of d'))
                              (bool_decide (d = d'))) chunks) chunks.

(** The names git gives the chunks (the empty name where it gives none). *)
Definition names_of `{Git} (chunks : list bytes) : list bytes :=
  map (fun d => default [] (name_of d)) chunks.

(** The state after [store_chunk] ran over the chunks. *)
Definition chunks_stored `{Git} (chunks : list bytes) (s : state) : state :=
  foldl (fun s d => chunk_stored d (default [] (name_of d)) s) s chunks.

(** A manifest packet: the manifest lines of a group of names. *)
Definition manifest_pkt (group : list bytes) : bytes :=
  concat (map manifest_line group).

(** The state a successful [clean] leaves: the payload is read, and the
    answer is [status=success], a flush, the manifest lines, two flushes. *)
Definition clean_state `{Git} (chunks : list bytes) (rest : bytes) (s : state)
  : state :=
  let s1 := set_stdout (stdout s ++ pkt_line status_line ++ flush_line)
                       (set_stdin rest s) in
  let s2 := chunks_stored chunks s1 in
  set_stdout (stdout s2 ++ flush_line ++ flush_line) s2.

(** The manifest line of a chunk, as [smudge] sees it: [<hash>.cdc]. *)
Definition line_text (hb : bytes) : str := text_of hb ++ lit ".cdc".

Definition no_linebreak (l : str) : Prop :=
  Forall (fun c => is_linebreak c = false) l.

(** ** A host for the examples *)

(** The bytes written in hexadecimal. *)
Definition hex_of (data : bytes) : bytes :=
  flat_map (fun c => [hex_digit (Byte.to_N c / 16); hex_digit (Byte.to_N c mod 16)])
           data.

(** A git that names a blob [0000] and then its bytes in hexadecimal, has
    nothing staged, and whose [add] leaves the working tree alone. *)
Definition example_git : Git :=
  {| hash_object_stdout := fun d => Some (blit "0000" ++ hex_of d ++ [x0a]);
     ls_files_stdout := None;
     show_stdout := fun _ => None;
     add_worktree := fun _ fs => Some fs |}.

(** A chunker that cuts every four bytes. *)
Definition example_cdc : FastCDC :=
  {| fastcdc := fun data _ =>
       (map (fun i => (i, Nat.min 4 (length data - i))) (py_range (length data) 4),
        None) |}.

(** The chunk manifest of one chunk, and of a run of chunks, in the file
    map: the file [.cdc/<hash[0:2]>/<hash[2:4]>/<hash>.cdc] holds the hash. *)
Definition write_manifest `{Git} (fs : gmap str bytes) (data : bytes)
  : gmap str bytes :=
  let hb := default [] (name_of data) in
  <[chunk_path (text_of hb) := hb]> fs.

Definition manifests_written `{Git} (chunks : list bytes) (fs : gmap str bytes)
  : gmap str bytes :=
  foldl write_manifest fs chunks.



(** ** The text of the attribute file

    What [do_remove] and [install] write, as functions of the text read. *)

Definition own_line (line : str) : bool :=
  contains cdcline line || contains cdcattr line.

Definition unlines (ls : list str) : str :=
  concat (map (fun l => l ++ [LF]) ls).

Definition removed (data : str) : str :=
  unlines (List.filter (fun line => negb (own_line line)) (splitlines data)).

Definition reserved_lines : str := (cdcline ++ [LF]) ++ cdcattr ++ [LF].

Definition installed (text : str) : str :=
  match str_strip text with
  | [] => reserved_lines
  | data => (data ++ [LF]) ++ reserved_lines
  end.

(** Text whose only line boundaries are [\n]. *)
Definition only_lf (s : str) : Prop :=
  Forall (fun c => is_linebreak c = true -> c = LF) s.

(** Text without [\r]. *)
Definition no_cr (s : str) : Prop := Forall (fun c => c <> CR) s.

(** The configuration [do_remove] leaves, and the one [install] leaves. *)
Definition config_removed (cfg : gmap str bytes) : gmap str bytes :=
  delete (lit "filter.git_fastcdc.required")
         (delete (lit "filter.git_fastcdc.process") cfg).

Definition config_installed (cfg : gmap str bytes) : gmap str bytes :=
  <[lit "filter.git_fastcdc.required" := blit "true"]>
    (<[lit "filter.git_fastcdc.process" := blit "git-fastcdc process"]>
       (config_removed cfg)).

(** The attribute file, as a key of the file map. *)
Definition attributes_key : str := lit ".gitattributes".

(** Text [str.encode()] accepts. *)
Definition scalars (s : str) : Prop := Forall (fun c => scalar c = true) s.


(** ** Vocabulary of the sweep *)

(** The tracked paths [prune] iterates over, the ones it keeps for the
    sweep, and the attribute lines it reads a pattern from. *)
Definition tracked `{Git} : list str :=
  map str_strip (splitlines (default [] ls_files_stdout)).

Definition considered `{PyLib} (entry : str) : bool :=
  negb (fnmatch entry cdcmatch || contains (lit ".gitattributes") entry).

Definition binding_line (line : str) : bool :=
  contains (lit "filter=git_fastcdc") line && negb (contains cdcline line).

Definition pattern_of `{PyLib} (line : str) : option str :=
  match shlex_split line with
  | Some (pat :: _) => Some pat
  | _ => None
  end.

(** [entry] matches the pattern of the binding line [line]. *)
Definition selects `{PyLib} (line entry : str) : Prop :=
  binding_line line = true
  /\ exists pat, pattern_of line = Some pat /\ fnmatch entry pat = true.

(** [entry] matches the pattern of a binding line of the attribute text. *)
Definition bound `{PyLib} (attrs : str) (entry : str) : bool :=
  existsb (fun line =>
             binding_line line
             && match pattern_of line with
                | Some pat => fnmatch entry pat
                | None => false
                end)
          (readlines attrs).

(** The [*.cdc] lines of the staged contents of [entry]. *)
Definition manifest_names `{Git} `{PyLib} (entry : str) : list str :=
  match show_stdout (lit ":" ++ entry) with
  | Some out =>
      match utf8_decode out with
      | Some text => List.filter (fun blob => fnmatch blob (lit "*.cdc")) (splitlines text)
      | None => []
      end
  | None => []
  end.

(** The live set: names in the staged manifest of a tracked path that the
    sweep considers and that a binding line matches. *)
Definition live `{Git} `{PyLib} (attrs : str) (blob : str) : bool :=
  existsb (fun entry =>
             considered entry && bound attrs entry
             && bool_decide (blob ∈ manifest_names entry))
          tracked.

(** The attribute file as [prune] reads it. *)
Definition attributes_text (s : state) : str :=
  match files s !! attributes_key with
  | Some c =>
      match utf8_decode c with
      | Some t => universal_newlines t
      | None => []
      end
  | None => []
  end.

(** Keys of the file map are paths as [pathlib] prints them. *)
Definition normal (fs : gmap str bytes) : bool :=
  forallb (fun kv => bool_decide (path_str (Path_of (fst kv)) = fst kv))
          (map_to_list fs).

(** The working tree grows: files stay, and keys stay well formed. *)
Definition grows (fs fs' : gmap str bytes) : Prop :=
  fs ⊆ fs' /\ (normal fs = true -> normal fs' = true).

Definition is_chunk_file (k : str) : bool := matches_cdcmatch (Path_of k).


(** [git add] starts the clean filter, which may write chunk files: it
    leaves the files of the working tree in place, and the paths well
    formed. *)
Definition staging_keeps `{Git} : Prop :=
  forall args fs fs', add_worktree args fs = Some fs' -> grows fs fs'.


(** ** An example repository for the sweep *)

(** [fnmatch] for patterns without bracket expressions: [*] stands for any
    run of characters, [?] for one; and [shlex.split] for lines without
    quotes and backslashes, which splits at blanks. *)
Fixpoint glob_match (pat s : str) : bool :=
  match pat with
  | [] => match s with [] => true | _ :: _ => false end
  | c :: pat' =>
      if (c =? 42)%N then
        (fix star (s : str) : bool :=
           glob_match pat' s
           || match s with
              | [] => false
              | _ :: s' => star s'
              end) s
      else
        match s with
        | [] => false
        | d :: s' => ((c =? 63)%N || (c =? d)%N) && glob_match pat' s'
        end
  end.

Definition shlex_blank (c : N) : bool :=
  (c =? 32)%N || (c =? 9)%N || (c =? 13)%N || (c =? 10)%N.

Fixpoint words (s : str) : list str :=
  match s with
  | [] => []
  | c :: s' =>
      if shlex_blank c then
        match words s' with
        | [] :: ws => [] :: ws
        | ws => [] :: ws
        end
      else
        match words s' with
        | w :: ws => (c :: w) :: ws
        | [] => [[c]]
        end
  end.

Definition plain_split (s : str) : option (list str) :=
  if existsb (fun c => (c =? 34)%N || (c =? 39)%N || (c =? 92)%N) s then None
  else Some (List.filter (fun w => negb (bool_decide (w = []))) (words s)).

Definition example_pylib : PyLib :=
  {| fnmatch := fun name pat => glob_match pat name;
     shlex_split := plain_split |}.

(** Two tracked files bound by [*.bin], checked out in the working tree; the
    staged manifest of each names one chunk, and a third chunk file is named
    by none. *)
Definition sweep_git : Git :=
  {| hash_object_stdout := fun _ => None;
     ls_files_stdout :=
       Some (lit ".cdc/aa/aa/aaaa.cdc" ++ [LF] ++ lit ".cdc/bb/bb/bbbb.cdc" ++ [LF]
             ++ lit ".cdc/cc/cc/cccc.cdc" ++ [LF] ++ lit ".gitattributes" ++ [LF]
             ++ lit "big.bin" ++ [LF] ++ lit "notes.gitattributes.bin" ++ [LF]);
     show_stdout := fun id =>
       if bool_decide (id = lit ":big.bin") then Some (blit "aaaa.cdc" ++ [x0a])
       else if bool_decide (id = lit ":notes.gitattributes.bin")
            then Some (blit "cccc.cdc" ++ [x0a])
            else None;
     add_worktree := fun _ fs => Some fs |}.

Definition sweep_attributes : bytes :=
  blit "*.bin filter=git_fastcdc" ++ [x0a]
  ++ blit "/.cdc/**/*.cdc binary filter=git_fastcdc" ++ [x0a]
  ++ blit "/.gitattributes text -binary -filter" ++ [x0a].

Definition sweep_kept : gmap str bytes :=
  <[lit ".gitattributes" := sweep_attributes]>
    (<[lit "big.bin" := blit "many bytes"]>
       (<[lit "notes.gitattributes.bin" := blit "other bytes"]>
          (<[lit ".cdc/aa/aa/aaaa.cdc" := blit "aaaa"]> ∅))).

Definition sweep_state : state :=
  mkState [] false []
          (<[lit ".cdc/bb/bb/bbbb.cdc" := blit "bbbb"]>
             (<[lit ".cdc/cc/cc/cccc.cdc" := blit "cccc"]> sweep_kept))
          ∅ ∅ None.

Definition sweep_after : state :=
  mkState [] false [] sweep_kept ∅ ∅ None.

(** ** Vocabulary of the handshake *)

(** What the session writes in the handshake: its greeting, and the
    capabilities it advertises. *)
Definition greeting : bytes :=
  pkt_line (blit "git-filter-server") ++ pkt_line (blit "version=2") ++ flush_line.

Definition advertisement : bytes :=
  pkt_line (blit "capability=clean") ++ pkt_line (blit "capability=smudge")
  ++ flush_line.

Definition capability_of (line : str) : str := snd (partition_eq line).

Definition offers (cap : str) (lines : list str) : bool :=
  existsb (fun line => bool_decide (capability_of line = cap)) lines.

(** ** Vocabulary of the on-disk mode *)


(** Every chunk has its manifest in [fs]. *)
Definition manifests_present `{Git} (chunks : list bytes) (fs : gmap str bytes)
  : Prop :=
  forall d hb, d ∈ chunks -> name_of d = Some hb ->
               fs !! chunk_path (text_of hb) = Some hb.

(** ** Vocabulary of the session *)

(** * Properties *)

Section ChunkString.
Context {A : Type}.
Variable cs : nat.
Hypothesis cs_pos : 0 < cs.

Lemma py_range_0 : py_range 0 cs = [].
Proof.
  unfold py_range. rewrite Nat.div_small by lia. reflexivity.
Qed.

Lemma py_range_step n :
  0 < n -> py_range n cs = 0 :: map (fun i => cs + i) (py_range (n - cs) cs).
Proof.
  intros Hn. unfold py_range.
  destruct (le_lt_dec n cs) as [Hle|Hlt].
  - replace (n - cs) with 0 by lia.
    rewrite (Nat.div_small (0 + _)) by lia.
    replace ((n + (cs - 1)) / cs) with 1; [reflexivity|].
    apply Nat.div_unique with (r := n - 1); lia.
  - replace (n + (cs - 1)) with ((n - cs + (cs - 1)) + 1 * cs) by lia.
    rewrite Nat.div_add by lia.
    rewrite Nat.add_1_r. cbn [seq map]. f_equal.
    rewrite <- seq_shift, !map_map. apply map_ext. intros k. lia.
Qed.

Lemma chunk_string_with_nil : chunk_string_with cs (@nil A) = [].
Proof. unfold chunk_string_with. cbn [length]. rewrite py_range_0. reflexivity. Qed.

Lemma chunk_string_with_step (s : list A) :
  s <> [] ->
  chunk_string_with cs s = take cs s :: chunk_string_with cs (drop cs s).
Proof.
  intros Hs. unfold chunk_string_with.
  rewrite py_range_step by (destruct s; [congruence | cbn; lia]).
  cbn [map]. unfold slice at 1. rewrite drop_0. f_equal.
  rewrite length_drop, map_map. apply map_ext. intros i.
  unfold slice. rewrite drop_drop. reflexivity.
Qed.

Lemma chunk_string_with_ind (P : list A -> list (list A) -> Prop) :
  P [] [] ->
  (forall s, s <> [] ->
     P (drop cs s) (chunk_string_with cs (drop cs s)) ->
     P s (take cs s :: chunk_string_with cs (drop cs s))) ->
  forall s, P s (chunk_string_with cs s).
Proof.
  intros Hnil Hstep s.
  remember (length s) as n eqn:Hn. revert s Hn.
  induction n as [n IH] using lt_wf_ind. intros s ->.
  destruct s as [|a s].
  - rewrite chunk_string_with_nil. exact Hnil.
  - rewrite chunk_string_with_step by discriminate.
    apply Hstep; [discriminate|].
    eapply IH; [|reflexivity]. rewrite length_drop. cbn [length]. lia.
Qed.

Lemma chunk_string_with_concat (s : list A) :
  concat (chunk_string_with cs s) = s.
Proof.
  apply (chunk_string_with_ind (fun s r => concat r = s)); [reflexivity|].
  intros s' _ IH. cbn [concat]. rewrite IH. apply take_drop.
Qed.

Lemma chunk_string_with_bounds (s : list A) :
  Forall (fun c => c <> [] /\ length c <= cs) (chunk_string_with cs s).
Proof.
  apply (chunk_string_with_ind
           (fun _ r => Forall (fun c => c <> [] /\ length c <= cs) r)).
  - constructor.
  - intros s' Hs IH. constructor; [|exact IH]. split.
    + destruct s'; [congruence|]. destruct cs; [lia|]. discriminate.
    + rewrite length_take. lia.
Qed.

Lemma chunk_string_with_full (s : list A) i c :
  chunk_string_with cs s !! i = Some c ->
  S i < length (chunk_string_with cs s) ->
  length c = cs.
Proof.
  revert i c.
  apply (chunk_string_with_ind
           (fun _ r => forall i c, r !! i = Some c -> S i < length r -> length c = cs)).
  - intros i c H. discriminate.
  - intros s' Hs IH i c Hi Hlen. destruct i as [|i].
    + injection Hi as <-. rewrite length_take.
      destruct (le_lt_dec cs (length s')) as [|Hshort]; [lia|].
      exfalso. rewrite drop_ge in Hlen by lia.
      rewrite chunk_string_with_nil in Hlen. cbn [length] in Hlen. lia.
    + cbn in Hi. apply (IH i c Hi). cbn [length] in Hlen. lia.
Qed.
End ChunkString.

Lemma chunk_size_pos : 0 < chunk_size.
Proof. unfold chunk_size. lia. Qed.

Lemma chunk_string_concat (s : bytes) : concat (chunk_string s) = s.
Proof. apply chunk_string_with_concat, chunk_size_pos. Qed.

Lemma chunk_string_bounds (s : bytes) :
  Forall (fun c => c <> [] /\ (N.of_nat (length c) <= 65516)%N) (chunk_string s).
Proof.
  eapply Forall_impl; [apply chunk_string_with_bounds, chunk_size_pos|].
  intros c [Hne Hle]. split; [exact Hne|]. unfold chunk_size in Hle. lia.
Qed.

(** C10.  [chunk_string(s)] read back in order is [s]; no element is empty
    or longer than 65516 bytes; every element but the last has exactly 65516
    bytes; and the list is empty for the empty string. *)
Theorem chunk_string_partition (s : bytes) :
  concat (chunk_string s) = s
  /\ Forall (fun c => c <> [] /\ (N.of_nat (length c) <= 65516)%N) (chunk_string s)
  /\ (forall i c, chunk_string s !! i = Some c ->
                  S i < length (chunk_string s) ->
                  N.of_nat (length c) = 65516%N)
  /\ chunk_string (@nil byte) = [].
Proof.
  pose proof chunk_size_pos as Hpos.
  split; [|split; [|split]].
  - apply chunk_string_concat.
  - apply chunk_string_bounds.
  - unfold chunk_string. intros i c Hi Hlt.
    rewrite (chunk_string_with_full _ Hpos s i c Hi Hlt). unfold chunk_size. lia.
  - apply chunk_string_with_nil, Hpos.
Qed.

(** ** The adaptive average size *)

Section AvgSize.
Local Open Scope Z_scope.

Lemma bit_length_nonneg n : 0 <= bit_length n.
Proof.
  unfold bit_length. destruct (n =? 0); [lia|].
  pose proof (Z.log2_nonneg (Z.abs n)). lia.
Qed.

Lemma bit_length_spec n : 0 < n -> 2 ^ (bit_length n - 1) <= n < 2 ^ bit_length n.
Proof.
  intros Hn. unfold bit_length.
  destruct (Z.eqb_spec n 0) as [->|_]; [lia|].
  rewrite Z.abs_eq by lia.
  replace (Z.log2 n + 1 - 1) with (Z.log2 n) by lia.
  replace (Z.log2 n + 1) with (Z.succ (Z.log2 n)) by lia.
  apply Z.log2_spec, Hn.
Qed.

Lemma bit_length_upper n : 0 <= n -> n < 2 ^ bit_length n.
Proof.
  intros Hn. destruct (Z.eq_dec n 0) as [->|Hne]; [reflexivity|].
  apply bit_length_spec. lia.
Qed.

Lemma bit_length_mono n m : 0 <= n <= m -> bit_length n <= bit_length m.
Proof.
  intros [Hn Hm]. unfold bit_length.
  destruct (Z.eqb_spec n 0) as [->|Hn0].
  - destruct (m =? 0); [lia|]. pose proof (Z.log2_nonneg (Z.abs m)). lia.
  - destruct (Z.eqb_spec m 0) as [->|Hm0]; [lia|].
    rewrite !Z.abs_eq by lia.
    pose proof (Z.log2_le_mono n m Hm). lia.
Qed.

Lemma bit_length_log2_up n : 0 <= n -> bit_length n = Z.log2_up (n + 1).
Proof.
  intros Hn. unfold bit_length.
  destruct (Z.eqb_spec n 0) as [->|Hn0]; [reflexivity|].
  rewrite Z.abs_eq by lia.
  rewrite Z.log2_up_eqn by lia.
  replace (Z.pred (n + 1)) with n by lia. lia.
Qed.

Lemma quantize_eq box :
  quantize box = box / 2 ^ Z.max (bit_length box - 5) 0 * 2 ^ Z.max (bit_length box - 5) 0.
Proof.
  unfold quantize. cbv zeta.
  rewrite Z.shiftl_mul_pow2, Z.shiftr_div_pow2 by lia. reflexivity.
Qed.

Lemma quantize_le box : 0 <= box -> quantize box <= box.
Proof.
  intros Hb. rewrite quantize_eq.
  rewrite Z.mul_comm. apply Z.mul_div_le.
  apply Z.pow_pos_nonneg; lia.
Qed.

Lemma quantize_top box : 0 < box -> 2 ^ (bit_length box - 1) <= quantize box.
Proof.
  intros Hb. rewrite quantize_eq.
  pose proof (bit_length_spec box Hb) as [Hlo _].
  pose proof (bit_length_nonneg box) as Hnn.
  set (L := bit_length box) in *.
  assert (HL : 1 <= L).
  { destruct (Z_lt_le_dec L 1) as [Hlt|]; [|assumption].
    exfalso. assert (L = 0) by lia.
    pose proof (bit_length_upper box ltac:(lia)) as Hu. fold L in Hu.
    rewrite H in Hu. simpl in Hu. lia. }
  set (s := Z.max (L - 5) 0).
  assert (Hs : 0 <= s <= L - 1) by (unfold s; lia).
  assert (Hp : 0 < 2 ^ s) by (apply Z.pow_pos_nonneg; lia).
  replace (L - 1) with ((L - 1 - s) + s) in * by lia.
  rewrite Z.pow_add_r in * by lia.
  apply Z.mul_le_mono_nonneg_r; [lia|].
  apply Z.div_le_lower_bound; [exact Hp|]. lia.
Qed.

Lemma quantize_mono a b : 0 <= a <= b -> quantize a <= quantize b.
Proof.
  intros [Ha Hab].
  destruct (Z.eq_dec a 0) as [->|Ha0].
  { rewrite (quantize_eq b). cbn.
    apply Z.mul_nonneg_nonneg.
    - apply Z.div_pos; [lia|]. apply Z.pow_pos_nonneg; lia.
    - apply Z.pow_nonneg. lia. }
  pose proof (bit_length_mono a b (conj Ha Hab)) as Hbl.
  destruct (Z.eq_dec (bit_length a) (bit_length b)) as [Heq|Hne].
  - rewrite !quantize_eq, Heq.
    apply Z.mul_le_mono_nonneg_r; [apply Z.pow_nonneg; lia|].
    apply Z.div_le_mono; [apply Z.pow_pos_nonneg; lia | exact Hab].
  - pose proof (quantize_le a Ha).
    pose proof (bit_length_upper a Ha).
    pose proof (quantize_top b ltac:(lia)).
    assert (2 ^ bit_length a <= 2 ^ (bit_length b - 1)).
    { apply Z.pow_le_mono_r; [lia|]. lia. }
    lia.
Qed.

Lemma round_to_even_eq x k :
  1 <= k ->
  round_to_even x k =
    let p := 2 ^ k in
    let q := x / p in
    let r := x - q * p in
    let half := 2 ^ (k - 1) in
    if r <? half then q * p
    else if half <? r then (q + 1) * p
    else if Z.even q then q * p else (q + 1) * p.
Proof.
  intros Hk. unfold round_to_even. cbv zeta.
  rewrite !Z.shiftl_mul_pow2, !Z.shiftr_div_pow2 by lia.
  rewrite Z.mul_1_l. reflexivity.
Qed.

Lemma round_to_even_mono x y k :
  1 <= k -> 0 <= x <= y -> round_to_even x k <= round_to_even y k.
Proof.
  intros Hk [Hx Hxy]. rewrite !round_to_even_eq by exact Hk. cbv zeta.
  assert (Hp : 0 < 2 ^ k) by (apply Z.pow_pos_nonneg; lia).
  set (p := 2 ^ k) in *. set (h := 2 ^ (k - 1)).
  pose proof (Z.div_le_mono x y p Hp Hxy) as Hq.
  pose proof (Z.mul_div_le x p Hp) as Hx1.
  pose proof (Z.mul_div_le y p Hp) as Hy1.
  pose proof (Z.mul_succ_div_gt x p Hp) as Hx2.
  pose proof (Z.mul_succ_div_gt y p Hp) as Hy2.
  set (q := x / p) in *. set (q' := y / p) in *.
  destruct (Z.eq_dec q q') as [Heq|Hne].
  - rewrite <- Heq in *.
    repeat match goal with
           | |- context [if ?c then _ else _] => destruct c eqn:?
           end; try lia.
  - assert (Hstep : (q + 1) * p <= q' * p).
    { apply Z.mul_le_mono_nonneg_r; lia. }
    repeat match goal with
           | |- context [if ?c then _ else _] => destruct c eqn:?
           end; lia.
Qed.

Lemma round_to_even_multiple q k :
  1 <= k -> round_to_even (q * 2 ^ k) k = q * 2 ^ k.
Proof.
  intros Hk. rewrite round_to_even_eq by exact Hk. cbv zeta.
  assert (Hp : 0 < 2 ^ k) by (apply Z.pow_pos_nonneg; lia).
  assert (Hh : 0 < 2 ^ (k - 1)) by (apply Z.pow_pos_nonneg; lia).
  rewrite Z.div_mul by lia.
  replace (q * 2 ^ k - q * 2 ^ k) with 0 by lia.
  destruct (Z.ltb_spec 0 (2 ^ (k - 1))); [reflexivity | lia].
Qed.

(** A number of [b] bits rounds to a number between [2^(b-1)] and [2^b]. *)
Lemma to_float_range n :
  53 < bit_length n -> 0 < n ->
  2 ^ (bit_length n - 1) <= to_float n <= 2 ^ bit_length n.
Proof.
  intros Hb Hn. unfold to_float.
  destruct (Z.leb_spec (bit_length n) 53) as [|_]; [lia|].
  pose proof (bit_length_spec n Hn) as [Hlo Hhi].
  set (b := bit_length n) in *. set (k := b - 53).
  assert (Hk : 1 <= k) by (unfold k; lia).
  replace (2 ^ (b - 1)) with (2 ^ 52 * 2 ^ k) in *
    by (rewrite <- Z.pow_add_r by lia; f_equal; unfold k; lia).
  replace (2 ^ b) with (2 ^ 53 * 2 ^ k) in *
    by (rewrite <- Z.pow_add_r by lia; f_equal; unfold k; lia).
  split.
  - rewrite <- (round_to_even_multiple (2 ^ 52) k Hk).
    apply round_to_even_mono; [exact Hk|]. split; [|exact Hlo].
    apply Z.mul_nonneg_nonneg; [lia|]. apply Z.pow_nonneg. lia.
  - rewrite <- (round_to_even_multiple (2 ^ 53) k Hk).
    apply round_to_even_mono; [exact Hk|]. lia.
Qed.

Lemma to_float_exact n : bit_length n <= 53 -> to_float n = n.
Proof.
  intros Hb. unfold to_float.
  destruct (Z.leb_spec (bit_length n) 53); [reflexivity | lia].
Qed.

Lemma to_float_mono n m : 0 <= n <= m -> to_float n <= to_float m.
Proof.
  intros [Hn Hnm].
  pose proof (bit_length_mono n m (conj Hn Hnm)) as Hbl.
  destruct (Z_le_gt_dec (bit_length m) 53) as [Hm53|Hm53].
  { rewrite !to_float_exact by lia. exact Hnm. }
  assert (Hm : 0 < m).
  { destruct (Z.eq_dec m 0) as [->|]; [|lia]. cbn in Hm53. lia. }
  destruct (Z_le_gt_dec (bit_length n) 53) as [Hn53|Hn53].
  { rewrite (to_float_exact n) by lia.
    pose proof (to_float_range m ltac:(lia) Hm) as [Hlo _].
    pose proof (bit_length_upper n Hn).
    assert (2 ^ bit_length n <= 2 ^ (bit_length m - 1))
      by (apply Z.pow_le_mono_r; lia).
    lia. }
  assert (Hn0 : 0 < n).
  { destruct (Z.eq_dec n 0) as [->|]; [|lia]. cbn in Hn53. lia. }
  destruct (Z.eq_dec (bit_length n) (bit_length m)) as [Heq|Hne].
  - unfold to_float. rewrite Heq.
    destruct (Z.leb_spec (bit_length m) 53); [lia|].
    apply round_to_even_mono; lia.
  - pose proof (to_float_range n ltac:(lia) Hn0) as [_ Hhi].
    pose proof (to_float_range m ltac:(lia) Hm) as [Hlo _].
    assert (2 ^ bit_length n <= 2 ^ (bit_length m - 1))
      by (apply Z.pow_le_mono_r; lia).
    lia.
Qed.

Lemma to_float_nonneg n : 0 <= n -> 0 <= to_float n.
Proof.
  intros Hn. change 0 with (to_float 0) at 1. apply to_float_mono. lia.
Qed.

Lemma get_avg_size_mono n m : 0 <= n <= m -> get_avg_size n <= get_avg_size m.
Proof.
  intros Hnm. change (quantize (int_truediv_32 n) <= quantize (int_truediv_32 m)).
  apply quantize_mono. unfold int_truediv_32. split.
  - apply Z.div_pos; [|lia]. apply to_float_nonneg. lia.
  - apply Z.div_le_mono; [lia|]. apply to_float_mono, Hnm.
Qed.

Lemma get_avg_size_exact n :
  0 <= n < 2 ^ 53 -> Z.max avg_min (get_avg_size n) = spec_avg_size n.
Proof.
  intros [Hn Hlt]. unfold get_avg_size, spec_avg_size, int_truediv_32. cbv zeta.
  rewrite to_float_exact.
  - rewrite (bit_length_log2_up (n / 32)) by (apply Z.div_pos; lia).
    reflexivity.
  - destruct (Z.eq_dec n 0) as [->|Hn0]; [cbn; lia|].
    pose proof (bit_length_spec n ltac:(lia)) as [Hlo _].
    destruct (Z_le_gt_dec (bit_length n) 53) as [|Hgt]; [assumption|].
    exfalso.
    assert (2 ^ 53 <= 2 ^ (bit_length n - 1)) by (apply Z.pow_le_mono_r; lia).
    lia.
Qed.

(** C2, as the code has it.  For every input length [n] below [2^53] the
    average chunk size the clean handlers use is the specification's
    [max(131072, (box >> shift) << shift)] with [box = n / 32]; and for all
    lengths [n <= m] the average for [n] is at most the one for [m]. *)
Theorem adaptive_average (n m : Z) :
  0 <= n <= m ->
  (n < 2 ^ 53 -> Z.max avg_min (get_avg_size n) = spec_avg_size n)
  /\ Z.max avg_min (get_avg_size n) <= Z.max avg_min (get_avg_size m).
Proof.
  intros Hnm. split.
  - intros Hlt. apply get_avg_size_exact. lia.
  - pose proof (get_avg_size_mono n m Hnm). lia.
Qed.

Lemma adaptive_average_witness :
  (Z.max avg_min (get_avg_size 1000000000) = spec_avg_size 1000000000)
  /\ Z.max avg_min (get_avg_size 1000000000) <= Z.max avg_min (get_avg_size (2 ^ 59 - 1)).
Proof.
  destruct (adaptive_average 1000000000 (2 ^ 59 - 1)) as [H1 H2]; [lia|].
  split; [apply H1; lia | exact H2].
Defined.

(** C2 as stated fails for a length of [2^59 - 1]: the true division
    rounds the length to [2^59], which has one more bit than
    [(2^59 - 1) // 32]. *)
Lemma adaptive_average_counterexample :
  Z.max avg_min (get_avg_size (2 ^ 59 - 1)) = 18014398509481984
  /\ spec_avg_size (2 ^ 59 - 1) = 17451448556060672.
Proof. split; vm_compute; reflexivity. Qed.
End AvgSize.

(** ** Computations *)

Lemma bind_ok {A B} (m : M A) (k : A -> M B) s a s' :
  m s = (Ok a, s') -> bind m k s = k a s'.
Proof. intros Hm. unfold bind. rewrite Hm. reflexivity. Qed.

Lemma bind_raise {A B} (m : M A) (k : A -> M B) s e s' :
  m s = (Raise e, s') -> bind m k s = (Raise e, s').
Proof. intros Hm. unfold bind. rewrite Hm. reflexivity. Qed.

(** ** Packet framing *)

Lemma hex_digit_facts (d : N) :
  (d < 16)%N ->
  byte_isspace (hex_digit d) = false
  /\ Byte.eqb (hex_digit d) "+"%byte = false
  /\ Byte.eqb (hex_digit d) "-"%byte = false
  /\ Byte.eqb (hex_digit d) "x"%byte = false
  /\ Byte.eqb (hex_digit d) "X"%byte = false
  /\ Byte.eqb (hex_digit d) "_"%byte = false
  /\ hex_value (hex_digit d) = Some d.
Proof.
  intros Hd.
  destruct d as [|p]; [vm_compute; repeat split|].
  do 4 (try destruct p as [p|p|]); try lia; vm_compute; repeat split.
Qed.

Lemma format_04x_digits (n : N) :
  (n < 65536)%N ->
  format_04x n =
    [hex_digit (n / 4096 mod 16); hex_digit (n / 256 mod 16);
     hex_digit (n / 16 mod 16); hex_digit (n mod 16)]%N.
Proof.
  intros Hn. unfold format_04x.
  assert (Hw : Nat.max 4 (hex_width n) = 4).
  { unfold hex_width.
    assert (N.log2 n < 16)%N.
    { destruct (N.eq_dec n 0%N) as [->|Hn0]; [reflexivity|].
      apply N.log2_lt_pow2; [lia|]. exact Hn. }
    assert (N.log2 n / 4 < 4)%N by (apply N.Div0.div_lt_upper_bound; lia).
    lia. }
  rewrite Hw. cbn [hex_digits app].
  rewrite !N.Div0.div_div. reflexivity.
Qed.

Lemma format_04x_length (n : N) : (n < 65536)%N -> length (format_04x n) = 4.
Proof. intros Hn. rewrite format_04x_digits by exact Hn. reflexivity. Qed.

Lemma py_int16_format_04x (n : N) :
  (n < 65536)%N -> py_int16 (format_04x n) = Some (Z.of_N n).
Proof.
  intros Hn. rewrite format_04x_digits by exact Hn.
  assert (H16 : forall m : N, (m mod 16 < 16)%N) by (intros; apply N.mod_lt; lia).
  destruct (hex_digit_facts _ (H16 (n / 4096)%N)) as (S3 & P3 & M3 & _ & _ & U3 & V3).
  destruct (hex_digit_facts _ (H16 (n / 256)%N)) as (_ & _ & _ & x2 & X2 & U2 & V2).
  destruct (hex_digit_facts _ (H16 (n / 16)%N)) as (_ & _ & _ & _ & _ & U1 & V1).
  destruct (hex_digit_facts _ (H16 n)) as (_ & _ & _ & _ & _ & U0 & V0).
  unfold py_int16. cbn [lstrip_by]. rewrite S3, P3, M3, x2, X2.
  rewrite andb_false_r. rewrite V3.
  cbn [scan_hex]. rewrite U3, V3, U2, V2, U1, V1, U0, V0.
  cbn [lstrip_by]. f_equal.
  assert (n / 4096 < 16)%N by (apply N.Div0.div_lt_upper_bound; lia).
  rewrite (N.mod_small (n / 4096)) by assumption.
  pose proof (N.div_mod n 16 ltac:(lia)).
  pose proof (N.div_mod (n / 16) 16 ltac:(lia)).
  pose proof (N.div_mod (n / 256) 16 ltac:(lia)).
  replace (n / 16 / 16)%N with (n / 256)%N in * by (rewrite N.Div0.div_div; reflexivity).
  replace (n / 256 / 16)%N with (n / 4096)%N in * by (rewrite N.Div0.div_div; reflexivity).
  lia.
Qed.

Lemma read_exact (n : nat) (s : state) :
  n <= length (stdin s) ->
  read (Z.of_nat n) s = (Ok (take n (stdin s)), set_stdin (drop n (stdin s)) s).
Proof.
  intros Hn. unfold read.
  destruct (Z.ltb_spec (Z.of_nat n) (-1)); [lia|].
  destruct (Z.leb_spec 0 (Z.of_nat n)); [|lia].
  rewrite Nat2Z.id. destruct (Nat.leb_spec n (length (stdin s))); [|lia].
  reflexivity.
Qed.

Lemma read_pkt_line_frame (p rest : bytes) (s : state) :
  payload_ok p -> stdin s = pkt_line p ++ rest ->
  read_pkt_line s = (Ok p, set_stdin rest s).
Proof.
  intros [Hne Hlen] Hin. unfold read_pkt_line.
  pose proof (format_04x_length (N.of_nat (length p) + 4) ltac:(lia)) as Hl4.
  pose proof (py_int16_format_04x (N.of_nat (length p) + 4) ltac:(lia)) as Hint.
  erewrite bind_ok; cycle 1.
  { apply (read_exact 4). rewrite Hin. unfold pkt_line.
    rewrite !length_app, Hl4. lia. }
  cbn [stdin set_stdin]. rewrite Hin. unfold pkt_line. cbv zeta.
  rewrite <- app_assoc.
  rewrite take_app_length' by (symmetry; exact Hl4).
  rewrite drop_app_length' by (symmetry; exact Hl4).
  destruct (format_04x (N.of_nat (length p) + 4)) as [|h0 hs] eqn:Hf;
    [discriminate|].
  rewrite Hint. unfold or_raise.
  erewrite bind_ok by reflexivity.
  destruct (Z.eqb_spec (Z.of_N (N.of_nat (length p) + 4)) 0) as [|_]; [lia|].
  replace (Z.of_N (N.of_nat (length p) + 4) - 4)%Z with (Z.of_nat (length p)) by lia.
  rewrite read_exact by (cbn [stdin set_stdin]; rewrite length_app; lia).
  cbn [stdin set_stdin].
  rewrite take_app_length, drop_app_length. reflexivity.
Qed.

Lemma read_pkt_line_flush (rest : bytes) (s : state) :
  stdin s = flush_line ++ rest ->
  read_pkt_line s = (Ok [], set_stdin rest s).
Proof.
  intros Hin. unfold read_pkt_line.
  erewrite bind_ok; cycle 1.
  { apply (read_exact 4). rewrite Hin. cbn. lia. }
  rewrite Hin. cbn. reflexivity.
Qed.

Lemma read_short (n : nat) (s : state) :
  length (stdin s) < n ->
  read (Z.of_nat n) s =
    if stdin_broken s then (Raise OSError, set_stdin [] s)
    else (Ok (stdin s), set_stdin [] s).
Proof.
  intros Hn. unfold read.
  destruct (Z.ltb_spec (Z.of_nat n) (-1)); [lia|].
  destruct (Z.leb_spec 0 (Z.of_nat n)); [|lia].
  rewrite Nat2Z.id. destruct (Nat.leb_spec n (length (stdin s))); [lia|].
  reflexivity.
Qed.

(** C4, as the code has it.  An I/O failure while the packet is read is
    fatal, and so is a length prefix that [int(_, 16)] rejects; but when the
    stream ends before the [length - 4] payload bytes are there, the packet
    read is what is left of the stream, shorter than declared. *)
Theorem read_pkt_line_failures (s : state) :
  (stdin_broken s = true -> length (stdin s) < 4 ->
   fst (read_pkt_line s) = Raise OSError)
  /\ (4 <= length (stdin s) -> py_int16 (take 4 (stdin s)) = None ->
      fst (read_pkt_line s) = Raise ValueError)
  /\ (forall len : Z,
        4 <= length (stdin s) -> py_int16 (take 4 (stdin s)) = Some len ->
        (4 < len)%Z -> (Z.of_nat (length (stdin s)) < len)%Z ->
        fst (read_pkt_line s) =
          if stdin_broken s then Raise OSError else Ok (drop 4 (stdin s))).
Proof.
  split; [|split].
  - intros Hb Hlen. unfold read_pkt_line.
    erewrite bind_raise; [reflexivity|].
    rewrite (read_short 4) by exact Hlen. rewrite Hb. reflexivity.
  - intros Hlen Hint. unfold read_pkt_line.
    erewrite bind_ok by (apply (read_exact 4); exact Hlen).
    destruct (take 4 (stdin s)) as [|h0 hs] eqn:Ht.
    { apply (f_equal length) in Ht. rewrite length_take in Ht. cbn [length] in Ht. lia. }
    rewrite Hint. reflexivity.
  - intros len Hlen Hint H4 Hshort. unfold read_pkt_line.
    erewrite bind_ok by (apply (read_exact 4); exact Hlen).
    destruct (take 4 (stdin s)) as [|h0 hs] eqn:Ht.
    { apply (f_equal length) in Ht. rewrite length_take in Ht. cbn [length] in Ht. lia. }
    rewrite Hint. unfold or_raise. erewrite bind_ok by reflexivity.
    destruct (Z.eqb_spec len 0) as [|_]; [lia|].
    replace (len - 4)%Z with (Z.of_nat (Z.to_nat (len - 4))) by lia.
    rewrite read_short by (cbn [stdin set_stdin]; rewrite length_drop; lia).
    cbn [stdin_broken stdin set_stdin].
    destruct (stdin_broken s); reflexivity.
Qed.

Lemma read_pkt_line_failures_witness :
  fst (read_pkt_line (input_state (blit "00") true)) = Raise OSError
  /\ fst (read_pkt_line (input_state (blit "00g0abc") false)) = Raise ValueError
  /\ fst (read_pkt_line (input_state (blit "0009ab") false)) = Ok (blit "ab")
  /\ fst (read_pkt_line (input_state (blit "0009ab") true)) = Raise OSError.
Proof.
  split; [|split; [|split]].
  - apply (proj1 (read_pkt_line_failures (input_state (blit "00") true)));
      [reflexivity | vm_compute; lia].
  - apply (proj1 (proj2 (read_pkt_line_failures (input_state (blit "00g0abc") false))));
      [vm_compute; lia | reflexivity].
  - apply (proj2 (proj2 (read_pkt_line_failures (input_state (blit "0009ab") false))) 9%Z);
      [vm_compute; lia | reflexivity | lia | reflexivity].
  - apply (proj2 (proj2 (read_pkt_line_failures (input_state (blit "0009ab") true))) 9%Z);
      [vm_compute; lia | reflexivity | lia | reflexivity].
Defined.

(** C4 as stated fails: the prefix [0009] declares five payload bytes, two
    are left before the end of the stream, and [read_pkt_line] returns the
    two without an error. *)
Lemma read_pkt_line_short_read :
  py_int16 (blit "0009") = Some 9%Z
  /\ stdin_broken (input_state (blit "0009ab") false) = false
  /\ read_pkt_line (input_state (blit "0009ab") false)
     = (Ok (blit "ab"), input_state [] false).
Proof. repeat split. Qed.

(** ** Loops over the packets of standard input *)

Section WhileRead.
Context {A T : Type}.
Variable rd : M (list A).
Variable body : list A -> T -> M T.
Hypothesis rd_consumes :
  forall s x l s', rd s = (Ok (x :: l), s') -> length (stdin s') < length (stdin s).
Hypothesis body_keeps :
  forall x acc s r s', body x acc s = (r, s') -> length (stdin s') <= length (stdin s).

(** Fuel beyond the length of standard input changes nothing. *)
Lemma while_read_fuel f1 : forall f2 acc s,
  length (stdin s) < f1 -> length (stdin s) < f2 ->
  while_read f1 rd body acc s = while_read f2 rd body acc s.
Proof.
  induction f1 as [|f1 IH]; intros f2 acc s H1 H2; [lia|].
  destruct f2 as [|f2]; [lia|].
  cbn [while_read]. unfold bind at 1 3.
  destruct (rd s) as [[[|x l]|e] s1] eqn:Hrd; try reflexivity.
  apply rd_consumes in Hrd.
  unfold bind. destruct (body (x :: l) acc s1) as [[acc'|e] s2] eqn:Hb;
    [|reflexivity].
  apply body_keeps in Hb. apply IH; lia.
Qed.

Lemma while_pkt_step acc s x l s1 :
  rd s = (Ok (x :: l), s1) ->
  while_pkt rd body acc s
  = (acc' <- body (x :: l) acc ;; while_pkt rd body acc') s1.
Proof.
  intros Hrd. unfold while_pkt at 1. cbn [while_read].
  rewrite (bind_ok _ _ _ _ _ Hrd).
  apply rd_consumes in Hrd.
  unfold bind. destruct (body (x :: l) acc s1) as [[acc'|e] s2] eqn:Hb;
    [|reflexivity].
  apply body_keeps in Hb. unfold while_pkt. apply while_read_fuel; lia.
Qed.

Lemma while_pkt_stop acc s s1 :
  rd s = (Ok [], s1) -> while_pkt rd body acc s = (Ok acc, s1).
Proof.
  intros Hrd. unfold while_pkt. cbn [while_read].
  rewrite (bind_ok _ _ _ _ _ Hrd). reflexivity.
Qed.

Lemma while_pkt_raise acc s e s1 :
  rd s = (Raise e, s1) -> while_pkt rd body acc s = (Raise e, s1).
Proof.
  intros Hrd. unfold while_pkt. cbn [while_read].
  rewrite (bind_raise _ _ _ _ _ Hrd). reflexivity.
Qed.

(** The loops never run out of fuel. *)
Lemma while_read_total f : forall acc s,
  (forall x acc s s', body x acc s <> (Raise OutOfFuel, s')) ->
  (forall s s', rd s <> (Raise OutOfFuel, s')) ->
  length (stdin s) < f ->
  fst (while_read f rd body acc s) <> Raise OutOfFuel.
Proof.
  induction f as [|f IH]; intros acc s Hbody Hrd Hlen; [lia|].
  cbn [while_read]. unfold bind.
  destruct (rd s) as [[[|x l]|e] s1] eqn:Hr; cbn [fst].
  - discriminate.
  - apply rd_consumes in Hr as Hlt.
    destruct (body (x :: l) acc s1) as [[acc'|e] s2] eqn:Hb.
    + apply body_keeps in Hb. apply IH; [assumption..|lia].
    + cbn [fst]. intros [= ->]. exact (Hbody _ _ _ _ Hb).
  - intros [= ->]. exact (Hrd _ _ Hr).
Qed.
End WhileRead.

Lemma read_stdin n s r s' :
  read n s = (r, s') ->
  length (stdin s') <= length (stdin s)
  /\ (forall x l, r = Ok (x :: l) -> length (stdin s') < length (stdin s)).
Proof.
  unfold read. intros Hr.
  destruct (n <? -1)%Z.
  { injection Hr as <- <-. split; [lia | discriminate]. }
  destruct ((0 <=? n)%Z && (Z.to_nat n <=? length (stdin s))) eqn:Hc.
  { injection Hr as <- <-. cbn [stdin set_stdin]. rewrite length_drop.
    split; [lia|]. intros x l Ht. injection Ht as Ht.
    apply (f_equal length) in Ht. rewrite length_take in Ht. cbn [length] in Ht. lia. }
  destruct (stdin_broken s); injection Hr as <- <-; cbn [stdin set_stdin length].
  - split; [lia | discriminate].
  - split; [lia|]. intros x l [= ->]. cbn [length]. lia.
Qed.

Lemma read_pkt_line_stdin s r s' :
  read_pkt_line s = (r, s') ->
  length (stdin s') <= length (stdin s)
  /\ (forall x l, r = Ok (x :: l) -> length (stdin s') < length (stdin s)).
Proof.
  unfold read_pkt_line, bind. intros Hr.
  destruct (read 4 s) as [[hex|e] s1] eqn:H4.
  2:{ injection Hr as <- <-. apply read_stdin in H4 as [H4 _].
      split; [exact H4 | discriminate]. }
  apply read_stdin in H4 as [H4 _].
  destruct hex as [|h0 hs].
  { injection Hr as <- <-. split; [exact H4 | discriminate]. }
  destruct (py_int16 (h0 :: hs)) as [len|]; cbn [or_raise] in Hr.
  2:{ injection Hr as <- <-. split; [exact H4 | discriminate]. }
  unfold ret in Hr. destruct (len =? 0)%Z.
  { injection Hr as <- <-. split; [exact H4 | discriminate]. }
  apply read_stdin in Hr as [Hr1 Hr2]. split; [lia|].
  intros x l Hx. specialize (Hr2 x l Hx). lia.
Qed.

Lemma read_pkt_line_consumes s x l s' :
  read_pkt_line s = (Ok (x :: l), s') -> length (stdin s') < length (stdin s).
Proof. intros Hr. eapply read_pkt_line_stdin; [exact Hr | reflexivity]. Qed.

Lemma read_pkt_line_str_stdin s r s' :
  read_pkt_line_str s = (r, s') ->
  length (stdin s') <= length (stdin s)
  /\ (forall x l, r = Ok (x :: l) -> length (stdin s') < length (stdin s)).
Proof.
  unfold read_pkt_line_str, bind. intros Hr.
  destruct (read_pkt_line s) as [[pkt|e] s1] eqn:Hp.
  2:{ injection Hr as <- <-. apply read_pkt_line_stdin in Hp as [Hp _].
      split; [exact Hp | discriminate]. }
  apply read_pkt_line_stdin in Hp as [Hp1 Hp2].
  destruct (utf8_decode pkt) as [text|] eqn:Hd; cbn [or_raise] in Hr.
  2:{ injection Hr as <- <-. split; [exact Hp1 | discriminate]. }
  injection Hr as <- <-. split; [exact Hp1|].
  intros x l Hx. destruct pkt as [|p0 ps]; [|eapply Hp2; reflexivity].
  cbn in Hd. injection Hd as <-. discriminate Hx.
Qed.

Lemma read_pkt_line_str_consumes s x l s' :
  read_pkt_line_str s = (Ok (x :: l), s') -> length (stdin s') < length (stdin s).
Proof. intros Hr. eapply read_pkt_line_str_stdin; [exact Hr | reflexivity]. Qed.

Lemma read_pkt_line_str_frame (p rest : bytes) (text : str) (s : state) :
  payload_ok p -> utf8_decode p = Some text -> stdin s = pkt_line p ++ rest ->
  read_pkt_line_str s = (Ok (str_strip text), set_stdin rest s).
Proof.
  intros Hp Hd Hin. unfold read_pkt_line_str.
  rewrite (bind_ok _ _ _ _ _ (read_pkt_line_frame p rest s Hp Hin)).
  rewrite Hd. reflexivity.
Qed.

Lemma read_pkt_line_str_flush (rest : bytes) (s : state) :
  stdin s = flush_line ++ rest ->
  read_pkt_line_str s = (Ok [], set_stdin rest s).
Proof.
  intros Hin. unfold read_pkt_line_str.
  rewrite (bind_ok _ _ _ _ _ (read_pkt_line_flush rest s Hin)). reflexivity.
Qed.

(** ** The header packets of a request *)

Section Headers.
Context `{Git} `{FastCDC}.

Lemma header_pure line h : exists h', forall s, header line h s = (Ok h', s).
Proof.
  unfold header. destruct h as [[treeish ref] blob].
  destruct (partition_eq line) as [key value].
  repeat case_bool_decide; eexists; intros s; reflexivity.
Qed.

Lemma header_unknown line h s :
  fst (partition_eq line) ∉ known_keys -> header line h s = (Ok h, s).
Proof.
  unfold header, known_keys. intros Hk. destruct h as [[treeish ref] blob].
  destruct (partition_eq line) as [key value]. cbn [fst] in Hk.
  repeat case_bool_decide; try reflexivity; subst key; exfalso; apply Hk;
    set_solver.
Qed.

Lemma header_keeps line h s r s' :
  header line h s = (r, s') -> length (stdin s') <= length (stdin s).
Proof.
  destruct (header_pure line h) as [h' Hh]. rewrite Hh. intros [= <- <-]. lia.
Qed.

Lemma headers_step (q : bytes) (line : str) (rest : bytes) h s :
  carries q line -> line <> [] -> stdin s = pkt_line q ++ rest ->
  while_pkt read_pkt_line_str header h s
  = (h' <- header line h ;; while_pkt read_pkt_line_str header h') (set_stdin rest s).
Proof.
  intros (Hq & text & Hd & Hs) Hne Hin.
  destruct line as [|c l]; [congruence|].
  apply while_pkt_step.
  - apply read_pkt_line_str_consumes.
  - apply header_keeps.
  - rewrite <- Hs. apply (read_pkt_line_str_frame q rest text); assumption.
Qed.

Lemma headers_skip (p : bytes) (line : str) (rest : bytes) (s : state) :
  carries p line -> line <> [] -> fst (partition_eq line) ∉ known_keys ->
  forall hdrs h,
    Forall (fun q => exists l, carries q l /\ l <> []) hdrs ->
    while_pkt read_pkt_line_str header h
      (set_stdin (pkt_lines hdrs ++ pkt_line p ++ rest) s)
    = while_pkt read_pkt_line_str header h
        (set_stdin (pkt_lines hdrs ++ rest) s).
Proof.
  intros Hp Hne Hk hdrs. induction hdrs as [|q hdrs IH]; intros h Hall.
  - cbn [pkt_lines map concat app].
    rewrite (headers_step p line rest h _ Hp Hne) by reflexivity.
    unfold bind. rewrite header_unknown by exact Hk. reflexivity.
  - apply Forall_cons in Hall as [(l & Hq & Hl) Hall].
    unfold pkt_lines. cbn [map concat]. rewrite <- !app_assoc.
    rewrite (headers_step q l _ h _ Hq Hl) by reflexivity.
    rewrite (headers_step q l _ h (set_stdin (pkt_line q ++ _) s) Hq Hl) by reflexivity.
    destruct (header_pure l h) as [h' Hh].
    unfold bind. rewrite !Hh. apply IH, Hall.
Qed.

(** C7.  A header packet of a request whose key is none of [treeish],
    [ref] and [blob] does not end the session: the request is read,
    dispatched and answered exactly as if the packet were not there. *)
Theorem unknown_header_ignored
    (command_line : str) (new : bool) (path_pkt : bytes) (path_line : str)
    (hdrs : list bytes) (p : bytes) (line : str) (rest : bytes) (s : state) :
  fst (partition_eq command_line) = lit "command" ->
  carries path_pkt path_line ->
  fst (partition_eq path_line) = lit "pathname" ->
  Forall (fun q => exists l, carries q l /\ l <> []) hdrs ->
  carries p line -> line <> [] ->
  fst (partition_eq line) ∉ known_keys ->
  stdin s = pkt_line path_pkt ++ pkt_lines hdrs ++ pkt_line p ++ rest ->
  request command_line new s
  = request command_line new (set_stdin (pkt_line path_pkt ++ pkt_lines hdrs ++ rest) s).
Proof.
  intros Hc (Hpp & ptext & Hpd & Hps) Hpk Hall Hp Hne Hk Hin.
  unfold request.
  destruct (partition_eq command_line) as [key command]. cbn [fst] in Hc.
  subst key. rewrite bool_decide_eq_true_2 by reflexivity.
  cbn [py_assert].
  rewrite !(bind_ok (ret tt) _ _ tt _ eq_refl).
  rewrite (bind_ok _ _ _ _ _
             (read_pkt_line_str_frame path_pkt _ ptext s Hpp Hpd Hin)).
  rewrite (bind_ok _ _ _ _ _
             (read_pkt_line_str_frame path_pkt (pkt_lines hdrs ++ rest) ptext
                (set_stdin (pkt_line path_pkt ++ pkt_lines hdrs ++ rest) s)
                Hpp Hpd eq_refl)).
  rewrite Hps. destruct (partition_eq path_line) as [key pathname].
  cbn [fst] in Hpk. subst key. rewrite bool_decide_eq_true_2 by reflexivity.
  cbn [py_assert].
  rewrite !(bind_ok (ret tt) _ _ tt _ eq_refl).
  unfold read_headers, bind.
  change (set_stdin (pkt_lines hdrs ++ rest)
            (set_stdin (pkt_line path_pkt ++ pkt_lines hdrs ++ rest) s))
    with (set_stdin (pkt_lines hdrs ++ rest) s).
  rewrite (headers_skip p line rest s Hp Hne Hk hdrs _ Hall).
  reflexivity.
Qed.
End Headers.

(** ** Reading a run of well-formed packets *)

Section Frames.
Context {A T : Type}.
Variable rd : M (list A).
Variable f : bytes -> list A.
Variable ok : bytes -> Prop.
Variable body : list A -> T -> M T.
Variable g : list A -> T -> T.
Variable upd : list A -> state -> state.
Hypothesis rd_consumes :
  forall s x l s', rd s = (Ok (x :: l), s') -> length (stdin s') < length (stdin s).
Hypothesis rd_frame :
  forall p R s, ok p -> stdin s = pkt_line p ++ R -> rd s = (Ok (f p), set_stdin R s).
Hypothesis rd_flush :
  forall R s, stdin s = flush_line ++ R -> rd s = (Ok [], set_stdin R s).
Hypothesis f_nonempty : forall p, ok p -> f p <> [].
Hypothesis body_eq : forall x acc s, body x acc s = (Ok (g x acc), upd x s).
Hypothesis upd_set : forall x i s, upd x (set_stdin i s) = set_stdin i (upd x s).
Hypothesis upd_stdin : forall x s, stdin (upd x s) = stdin s.

Lemma while_pkt_frames pkts : forall rest acc s,
  Forall ok pkts ->
  stdin s = pkt_lines pkts ++ flush_line ++ rest ->
  while_pkt rd body acc s
  = (Ok (foldl (fun a p => g (f p) a) acc pkts),
     set_stdin rest (foldl (fun s p => upd (f p) s) s pkts)).
Proof.
  induction pkts as [|p pkts IH]; intros rest acc s Hok Hin.
  - cbn [foldl]. apply while_pkt_stop. apply rd_flush. exact Hin.
  - apply Forall_cons in Hok as [Hp Hok].
    unfold pkt_lines in Hin. cbn [map concat] in Hin.
    rewrite <- app_assoc in Hin.
    pose proof (rd_frame p _ s Hp Hin) as Hrd.
    destruct (f p) as [|x l] eqn:Hf; [exfalso; eapply f_nonempty; eauto|].
    assert (Hkeep : forall x' acc' s0 r s0',
               body x' acc' s0 = (r, s0') -> length (stdin s0') <= length (stdin s0)).
    { intros x' acc' s0 r s0'. rewrite body_eq. intros [= <- <-].
      rewrite upd_stdin. lia. }
    rewrite (while_pkt_step rd body rd_consumes Hkeep acc s x l _ Hrd).
    unfold bind. rewrite body_eq.
    rewrite (IH rest (g (x :: l) acc) (upd (x :: l) (set_stdin _ s)) Hok).
    2:{ rewrite upd_stdin. reflexivity. }
    cbn [foldl]. rewrite Hf. f_equal.
    rewrite upd_set.
    assert (Hcomm : forall ps i s0,
              foldl (fun s p => upd (f p) s) (set_stdin i s0) ps
              = set_stdin i (foldl (fun s p => upd (f p) s) s0 ps)).
    { clear -upd_set. induction ps as [|q ps IHps]; intros i s0; [reflexivity|].
      cbn [foldl]. rewrite upd_set. apply IHps. }
    rewrite Hcomm. reflexivity.
Qed.
End Frames.

Lemma while_read_pkt_lines {T} (body : bytes -> T -> M T) g upd pkts rest acc s :
  (forall x acc s, body x acc s = (Ok (g x acc), upd x s)) ->
  (forall x i s, upd x (set_stdin i s) = set_stdin i (upd x s)) ->
  (forall x s, stdin (upd x s) = stdin s) ->
  Forall payload_ok pkts ->
  stdin s = pkt_lines pkts ++ flush_line ++ rest ->
  while_pkt read_pkt_line body acc s
  = (Ok (foldl (fun a p => g p a) acc pkts),
     set_stdin rest (foldl (fun s p => upd p s) s pkts)).
Proof.
  intros Hb Hu1 Hu2 Hok Hin.
  apply (while_pkt_frames read_pkt_line (fun p => p) payload_ok body g upd);
    try assumption.
  - apply read_pkt_line_consumes.
  - intros p R s0 Hp Hs. apply read_pkt_line_frame; assumption.
  - intros R s0 Hs. apply read_pkt_line_flush; assumption.
  - intros p [Hne _]. exact Hne.
Qed.

Lemma while_read_str_lines {T} (body : str -> T -> M T) g upd pkts rest acc s :
  (forall x acc s, body x acc s = (Ok (g x acc), upd x s)) ->
  (forall x i s, upd x (set_stdin i s) = set_stdin i (upd x s)) ->
  (forall x s, stdin (upd x s) = stdin s) ->
  Forall text_ok pkts ->
  stdin s = pkt_lines pkts ++ flush_line ++ rest ->
  while_pkt read_pkt_line_str body acc s
  = (Ok (foldl (fun a p => g (line_of p) a) acc pkts),
     set_stdin rest (foldl (fun s p => upd (line_of p) s) s pkts)).
Proof.
  intros Hb Hu1 Hu2 Hok Hin.
  apply (while_pkt_frames read_pkt_line_str line_of text_ok body g upd);
    try assumption.
  - apply read_pkt_line_str_consumes.
  - intros p R s0 (Hp & Hd & _) Hs. unfold line_of.
    destruct (utf8_decode p) as [text|] eqn:Hdec; [|congruence].
    apply (read_pkt_line_str_frame p R text); assumption.
  - intros R s0 Hs. apply read_pkt_line_str_flush; assumption.
  - intros p (_ & _ & Hne). exact Hne.
Qed.

(** ** Writing packets *)

Lemma write_pkt_line_eq data s :
  write_pkt_line data s = (Ok tt, set_stdout (stdout s ++ pkt_line data) s).
Proof. reflexivity. Qed.

Lemma write_pkt_line_str_eq text data s :
  utf8_encode text = Some data ->
  write_pkt_line_str text s = (Ok tt, set_stdout (stdout s ++ pkt_line data) s).
Proof. intros He. unfold write_pkt_line_str. rewrite He. reflexivity. Qed.

Lemma flush_pkt_eq s :
  flush_pkt s = (Ok tt, set_stdout (stdout s ++ flush_line) s).
Proof. reflexivity. Qed.

Lemma status_success_encode : utf8_encode status_success = Some status_line.
Proof. vm_compute. reflexivity. Qed.

Lemma write_status_eq s :
  write_pkt_line_str status_success s
  = (Ok tt, set_stdout (stdout s ++ pkt_line status_line) s).
Proof. apply write_pkt_line_str_eq, status_success_encode. Qed.

(** ** smudge of a chunk manifest *)

Section SmudgeCdc.
Context `{Git} `{FastCDC}.

Lemma drain_eq pkts rest s :
  Forall payload_ok pkts ->
  stdin s = pkt_lines pkts ++ flush_line ++ rest ->
  while_pkt read_pkt_line (fun _ _ => ret tt) tt s = (Ok tt, set_stdin rest s).
Proof.
  intros Hok Hin.
  rewrite (while_read_pkt_lines _ (fun _ _ => tt) (fun _ s => s) pkts rest tt s);
    try assumption; try reflexivity.
  f_equal.
  - f_equal. clear. induction pkts; [reflexivity | assumption].
  - f_equal. clear. induction pkts; [reflexivity | assumption].
Qed.

Lemma smudge_cdc_mismatch pathname blob pkts rest s :
  Forall payload_ok pkts ->
  stdin s = pkt_lines pkts ++ flush_line ++ rest ->
  Some (stem pathname) <> blob ->
  smudge_cdc pathname blob s
  = (Raise AssertionError,
     set_stdout (stdout s ++ pkt_line status_line ++ flush_line)
                (set_stdin rest s)).
Proof.
  intros Hok Hin Hne. unfold smudge_cdc.
  rewrite (bind_ok _ _ _ _ _ (drain_eq pkts rest s Hok Hin)).
  rewrite (bind_ok _ _ _ _ _ (write_status_eq _)).
  rewrite (bind_ok _ _ _ _ _ (flush_pkt_eq _)).
  rewrite bool_decide_eq_false_2 by exact Hne.
  cbn. rewrite <- app_assoc. reflexivity.
Qed.

Lemma smudge_cdc_match pathname data pkts rest s :
  Forall payload_ok pkts ->
  stdin s = pkt_lines pkts ++ flush_line ++ rest ->
  utf8_encode (stem pathname) = Some data ->
  smudge_cdc pathname (Some (stem pathname)) s
  = (Ok tt,
     set_stdout (stdout s ++ pkt_line status_line ++ flush_line
                   ++ pkt_line data ++ flush_line ++ flush_line)
                (set_stdin rest s)).
Proof.
  intros Hok Hin He. unfold smudge_cdc.
  rewrite (bind_ok _ _ _ _ _ (drain_eq pkts rest s Hok Hin)).
  rewrite (bind_ok _ _ _ _ _ (write_status_eq _)).
  rewrite (bind_ok _ _ _ _ _ (flush_pkt_eq _)).
  rewrite bool_decide_eq_true_2 by reflexivity.
  rewrite (bind_ok _ _ _ _ _ (eq_refl : py_assert true _ = (Ok tt, _))).
  cbn [default].
  rewrite (bind_ok _ _ _ _ _ (write_pkt_line_str_eq _ data _ He)).
  rewrite (bind_ok _ _ _ _ _ (flush_pkt_eq _)).
  rewrite flush_pkt_eq. cbn. rewrite <- !app_assoc. reflexivity.
Qed.

(** C6.  A smudge request for a path below [.cdc/] goes to [smudge_cdc].
    It reads the payload packets up to the flush and drops them.  If the
    [blob] header is not the stem of the pathname the session ends with an
    [AssertionError]; if it is, the answer is [status=success], a flush,
    one packet holding exactly the hash, and two flushes. *)
Theorem smudge_cdc_answer
    (pathname : Path) (blob : option str) (new : bool)
    (pkts : list bytes) (rest : bytes) (s : state) :
  startswith (path_str pathname) (lit ".cdc/") = true ->
  Forall payload_ok pkts ->
  stdin s = pkt_lines pkts ++ flush_line ++ rest ->
  (Some (stem pathname) <> blob ->
   fst (dispatch (lit "smudge") pathname blob new s) = Raise AssertionError)
  /\ (forall hash data,
        blob = Some hash -> stem pathname = hash ->
        utf8_encode hash = Some data ->
        dispatch (lit "smudge") pathname blob new s
        = (Ok new,
           set_stdout (stdout s ++ pkt_line status_line ++ flush_line
                         ++ pkt_line data ++ flush_line ++ flush_line)
                      (set_stdin rest s))).
Proof.
  intros Hpre Hok Hin.
  assert (Hd : dispatch (lit "smudge") pathname blob new
               = (smudge_cdc pathname blob ;; ret new)).
  { unfold dispatch. rewrite bool_decide_eq_false_2 by (vm_compute; discriminate).
    rewrite bool_decide_eq_true_2 by reflexivity. rewrite Hpre. reflexivity. }
  rewrite Hd. split.
  - intros Hne.
    rewrite (bind_raise _ _ _ _ _ (smudge_cdc_mismatch _ _ pkts rest s Hok Hin Hne)).
    reflexivity.
  - intros hash data -> <- He.
    rewrite (bind_ok _ _ _ _ _ (smudge_cdc_match _ data pkts rest s Hok Hin He)).
    reflexivity.
Qed.
End SmudgeCdc.

(** ** The temporary file of the on-disk clean handler *)

Lemma unlink_gone p s : files (snd (unlink p s)) !! file_key p = None.
Proof.
  unfold unlink, bind, get. cbn.
  destruct (files s !! file_key p) eqn:Hl; cbn.
  - apply lookup_delete_eq.
  - exact Hl.
Qed.

Lemma try_finally_state {A} (body : M A) (fin : M unit) s :
  snd (try_finally body fin s) = snd (fin (snd (body s))).
Proof.
  unfold try_finally. destruct (body s) as [r s1]. cbn [snd].
  destruct (fin s1) as [[[]|e] s2]; reflexivity.
Qed.

(** C9.  However the on-disk clean handler ends - with its result, or with
    the exception of a read, of the chunker, of [git hash-object] or of an
    encoding - the temporary file is not there afterwards. *)
Theorem clean_ondisk_removes_tmpfile `{Git} `{FastCDC} (pathname : Path) (s : state) :
  files (snd (clean_ondisk pathname s)) !! lit ".fast_cdc_tmp_file_29310b6" = None.
Proof.
  unfold clean_ondisk. rewrite try_finally_state.
  change (lit ".fast_cdc_tmp_file_29310b6") with (file_key tmpfile).
  apply unlink_gone.
Qed.

(** ** ASCII text and object names *)

Lemma byte_of_to_N b : byte_of (Byte.to_N b) = b.
Proof. unfold byte_of. rewrite Byte.of_to_N. reflexivity. Qed.

Lemma utf8_decode_ascii bs :
  Forall (fun b => (Byte.to_N b < 128)%N) bs -> utf8_decode bs = Some (text_of bs).
Proof.
  induction 1 as [|b bs Hb _ IH]; [reflexivity|].
  cbn [utf8_decode text_of map]. cbv zeta.
  destruct (N.ltb_spec (Byte.to_N b) 128); [|lia].
  unfold text_of in IH. rewrite IH. reflexivity.
Qed.

Lemma utf8_encode_ascii bs :
  Forall (fun b => (Byte.to_N b < 128)%N) bs -> utf8_encode (text_of bs) = Some bs.
Proof.
  induction 1 as [|b bs Hb _ IH]; [reflexivity|].
  cbn [utf8_encode text_of map]. unfold scalar, utf8_encode_cp.
  destruct (N.ltb_spec (Byte.to_N b) 55296); [|lia]. cbn [orb].
  destruct (N.ltb_spec (Byte.to_N b) 128); [|lia].
  unfold text_of in IH. rewrite IH, byte_of_to_N. reflexivity.
Qed.

Lemma is_hex_facts b :
  is_hex b = true ->
  (Byte.to_N b < 128)%N
  /\ (Byte.to_N b =? SLASH)%N = false
  /\ (Byte.to_N b =? DOT)%N = false
  /\ isspace (Byte.to_N b) = false
  /\ is_linebreak (Byte.to_N b) = false
  /\ byte_isspace b = false.
Proof.
  destruct b; intros Hh; try discriminate Hh; vm_compute; repeat split.
Qed.

Lemma object_name_inv h :
  object_name h = true -> 4 <= length h /\ Forall (fun b => is_hex b = true) h.
Proof.
  unfold object_name. intros Hn. apply andb_true_iff in Hn as [Hl Hf].
  apply Nat.leb_le in Hl. split; [exact Hl|].
  apply Forall_forall. intros b Hb.
  rewrite forallb_forall in Hf. apply Hf. apply list_elem_of_In, Hb.
Qed.

Lemma hex_ascii h :
  Forall (fun b => is_hex b = true) h -> Forall (fun b => (Byte.to_N b < 128)%N) h.
Proof.
  intros Hh. eapply Forall_impl; [exact Hh|]. intros b Hb. apply is_hex_facts, Hb.
Qed.

(** ** Paths of hexadecimal names *)

Lemma split_on_none sep s :
  Forall (fun c => (c =? sep)%N = false) s -> split_on sep s = [s].
Proof.
  induction 1 as [|c s Hc _ IH]; [reflexivity|].
  cbn [split_on]. rewrite Hc, IH. reflexivity.
Qed.

Lemma split_on_app sep a b :
  Forall (fun c => (c =? sep)%N = false) a ->
  split_on sep (a ++ sep :: b) = a :: split_on sep b.
Proof.
  induction 1 as [|c a Hc _ IH].
  - cbn [app split_on]. rewrite N.eqb_refl. reflexivity.
  - cbn [app split_on]. rewrite Hc, IH. reflexivity.
Qed.

Lemma rfind_none c s :
  Forall (fun x => (x =? c)%N = false) s -> rfind c s = None.
Proof.
  induction 1 as [|x s Hx _ IH]; [reflexivity|].
  cbn [rfind]. rewrite IH, Hx. reflexivity.
Qed.

Lemma rfind_app c a b :
  Forall (fun x => (x =? c)%N = false) b ->
  rfind c (a ++ c :: b) = Some (length a).
Proof.
  intros Hb. induction a as [|x a IH].
  - cbn [app rfind length]. rewrite (rfind_none _ _ Hb), N.eqb_refl. reflexivity.
  - cbn [app rfind length]. rewrite IH. reflexivity.
Qed.

Lemma truediv_relative p s :
  (forall t, s <> SLASH :: t) ->
  truediv p s = {| root := root p; parts := parts p ++ path_parts s |}.
Proof.
  intros Hs. unfold truediv. destruct s as [|c t]; [reflexivity|].
  destruct (N.eq_dec c SLASH) as [->|Hc]; [exfalso; eapply Hs; reflexivity|].
  destruct c as [|q]; [reflexivity|].
  do 6 (destruct q as [q|q|]; try reflexivity).
  exfalso. apply Hc. reflexivity.
Qed.

Section HexNames.
Variable hb : bytes.
Hypothesis hb_hex : Forall (fun b => is_hex b = true) hb.

Let h : str := text_of hb.

Lemma hex_no c :
  (forall b, is_hex b = true -> (Byte.to_N b =? c)%N = false) ->
  Forall (fun x => (x =? c)%N = false) h.
Proof.
  intros Hc. unfold h, text_of. apply Forall_map.
  eapply Forall_impl; [exact hb_hex|]. intros b Hb. apply Hc, Hb.
Qed.

Lemma hex_no_slash : Forall (fun x => (x =? SLASH)%N = false) h.
Proof. apply hex_no. intros b Hb. apply is_hex_facts, Hb. Qed.

Lemma hex_no_dot : Forall (fun x => (x =? DOT)%N = false) h.
Proof. apply hex_no. intros b Hb. apply is_hex_facts, Hb. Qed.

Lemma hex_take n : Forall (fun b => is_hex b = true) (take n hb).
Proof. apply Forall_take, hb_hex. Qed.

Lemma hex_drop n : Forall (fun b => is_hex b = true) (drop n hb).
Proof. apply Forall_drop, hb_hex. Qed.

Lemma hex_path_parts : hb <> [] -> path_parts h = [h].
Proof.
  intros Hne. unfold path_parts. rewrite (split_on_none _ _ hex_no_slash).
  cbn [List.filter].
  destruct hb as [|b0 bs] eqn:Hhb; [congruence|].
  rewrite bool_decide_eq_false_2 by (unfold h, text_of; discriminate).
  rewrite bool_decide_eq_false_2; [reflexivity|].
  unfold h, text_of. cbn [map]. intros [= Hb0 _].
  apply Forall_cons in hb_hex as [Hx _].
  apply is_hex_facts in Hx as (_ & _ & Hd & _).
  rewrite Hb0 in Hd. discriminate Hd.
Qed.

Lemma hex_not_absolute : forall t, h <> SLASH :: t.
Proof.
  intros t Ht. pose proof hex_no_slash as Hs. rewrite Ht in Hs.
  apply Forall_cons in Hs as [Hs _]. rewrite N.eqb_refl in Hs. discriminate.
Qed.
End HexNames.

(** ** The path of a chunk manifest *)

Lemma text_of_take x n : take n (text_of x) = text_of (take n x).
Proof. unfold text_of. rewrite <- fmap_take. reflexivity. Qed.

Lemma text_of_drop x n : drop n (text_of x) = text_of (drop n x).
Proof. unfold text_of. rewrite <- fmap_drop. reflexivity. Qed.

Section ChunkPath.
Variable hb : bytes.
Hypothesis hb_name : object_name hb = true.

Local Abbreviation h := (text_of hb).

Lemma name_hex : Forall (fun b => is_hex b = true) hb.
Proof. apply object_name_inv, hb_name. Qed.

Lemma name_length : 4 <= length hb.
Proof. apply object_name_inv, hb_name. Qed.


Lemma hash_dir_parts :
  hash_dir cdcdir h
  = {| root := []; parts := [lit ".cdc"; take 2 h; take 2 (drop 2 h); h] |}.
Proof.
  pose proof name_hex as Hhex. pose proof name_length as Hlen.
  unfold hash_dir, slice. rewrite drop_0.
  rewrite !text_of_drop, !text_of_take.
  assert (H1 : take 2 hb <> []).
  { intros E. apply (f_equal length) in E. rewrite length_take in E.
    cbn [length] in E. lia. }
  assert (H2 : take 2 (drop 2 hb) <> []).
  { intros E. apply (f_equal length) in E.
    rewrite length_take, length_drop in E. cbn [length] in E. lia. }
  assert (H3 : hb <> []) by (intros ->; cbn in Hlen; lia).
  rewrite (truediv_relative _ _ (hex_not_absolute _ (hex_take hb Hhex 2))).
  rewrite (hex_path_parts _ (hex_take hb Hhex 2) H1).
  rewrite (truediv_relative _ _
             (hex_not_absolute _ (hex_take _ (hex_drop hb Hhex 2) 2))).
  rewrite (hex_path_parts _ (hex_take _ (hex_drop hb Hhex 2) 2) H2).
  rewrite (truediv_relative _ _ (hex_not_absolute _ Hhex)).
  rewrite (hex_path_parts _ Hhex H3).
  reflexivity.
Qed.

Lemma hex_suffix_index : suffix_index h = None.
Proof.
  unfold suffix_index. rewrite (rfind_none _ _ (hex_no_dot hb name_hex)).
  reflexivity.
Qed.

Lemma chunk_file :
  with_suffix (hash_dir cdcdir h) (lit ".cdc")
  = Some {| root := [];
            parts := [lit ".cdc"; take 2 h; take 2 (drop 2 h); h ++ lit ".cdc"] |}.
Proof.
  rewrite hash_dir_parts. unfold with_suffix, stem, name. cbn [parts List.last root].
  assert (Hne : h <> []).
  { unfold text_of. pose proof name_length. destruct hb; [cbn in *; lia|discriminate]. }
  destruct h as [|c t] eqn:Hh; [congruence|].
  rewrite <- Hh. rewrite hex_suffix_index. reflexivity.
Qed.

Lemma chunk_file_key :
  file_key {| root := [];
              parts := [lit ".cdc"; take 2 h; take 2 (drop 2 h); h ++ lit ".cdc"] |}
  = chunk_path h.
Proof.
  unfold file_key, path_str, chunk_path. cbn [root parts join app].
  change (lit ".cdc/") with (lit ".cdc" ++ [SLASH]).
  rewrite <- !app_assoc. reflexivity.
Qed.

Lemma chunk_file_name :
  name {| root := [];
          parts := [lit ".cdc"; take 2 h; take 2 (drop 2 h); h ++ lit ".cdc"] |}
  = h ++ lit ".cdc".
Proof. reflexivity. Qed.

(** The stem of the canonical path is the hash again. *)
Lemma chunk_path_stem : stem (Path_of (chunk_path h)) = h.
Proof.
  pose proof name_hex as Hhex. pose proof name_length as Hlen.
  assert (Hcdc : Forall (fun c => (c =? SLASH)%N = false) (lit ".cdc"))
    by (repeat constructor).
  assert (Hparts : path_parts (chunk_path h)
                   = [lit ".cdc"; take 2 h; take 2 (drop 2 h); h ++ lit ".cdc"]).
  { unfold path_parts, chunk_path.
    change (lit ".cdc/") with (lit ".cdc" ++ [SLASH]).
    rewrite <- !app_assoc. cbn [app].
    change (lit ".cdc" ++ SLASH :: ?x) with (lit ".cdc" ++ SLASH :: x).
    rewrite (split_on_app SLASH (lit ".cdc")) by exact Hcdc.
    rewrite !text_of_drop, !text_of_take.
    rewrite (split_on_app SLASH) by (apply hex_no_slash, hex_take, Hhex).
    rewrite (split_on_app SLASH)
      by (apply hex_no_slash, hex_take, hex_drop, Hhex).
    rewrite split_on_none.
    2:{ apply Forall_app. split; [apply hex_no_slash, Hhex | exact Hcdc]. }
    cbn [List.filter].
    assert (Hnz : forall x : bytes, x <> [] -> Forall (fun b => is_hex b = true) x ->
              bool_decide (text_of x = []) = false
              /\ bool_decide (text_of x = [DOT]) = false).
    { intros x Hx Hxh. destruct x as [|b0 bs]; [congruence|].
      split; apply bool_decide_eq_false_2; cbn; [discriminate|].
      intros [= Hb0 _]. apply Forall_cons in Hxh as [Hb _].
      apply is_hex_facts in Hb as (_ & _ & Hd & _). rewrite Hb0 in Hd.
      discriminate Hd. }
    assert (H1 : take 2 hb <> []).
    { intros E. apply (f_equal length) in E. rewrite length_take in E.
      cbn [length] in E. lia. }
    assert (H2 : take 2 (drop 2 hb) <> []).
    { intros E. apply (f_equal length) in E.
      rewrite length_take, length_drop in E. cbn [length] in E. lia. }
    destruct (Hnz _ H1 (hex_take hb Hhex 2)) as [-> ->].
    destruct (Hnz _ H2 (hex_take _ (hex_drop hb Hhex 2) 2)) as [-> ->].
    repeat match goal with
           | |- context [bool_decide (?x = ?y)] =>
               rewrite (bool_decide_eq_false_2 (x = y))
                 by (intros E; apply (f_equal length) in E;
                     rewrite ?length_app in E; cbn in E; lia)
           end.
    reflexivity. }
  unfold stem, name, Path_of. cbn [parts]. rewrite Hparts. cbn [List.last].
  unfold suffix_index.
  change (lit ".cdc") with (DOT :: [99; 100; 99]%N).
  rewrite rfind_app by (repeat constructor).
  rewrite length_app. cbn [length].
  assert (Hl : length (text_of hb) = length hb) by (unfold text_of; apply length_map).
  destruct (Nat.ltb_spec 0 (length (text_of hb))); [|lia].
  destruct (Nat.ltb_spec (length (text_of hb)) (length (text_of hb) + 4 - 1)); [|lia].
  cbn [andb]. rewrite take_app_length. reflexivity.
Qed.
End ChunkPath.

(** ** Storing one chunk *)

Lemma bind_ret {A B} (a : A) (k : A -> M B) s : bind (ret a) k s = k a s.
Proof. reflexivity. Qed.

Lemma bind_modify {B} f (k : unit -> M B) s : bind (modify f) k s = k tt (f s).
Proof. reflexivity. Qed.

Lemma bind_get {A B} (f : state -> A) (k : A -> M B) s : bind (get f) k s = k (f s) s.
Proof. reflexivity. Qed.

Lemma bind_raise_eq {A B} e (k : A -> M B) s : bind (raise e) k s = (Raise e, s).
Proof. reflexivity. Qed.

Lemma bind_assoc {A B C} (m : M A) (k1 : A -> M B) (k2 : B -> M C) s :
  bind (bind m k1) k2 s = bind m (fun x => bind (k1 x) k2) s.
Proof. unfold bind. destruct (m s) as [[a|e] s']; reflexivity. Qed.

Ltac run :=
  rewrite ?bind_assoc, ?bind_ret, ?bind_modify, ?bind_get, ?bind_raise_eq.

Section StoreChunk.
Context `{Git}.

Lemma name_of_inv data hb :
  name_of data = Some hb ->
  exists out, hash_object_stdout data = Some out
              /\ bytes_strip out = hb /\ object_name hb = true.
Proof.
  unfold name_of. destruct (hash_object_stdout data) as [out|]; [|discriminate].
  destruct (object_name (bytes_strip out)) eqn:Hn; [|discriminate].
  intros [= <-]. exists out. auto.
Qed.

Lemma manifest_line_encode hb :
  object_name hb = true ->
  utf8_encode ((text_of hb ++ lit ".cdc") ++ [LF]) = Some (manifest_line hb).
Proof.
  intros Hn. apply object_name_inv in Hn as [_ Hhex].
  change ((text_of hb ++ lit ".cdc") ++ [LF])
    with ((text_of hb ++ text_of (blit ".cdc")) ++ text_of [x0a]).
  unfold text_of. rewrite <- !map_app. rewrite <- app_assoc.
  apply utf8_encode_ascii. apply Forall_app. split.
  - apply hex_ascii, Hhex.
  - repeat constructor.
Qed.

Lemma git_hash_blob_eq data hb s :
  name_of data = Some hb ->
  git_hash_blob data s
  = (Ok (text_of hb), set_objects (<[hb := data]> (objects s)) s).
Proof.
  intros Hname. apply name_of_inv in Hname as (out & Hout & Hs & Hn).
  pose proof (object_name_inv _ Hn) as [Hlen Hhex].
  unfold git_hash_blob. rewrite Hout. cbn [or_raise]. run.
  rewrite Hs, (utf8_decode_ascii hb (hex_ascii _ Hhex)). reflexivity.
Qed.

Lemma store_chunk_eq data hb new s :
  name_of data = Some hb ->
  store_chunk data new s
  = (Ok (new || negb (exists_in (files s) (chunk_path (text_of hb)))),
     chunk_stored data hb s).
Proof.
  intros Hname. pose proof (git_hash_blob_eq data hb s Hname) as Hg.
  apply name_of_inv in Hname as (out & Hout & Hs & Hn).
  pose proof (object_name_inv _ Hn) as [Hlen Hhex].
  unfold store_chunk.
  rewrite (bind_ok _ _ _ _ _ Hg).
  rewrite (chunk_file hb Hn). cbn [or_raise]. run.
  unfold path_exists. run.
  unfold file_open_w. run.
  unfold file_write_str. rewrite (utf8_encode_ascii hb (hex_ascii _ Hhex)).
  cbn [or_raise]. run. unfold file_write. run.
  rewrite chunk_file_name.
  unfold write_pkt_line_str. rewrite (manifest_line_encode hb Hn).
  cbn [or_raise]. run. unfold write_pkt_line, write. run.
  unfold chunk_stored. rewrite (chunk_file_key hb).
  unfold bind, get, modify, ret.
  cbn [files set_objects set_files set_stdout stdout objects stdin
       stdin_broken config _ondisk].
  rewrite alter_insert_eq. reflexivity.
Qed.

End StoreChunk.

(** ** clean on a framed payload *)

Lemma foldl_app_concat {A} (acc : list A) (ls : list (list A)) :
  foldl (fun a p => a ++ p) acc ls = acc ++ concat ls.
Proof.
  revert acc. induction ls as [|l ls IH]; intros acc; cbn [foldl concat].
  - rewrite app_nil_r. reflexivity.
  - rewrite IH, app_assoc. reflexivity.
Qed.

Lemma foldl_same {A B} (b : B) (l : list A) : foldl (fun b _ => b) b l = b.
Proof. induction l; [reflexivity | assumption]. Qed.

Lemma covers_concat io spans offset :
  covers offset spans (length io) = true ->
  concat (chunks_of io spans) = drop offset io.
Proof.
  revert offset. induction spans as [|[o l] spans IH]; intros offset Hc.
  - cbn in Hc. apply Nat.eqb_eq in Hc. subst offset. rewrite drop_all. reflexivity.
  - cbn [covers fst snd] in Hc. apply andb_true_iff in Hc as [Ho Hc].
    apply Nat.eqb_eq in Ho. subst o.
    cbn [chunks_of map concat fst snd]. fold (chunks_of io spans).
    rewrite (IH _ Hc). unfold slice.
    rewrite <- drop_drop. apply take_drop.
Qed.

Section Clean.
Context `{Git} `{FastCDC}.

Lemma named_inv chunks d :
  named chunks = true -> d ∈ chunks ->
  exists hb, name_of d = Some hb.
Proof.
  unfold named. intros Hn Hd. rewrite forallb_forall in Hn.
  specialize (Hn d (proj1 (list_elem_of_In _ _) Hd)).
  apply bool_decide_eq_true in Hn as [hb Hhb]. eauto.
Qed.

Lemma named_cons d chunks :
  named (d :: chunks) = true ->
  (exists hb, name_of d = Some hb) /\ named chunks = true.
Proof.
  unfold named. cbn [forallb]. intros Hn.
  apply andb_true_iff in Hn as [Hd Hn].
  apply bool_decide_eq_true in Hd as [hb Hhb]. eauto.
Qed.

Lemma store_chunks_eq io spans : forall new s,
  named (chunks_of io spans) = true ->
  exists new',
    for_each (fun cdc new => store_chunk (slice io (fst cdc) (snd cdc)) new)
             spans new s
    = (Ok new', chunks_stored (chunks_of io spans) s).
Proof.
  induction spans as [|cdc spans IH]; intros new s Hn.
  - exists new. reflexivity.
  - cbn [chunks_of map] in Hn. fold (chunks_of io spans) in Hn.
    apply named_cons in Hn as [[hb Hhb] Hn].
    cbn [for_each].
    rewrite (bind_ok _ _ _ _ _ (store_chunk_eq _ hb new s Hhb)).
    destruct (IH (new || negb (exists_in (files s) (chunk_path (text_of hb))))
                 (chunk_stored (slice io (fst cdc) (snd cdc)) hb s) Hn)
      as [new' Hnew'].
    exists new'. rewrite Hnew'.
    cbn [chunks_of map]. unfold chunks_stored. cbn [foldl].
    rewrite Hhb. reflexivity.
Qed.

Lemma chunks_stored_stdin chunks s : stdin (chunks_stored chunks s) = stdin s.
Proof.
  revert s. induction chunks as [|d chunks IH]; intros s; [reflexivity|].
  unfold chunks_stored in *. cbn [foldl]. rewrite IH. reflexivity.
Qed.

Lemma chunks_stored_stdout chunks s :
  stdout (chunks_stored chunks s)
  = stdout s ++ pkt_lines (map manifest_line (names_of chunks)).
Proof.
  revert s. induction chunks as [|d chunks IH]; intros s.
  - cbn. rewrite app_nil_r. reflexivity.
  - unfold chunks_stored in *. cbn [foldl]. rewrite IH.
    cbn [chunk_stored stdout set_stdout names_of map pkt_lines concat].
    unfold pkt_lines. rewrite <- app_assoc. reflexivity.
Qed.

Lemma distinct_inv chunks d d' :
  distinct chunks = true -> d ∈ chunks -> d' ∈ chunks ->
  name_of d = name_of d' -> d = d'.
Proof.
  unfold distinct. intros Hd Hin Hin' Heq.
  rewrite forallb_forall in Hd.
  specialize (Hd d (proj1 (list_elem_of_In _ _) Hin)).
  rewrite forallb_forall in Hd.
  specialize (Hd d' (proj1 (list_elem_of_In _ _) Hin')).
  rewrite (bool_decide_eq_true_2 _ Heq) in Hd. cbn [implb] in Hd.
  apply bool_decide_eq_true in Hd. exact Hd.
Qed.

Lemma chunks_stored_lookup chunks : forall s d hb,
  named chunks = true ->
  (forall d', d' ∈ chunks -> name_of d' = Some hb -> d' = d) ->
  name_of d = Some hb ->
  d ∈ chunks \/ objects s !! hb = Some d ->
  objects (chunks_stored chunks s) !! hb = Some d.
Proof.
  induction chunks as [|d' chunks IH]; intros s d hb Hn Hcol Hd Hor.
  - destruct Hor as [Hin|Hs]; [inversion Hin | exact Hs].
  - apply named_cons in Hn as [[hb' Hhb'] Hn].
    unfold chunks_stored. cbn [foldl]. fold (chunks_stored chunks).
    apply IH; [exact Hn | | exact Hd |].
    { intros d'' Hin. apply Hcol. right. exact Hin. }
    rewrite Hhb'. cbn [default chunk_stored objects set_stdout set_files set_objects].
    destruct (decide (hb' = hb)) as [->|Hne].
    + right. rewrite (Hcol d' ltac:(left) Hhb'). apply lookup_insert_eq.
    + rewrite lookup_insert_ne by exact Hne.
      destruct Hor as [Hin|Hs]; [|right; exact Hs].
      apply elem_of_cons in Hin as [->|Hin]; [congruence | left; exact Hin].
Qed.

Lemma chunks_stored_objects chunks s d hb :
  named chunks = true -> distinct chunks = true ->
  d ∈ chunks -> name_of d = Some hb ->
  objects (chunks_stored chunks s) !! hb = Some d.
Proof.
  intros Hn Hdis Hin Hd. apply chunks_stored_lookup; auto.
  intros d' Hin' Hd'. apply (distinct_inv chunks); auto. congruence.
Qed.
End Clean.

Section CleanRun.
Context `{Git} `{FastCDC}.

Lemma read_payload_eq pkts rest s :
  Forall payload_ok pkts ->
  stdin s = pkt_lines pkts ++ flush_line ++ rest ->
  while_pkt read_pkt_line (fun pkg io => ret (io ++ pkg)) [] s
  = (Ok (concat pkts), set_stdin rest s).
Proof.
  intros Hok Hin.
  rewrite (while_read_pkt_lines _ (fun p a => a ++ p) (fun _ s => s) pkts rest [] s);
    try assumption; try reflexivity.
  rewrite foldl_app_concat, foldl_same. reflexivity.
Qed.

Lemma clean_eq pathname pkts rest s spans :
  Forall payload_ok pkts ->
  stdin s = pkt_lines pkts ++ flush_line ++ rest ->
  fastcdc (concat pkts)
          (Z.max avg_min (get_avg_size (Z.of_nat (length (concat pkts)))))
  = (spans, None) ->
  named (chunks_of (concat pkts) spans) = true ->
  exists new,
    clean pathname s
    = (Ok new, clean_state (chunks_of (concat pkts) spans) rest s).
Proof.
  intros Hok Hin Hcdc Hn. unfold clean.
  rewrite (bind_ok _ _ _ _ _ (read_payload_eq pkts rest s Hok Hin)).
  rewrite (bind_ok _ _ _ _ _ (write_status_eq _)).
  rewrite (bind_ok _ _ _ _ _ (flush_pkt_eq _)).
  rewrite Hcdc.
  destruct (store_chunks_eq (concat pkts) spans false
              (set_stdout
                 (stdout (set_stdout (stdout (set_stdin rest s) ++ pkt_line status_line)
                                     (set_stdin rest s)) ++ flush_line)
                 (set_stdout (stdout (set_stdin rest s) ++ pkt_line status_line)
                             (set_stdin rest s))) Hn) as [new Hnew].
  exists new. rewrite (bind_ok _ _ _ _ _ Hnew).
  cbn [generator_end]. rewrite bind_ret.
  rewrite (bind_ok _ _ _ _ _ (flush_pkt_eq _)).
  rewrite (bind_ok _ _ _ _ _ (flush_pkt_eq _)).
  unfold ret, clean_state. cbn [stdout set_stdout set_stdin].
  rewrite <- !app_assoc. reflexivity.
Qed.
End CleanRun.

(** ** Stripping and splitting text *)

Lemma lstrip_by_head {A} (sp : A -> bool) a l :
  sp a = false -> lstrip_by sp (a :: l) = a :: l.
Proof. intros Ha. cbn [lstrip_by]. rewrite Ha. reflexivity. Qed.

Lemma rstrip_by_snoc_space {A} (sp : A -> bool) l t :
  sp t = true -> rstrip_by sp (l ++ [t]) = rstrip_by sp l.
Proof.
  intros Ht. unfold rstrip_by. rewrite rev_app_distr. cbn [rev app lstrip_by].
  rewrite Ht. reflexivity.
Qed.

Lemma rstrip_by_snoc {A} (sp : A -> bool) l z :
  sp z = false -> rstrip_by sp (l ++ [z]) = l ++ [z].
Proof.
  intros Hz. unfold rstrip_by. rewrite rev_app_distr. cbn [rev app lstrip_by].
  rewrite Hz. cbn [rev]. rewrite rev_involutive. reflexivity.
Qed.

(** Text that starts and ends with no white space is its own strip, with
    or without one white space after it. *)
Lemma strip_by_id {A} (sp : A -> bool) X a X' Y z :
  X = a :: X' -> X = Y ++ [z] -> sp a = false -> sp z = false ->
  strip_by sp X = X.
Proof.
  intros Ha Hz Hsa Hsz. unfold strip_by.
  rewrite Ha, (lstrip_by_head sp a X' Hsa), <- Ha, Hz.
  apply rstrip_by_snoc, Hsz.
Qed.

Lemma strip_by_trailing {A} (sp : A -> bool) X a X' Y z t :
  X = a :: X' -> X = Y ++ [z] -> sp a = false -> sp z = false -> sp t = true ->
  strip_by sp (X ++ [t]) = X.
Proof.
  intros Ha Hz Hsa Hsz Hst. unfold strip_by.
  rewrite Ha. cbn [app]. rewrite (lstrip_by_head sp a _ Hsa).
  change (a :: X' ++ [t]) with ((a :: X') ++ [t]). rewrite <- Ha.
  rewrite rstrip_by_snoc_space by exact Hst. rewrite Hz.
  apply rstrip_by_snoc, Hsz.
Qed.

Lemma splitlines_plain l : l <> [] -> no_linebreak l -> splitlines l = [l].
Proof.
  intros Hne Hl. induction Hl as [|c l Hc Hl IH]; [congruence|].
  cbn [splitlines]. rewrite Hc.
  destruct l as [|c' l']; [reflexivity|].
  rewrite IH by discriminate. reflexivity.
Qed.

Lemma splitlines_line l r :
  no_linebreak l -> splitlines (l ++ LF :: r) = l :: splitlines r.
Proof.
  intros Hl. induction Hl as [|c l Hc Hl IH].
  - cbn [app splitlines]. change (is_linebreak LF) with true. cbv iota.
    destruct r as [|c' r']; reflexivity.
  - cbn [app splitlines]. rewrite Hc, IH. reflexivity.
Qed.

Lemma splitlines_lines ls l :
  Forall no_linebreak ls -> l <> [] -> no_linebreak l ->
  splitlines (concat (map (fun x => x ++ [LF]) ls) ++ l) = ls ++ [l].
Proof.
  intros Hls Hne Hl. induction Hls as [|x ls Hx Hls IH].
  - cbn. apply splitlines_plain; assumption.
  - cbn [map concat]. rewrite <- !app_assoc. cbn [app].
    rewrite splitlines_line by exact Hx. rewrite IH. reflexivity.
Qed.

(** ** The manifest, as smudge reads it *)

Lemma text_of_app a b : text_of (a ++ b) = text_of a ++ text_of b.
Proof. apply map_app. Qed.

Lemma manifest_line_text hb : text_of (manifest_line hb) = line_text hb ++ [LF].
Proof.
  unfold manifest_line, line_text. rewrite !text_of_app, <- app_assoc. reflexivity.
Qed.

Lemma manifest_pkt_text g :
  text_of (manifest_pkt g) = concat (map (fun x => x ++ [LF]) (map line_text g)).
Proof.
  unfold manifest_pkt. induction g as [|hb g IH]; [reflexivity|].
  cbn [map concat]. rewrite text_of_app, manifest_line_text, IH. reflexivity.
Qed.

Lemma manifest_line_ascii hb :
  object_name hb = true ->
  Forall (fun b => (Byte.to_N b < 128)%N) (manifest_line hb).
Proof.
  intros Hn. apply object_name_inv in Hn as [_ Hhex]. unfold manifest_line.
  apply Forall_app. split; [apply hex_ascii, Hhex | repeat constructor].
Qed.

Lemma manifest_pkt_ascii g :
  Forall (fun hb => object_name hb = true) g ->
  Forall (fun b => (Byte.to_N b < 128)%N) (manifest_pkt g).
Proof.
  unfold manifest_pkt. induction 1 as [|hb g Hhb _ IH]; [constructor|].
  cbn [map concat]. apply Forall_app. split; [apply manifest_line_ascii, Hhb | exact IH].
Qed.

Lemma line_text_no_linebreak hb :
  object_name hb = true -> no_linebreak (line_text hb).
Proof.
  intros Hn. apply object_name_inv in Hn as [_ Hhex]. unfold line_text, no_linebreak.
  apply Forall_app. split; [|repeat constructor].
  unfold text_of. apply Forall_map. eapply Forall_impl; [exact Hhex|].
  intros b Hb. apply is_hex_facts, Hb.
Qed.

Lemma line_text_head hb :
  object_name hb = true ->
  exists a X', line_text hb = a :: X' /\ isspace a = false.
Proof.
  intros Hn. apply object_name_inv in Hn as [Hlen Hhex].
  destruct hb as [|b0 bs]; [cbn in Hlen; lia|].
  apply Forall_cons in Hhex as [Hb0 _].
  exists (Byte.to_N b0), (text_of bs ++ lit ".cdc"). split; [reflexivity|].
  apply is_hex_facts, Hb0.
Qed.

Lemma line_text_last hb :
  exists Y, line_text hb = Y ++ [99%N].
Proof.
  exists (text_of hb ++ [46; 99; 100]%N). unfold line_text.
  rewrite <- app_assoc. reflexivity.
Qed.

Lemma line_text_strip hb :
  object_name hb = true -> str_strip (line_text hb) = line_text hb.
Proof.
  intros Hn. destruct (line_text_head hb Hn) as (a & X' & Ha & Hsa).
  destruct (line_text_last hb) as [Y HY].
  apply (strip_by_id isspace _ a X' Y 99%N Ha HY Hsa). reflexivity.
Qed.

(** A packet of whole manifest lines decodes to these lines. *)
Lemma manifest_pkt_lines g :
  g <> [] -> Forall (fun hb => object_name hb = true) g ->
  utf8_decode (manifest_pkt g) <> None
  /\ line_of (manifest_pkt g) <> []
  /\ splitlines (line_of (manifest_pkt g)) = map line_text g.
Proof.
  intros Hne Hg.
  assert (Hdec : utf8_decode (manifest_pkt g) = Some (text_of (manifest_pkt g)))
    by (apply utf8_decode_ascii, manifest_pkt_ascii, Hg).
  unfold line_of. rewrite Hdec. rewrite manifest_pkt_text.
  destruct (exists_last Hne) as (g' & hbn & ->).
  apply Forall_app in Hg as [Hg' Hn]. apply Forall_cons in Hn as [Hn _].
  rewrite !map_app. cbn [map]. rewrite concat_app. cbn [concat].
  rewrite app_nil_r, app_assoc.
  set (X := concat (map (fun x => x ++ [LF]) (map line_text g')) ++ line_text hbn).
  assert (Hhead : exists a X', X = a :: X' /\ isspace a = false).
  { unfold X. destruct g' as [|hb1 g1].
    - cbn [map concat app]. apply line_text_head, Hn.
    - apply Forall_cons in Hg' as [Hhb1 _].
      destruct (line_text_head hb1 Hhb1) as (a & X' & Ha & Hsa).
      cbn [map concat]. rewrite Ha. cbn [app]. eauto. }
  destruct Hhead as (a & X' & Ha & Hsa).
  assert (Hlast : exists Y, X = Y ++ [99%N]).
  { unfold X. destruct (line_text_last hbn) as [Y ->].
    eexists. rewrite app_assoc. reflexivity. }
  destruct Hlast as [Y HY].
  unfold str_strip.
  rewrite (strip_by_trailing isspace X a X' Y 99%N LF Ha HY Hsa eq_refl eq_refl).
  split; [discriminate|]. split; [rewrite Ha; discriminate|].
  unfold X. apply splitlines_lines.
  - apply Forall_map. eapply Forall_impl; [exact Hg'|].
    intros hb Hhb. apply line_text_no_linebreak, Hhb.
  - destruct (line_text_head hbn Hn) as (a' & X'' & -> & _). discriminate.
  - apply line_text_no_linebreak, Hn.
Qed.

(** The stem of a manifest line is the hash. *)
Lemma line_text_stem hb :
  object_name hb = true -> stem (Path_of (line_text hb)) = text_of hb.
Proof.
  intros Hn. pose proof (object_name_inv _ Hn) as [Hlen Hhex].
  assert (Hparts : path_parts (line_text hb) = [line_text hb]).
  { unfold path_parts. rewrite split_on_none.
    2:{ unfold line_text. apply Forall_app. split;
          [apply hex_no_slash, Hhex | repeat constructor]. }
    cbn [List.filter].
    rewrite !bool_decide_eq_false_2; [reflexivity| |];
      intros E; apply (f_equal length) in E; unfold line_text in E;
      rewrite length_app in E; unfold text_of in E; rewrite length_map in E;
      cbn in E; lia. }
  unfold stem, name, Path_of. cbn [parts]. rewrite Hparts. cbn [List.last].
  unfold suffix_index, line_text.
  change (lit ".cdc") with (DOT :: [99; 100; 99]%N).
  rewrite rfind_app by (repeat constructor).
  rewrite length_app. cbn [length].
  assert (Hl : length (text_of hb) = length hb) by (unfold text_of; apply length_map).
  destruct (Nat.ltb_spec 0 (length (text_of hb))); [|lia].
  destruct (Nat.ltb_spec (length (text_of hb)) (length (text_of hb) + 4 - 1)); [|lia].
  cbn [andb]. rewrite take_app_length. reflexivity.
Qed.

(** ** smudge on a manifest *)

Lemma set_stdout_same s : set_stdout (stdout s ++ []) s = s.
Proof. destruct s. cbn. rewrite app_nil_r. reflexivity. Qed.

Lemma write_pkt_lines_eq (chunks : list bytes) : forall s,
  for_each (fun chunk _ => write_pkt_line chunk) chunks tt s
  = (Ok tt, set_stdout (stdout s ++ pkt_lines chunks) s).
Proof.
  induction chunks as [|c chunks IH]; intros s.
  - cbn [for_each pkt_lines map concat]. rewrite set_stdout_same. reflexivity.
  - cbn [for_each]. rewrite (bind_ok _ _ _ _ _ (write_pkt_line_eq c s)).
    rewrite IH. cbn [stdout set_stdout pkt_lines map concat].
    unfold pkt_lines. rewrite <- app_assoc. reflexivity.
Qed.

Section Smudge.
Context `{Git} `{FastCDC}.

Lemma git_get_blob_eq hb d s :
  object_name hb = true -> objects s !! hb = Some d ->
  git_get_blob (text_of hb) s = (Ok d, s).
Proof.
  intros Hn Hd. apply object_name_inv in Hn as [_ Hhex].
  unfold git_get_blob. rewrite (utf8_encode_ascii hb (hex_ascii _ Hhex)).
  cbn [or_raise]. run. rewrite Hd. reflexivity.
Qed.

Lemma names_of_named chunks :
  named chunks = true ->
  Forall (fun hb => object_name hb = true) (names_of chunks).
Proof.
  induction chunks as [|d chunks IH]; intros Hn; [constructor|].
  apply named_cons in Hn as [[hb Hhb] Hn].
  cbn [names_of map]. rewrite Hhb. constructor; [|apply IH, Hn].
  apply name_of_inv in Hhb as (out & _ & _ & Hok). exact Hok.
Qed.

(** The loop over the manifest lines, one line per chunk. *)
Lemma smudge_lines_eq chunks : forall s,
  named chunks = true ->
  (forall d hb, d ∈ chunks -> name_of d = Some hb -> objects s !! hb = Some d) ->
  for_each (fun line _ =>
              let line := str_strip line in
              let hash := stem (Path_of line) in
              match line with
              | [] => ret tt
              | _ :: _ =>
                  blob <- git_get_blob hash ;;
                  for_each (fun chunk _ => write_pkt_line chunk)
                           (chunk_string blob) tt
              end) (map line_text (names_of chunks)) tt s
  = (Ok tt, set_stdout (stdout s ++ pkt_lines (concat (map chunk_string chunks))) s).
Proof.
  induction chunks as [|d chunks IH]; intros s Hn Hobj.
  - cbn [names_of map for_each concat pkt_lines]. rewrite set_stdout_same.
    reflexivity.
  - apply named_cons in Hn as [[hb Hhb] Hn].
    pose proof Hhb as Hname.
    apply name_of_inv in Hname as (out & _ & _ & Hok).
    cbn [names_of map for_each]. rewrite Hhb. cbn [default]. unfold id. cbv beta zeta.
    rewrite (line_text_strip hb Hok), (line_text_stem hb Hok).
    destruct (line_text_head hb Hok) as (a & X' & Ha & _).
    rewrite Ha at 1.
    rewrite (bind_assoc (git_get_blob (text_of hb))).
    rewrite (bind_ok _ _ _ _ _
               (git_get_blob_eq hb d s Hok (Hobj d hb ltac:(left) Hhb))).
    rewrite (bind_ok _ _ _ _ _ (write_pkt_lines_eq (chunk_string d) s)).
    fold (names_of chunks).
    rewrite IH; [| exact Hn |].
    + cbn [stdout set_stdout map concat]. unfold pkt_lines.
      rewrite map_app, concat_app, <- app_assoc. reflexivity.
    + intros d' hb' Hin Hd'. cbn [objects set_stdout]. apply Hobj; [right|]; assumption.
Qed.

Lemma manifest_pkt_text_ok g :
  g <> [] -> Forall (fun hb => object_name hb = true) g ->
  (N.of_nat (length (manifest_pkt g)) <= 65531)%N ->
  text_ok (manifest_pkt g).
Proof.
  intros Hne Hg Hlen. destruct (manifest_pkt_lines g Hne Hg) as (Hd & Hl & _).
  split; [|split; assumption]. split; [|exact Hlen].
  destruct g as [|hb g]; [congruence|]. unfold manifest_pkt, manifest_line.
  cbn [map concat]. destruct hb; discriminate.
Qed.

Lemma manifest_lines_read groups : forall acc,
  Forall (fun g => g <> [] /\ Forall (fun hb => object_name hb = true) g) groups ->
  foldl (fun a p => a ++ splitlines (line_of p)) acc (map manifest_pkt groups)
  = acc ++ map line_text (concat groups).
Proof.
  induction groups as [|g groups IH]; intros acc Hg.
  - cbn. rewrite app_nil_r. reflexivity.
  - apply Forall_cons in Hg as [[Hne Hn] Hg].
    cbn [map foldl concat]. rewrite (IH _ Hg).
    destruct (manifest_pkt_lines g Hne Hn) as (_ & _ & ->).
    rewrite map_app, app_assoc. reflexivity.
Qed.

Lemma smudge_eq chunks groups pathname blob rest s :
  named chunks = true ->
  (forall d hb, d ∈ chunks -> name_of d = Some hb -> objects s !! hb = Some d) ->
  concat groups = names_of chunks ->
  Forall (fun g => g <> [] /\ (N.of_nat (length (manifest_pkt g)) <= 65531)%N) groups ->
  stdin s = pkt_lines (map manifest_pkt groups) ++ flush_line ++ rest ->
  smudge pathname blob s
  = (Ok tt,
     set_stdout (stdout s ++ pkt_line status_line ++ flush_line
                   ++ pkt_lines (concat (map chunk_string chunks))
                   ++ flush_line ++ flush_line)
                (set_stdin rest s)).
Proof.
  intros Hn Hobj Hcat Hgroups Hin.
  pose proof (names_of_named chunks Hn) as Hnames. rewrite <- Hcat in Hnames.
  assert (Hg : Forall (fun g => g <> [] /\ Forall (fun hb => object_name hb = true) g)
                      groups).
  { apply Forall_forall. intros g Hgin. split.
    - rewrite Forall_forall in Hgroups. apply (Hgroups g Hgin).
    - apply Forall_forall. intros hb Hhb. rewrite Forall_forall in Hnames.
      apply Hnames. apply list_elem_of_In, in_concat. exists g.
      split; apply list_elem_of_In; assumption. }
  assert (Hok : Forall text_ok (map manifest_pkt groups)).
  { apply Forall_map. apply Forall_forall. intros g Hgin.
    rewrite Forall_forall in Hg, Hgroups.
    apply manifest_pkt_text_ok; [apply (Hg g Hgin)..|apply (Hgroups g Hgin)]. }
  unfold smudge.
  rewrite (bind_ok _ _ _ _ _
             (while_read_str_lines _ (fun pkg lines => lines ++ splitlines pkg)
                (fun _ s => s) _ rest [] s
                (fun _ _ _ => eq_refl) (fun _ _ _ => eq_refl) (fun _ _ => eq_refl)
                Hok Hin)).
  rewrite foldl_same, (manifest_lines_read groups [] Hg). cbn [app].
  rewrite Hcat.
  rewrite (bind_ok _ _ _ _ _ (write_status_eq _)).
  rewrite (bind_ok _ _ _ _ _ (flush_pkt_eq _)).
  erewrite (bind_ok (for_each _ _ _));
    [| apply (smudge_lines_eq chunks); [exact Hn | exact Hobj]].
  rewrite (bind_ok _ _ _ _ _ (flush_pkt_eq _)).
  rewrite flush_pkt_eq. cbn [stdout set_stdout set_stdin].
  rewrite <- !app_assoc. reflexivity.
Qed.
End Smudge.

(** ** The round trip *)

Lemma concat_chunk_strings (chunks : list bytes) :
  concat (concat (map chunk_string chunks)) = concat chunks.
Proof.
  induction chunks as [|d chunks IH]; [reflexivity|].
  cbn [map concat]. rewrite concat_app, IH.
  rewrite chunk_string_concat. reflexivity.
Qed.

Lemma chunk_strings_bounds (chunks : list bytes) :
  Forall (fun p : bytes => p <> [] /\ (N.of_nat (length p) <= 65516)%N)
         (concat (map chunk_string chunks)).
Proof.
  induction chunks as [|d chunks IH]; [constructor|].
  cbn [map concat]. apply Forall_app. split; [|exact IH].
  apply chunk_string_bounds.
Qed.

(** C1.  Let the host send the bytes [B] to clean in well-formed packets,
    let the chunker's spans cover [B] exactly and in order, and let git
    name every chunk, different chunks differently, and return what was
    stored.  Then clean answers with the manifest lines [names], and when
    the host sends this manifest to smudge, split into packets at line
    ends, in a state that still has the blobs, smudge answers with packets
    of at most 65516 bytes whose concatenation is [B]. *)
Theorem round_trip `{Git} `{FastCDC}
    (B : bytes) (pkts : list bytes) (spans : list (nat * nat))
    (pathname : Path) (rest : bytes) (s : state) :
  Forall payload_ok pkts ->
  concat pkts = B ->
  stdin s = pkt_lines pkts ++ flush_line ++ rest ->
  fastcdc B (Z.max avg_min (get_avg_size (Z.of_nat (length B)))) = (spans, None) ->
  covers 0 spans (length B) = true ->
  named (chunks_of B spans) = true ->
  distinct (chunks_of B spans) = true ->
  exists new names s1,
    clean pathname s = (Ok new, s1)
    /\ stdin s1 = rest
    /\ stdout s1 = stdout s ++ pkt_line status_line ++ flush_line
                     ++ pkt_lines (map manifest_line names)
                     ++ flush_line ++ flush_line
    /\ forall groups pathname' blob rest' s2,
         concat groups = names ->
         Forall (fun g => g <> [] /\ (N.of_nat (length (manifest_pkt g)) <= 65531)%N)
                groups ->
         objects s1 ⊆ objects s2 ->
         stdin s2 = pkt_lines (map manifest_pkt groups) ++ flush_line ++ rest' ->
         exists answer,
           smudge pathname' blob s2
           = (Ok tt,
              set_stdout (stdout s2 ++ pkt_line status_line ++ flush_line
                            ++ pkt_lines answer ++ flush_line ++ flush_line)
                         (set_stdin rest' s2))
           /\ concat answer = B
           /\ Forall (fun p : bytes => p <> [] /\ (N.of_nat (length p) <= 65516)%N)
                     answer.
Proof.
  intros Hok <- Hin Hcdc Hcov Hn Hdis.
  set (B := concat pkts) in *. set (chunks := chunks_of B spans) in *.
  destruct (clean_eq pathname pkts rest s spans Hok Hin Hcdc Hn) as [new Hclean].
  exists new, (names_of chunks), (clean_state chunks rest s).
  split; [exact Hclean|]. split.
  { unfold clean_state. cbn [stdin set_stdout]. rewrite chunks_stored_stdin.
    reflexivity. }
  split.
  { unfold clean_state. cbn [stdout set_stdout]. rewrite chunks_stored_stdout.
    cbn [stdout set_stdout set_stdin]. rewrite <- !app_assoc. reflexivity. }
  intros groups pathname' blob rest' s2 Hcat Hgroups Hsub Hin2.
  exists (concat (map chunk_string chunks)). split; [|split].
  - apply (smudge_eq chunks groups); try assumption.
    intros d hb Hd Hhb. eapply lookup_weaken; [|exact Hsub].
    unfold clean_state. cbn [objects set_stdout].
    apply chunks_stored_objects; assumption.
  - rewrite concat_chunk_strings. unfold chunks.
    rewrite (covers_concat B spans 0 Hcov). apply drop_0.
  - apply chunk_strings_bounds.
Qed.

Lemma round_trip_witness :
  let B := blit "hello world" in
  let s := input_state (pkt_lines [blit "hello "; blit "world"] ++ flush_line) false in
  exists new names s1,
    @clean example_git example_cdc (Path_of (lit "a.bin")) s = (Ok new, s1)
    /\ stdin s1 = []
    /\ stdout s1 = stdout s ++ pkt_line status_line ++ flush_line
                     ++ pkt_lines (map manifest_line names)
                     ++ flush_line ++ flush_line
    /\ forall groups pathname' blob rest' s2,
         concat groups = names ->
         Forall (fun g => g <> [] /\ (N.of_nat (length (manifest_pkt g)) <= 65531)%N)
                groups ->
         objects s1 ⊆ objects s2 ->
         stdin s2 = pkt_lines (map manifest_pkt groups) ++ flush_line ++ rest' ->
         exists answer,
           smudge pathname' blob s2
           = (Ok tt,
              set_stdout (stdout s2 ++ pkt_line status_line ++ flush_line
                            ++ pkt_lines answer ++ flush_line ++ flush_line)
                         (set_stdin rest' s2))
           /\ concat answer = B
           /\ Forall (fun p : bytes => p <> [] /\ (N.of_nat (length p) <= 65516)%N)
                     answer.
Proof.
  intros B s.
  apply (@round_trip example_git example_cdc B [blit "hello "; blit "world"]
           [(0, 4); (4, 4); (8, 3)] (Path_of (lit "a.bin")) [] s).
  - repeat constructor; try discriminate; vm_compute; discriminate.
  - reflexivity.
  - unfold s. cbn [stdin input_state]. rewrite app_nil_r. reflexivity.
  - vm_compute. reflexivity.
  - vm_compute. reflexivity.
  - vm_compute. reflexivity.
  - vm_compute. reflexivity.
Defined.

(** ** Examples of requests *)

Lemma unknown_header_ignored_witness :
  let path_pkt := blit "pathname=a.bin" ++ [x0a] in
  let hdrs := [blit "blob=abc" ++ [x0a]] in
  let p := blit "can-delay=1" ++ [x0a] in
  let rest := flush_line ++ flush_line in
  let s := input_state (pkt_line path_pkt ++ pkt_lines hdrs ++ pkt_line p ++ rest) false in
  @request example_git example_cdc (lit "command=smudge") false s
  = @request example_git example_cdc (lit "command=smudge") false
      (set_stdin (pkt_line path_pkt ++ pkt_lines hdrs ++ rest) s).
Proof.
  intros path_pkt hdrs p rest s.
  apply (@unknown_header_ignored example_git example_cdc (lit "command=smudge") false
           path_pkt (lit "pathname=a.bin") hdrs p (lit "can-delay=1") rest s).
  - reflexivity.
  - split; [split; [discriminate | vm_compute; discriminate]|].
    eexists. split; vm_compute; reflexivity.
  - reflexivity.
  - repeat constructor. exists (lit "blob=abc"). split; [|discriminate].
    split; [split; [discriminate | vm_compute; discriminate]|].
    eexists. split; vm_compute; reflexivity.
  - split; [split; [discriminate | vm_compute; discriminate]|].
    eexists. split; vm_compute; reflexivity.
  - discriminate.
  - vm_compute. intros Hin.
    repeat (apply elem_of_cons in Hin as [Hin|Hin]; [discriminate Hin|]).
    inversion Hin.
  - reflexivity.
Defined.

Lemma smudge_cdc_answer_witness :
  let pathname := Path_of (lit ".cdc/ab/cd/abcd12.cdc") in
  let s := input_state (pkt_lines [blit "abcd12"] ++ flush_line) false in
  fst (@dispatch example_git example_cdc (lit "smudge") pathname None false s)
  = Raise AssertionError
  /\ @dispatch example_git example_cdc (lit "smudge") pathname
       (Some (lit "abcd12")) false s
     = (Ok false,
        set_stdout (stdout s ++ pkt_line status_line ++ flush_line
                      ++ pkt_line (blit "abcd12") ++ flush_line ++ flush_line)
                   (set_stdin [] s)).
Proof.
  intros pathname s. split.
  - apply (proj1 (@smudge_cdc_answer example_git example_cdc pathname None false
                    [blit "abcd12"] [] s eq_refl
                    ltac:(repeat constructor; [discriminate | vm_compute; discriminate])
                    ltac:(vm_compute; reflexivity))).
    discriminate.
  - apply (proj2 (@smudge_cdc_answer example_git example_cdc pathname
                    (Some (lit "abcd12")) false
                    [blit "abcd12"] [] s eq_refl
                    ltac:(repeat constructor; [discriminate | vm_compute; discriminate])
                    ltac:(vm_compute; reflexivity)) (lit "abcd12") (blit "abcd12"));
      vm_compute; reflexivity.
Defined.

(** ** Every exit path of the clean handlers *)








Section AllPaths.
Context `{Git} `{FastCDC}.
Hypothesis git_names :
  forall d out, hash_object_stdout d = Some out -> object_name (bytes_strip out) = true.


Lemma chunks_stored_files chunks s :
  files (chunks_stored chunks s) = manifests_written chunks (files s).
Proof.
  revert s. induction chunks as [|d chunks IH]; intros s; [reflexivity|].
  unfold chunks_stored, manifests_written in *. cbn [foldl]. rewrite IH.
  reflexivity.
Qed.



(** The chunk manifests are kept apart from the temporary file. *)
Lemma chunk_path_not_tmpfile h : chunk_path h <> file_key tmpfile.
Proof. unfold chunk_path. intros E. vm_compute in E. discriminate E. Qed.



Lemma manifests_written_tmp (chunks : list bytes) (m : gmap str bytes) :
  manifests_written chunks m !! file_key tmpfile = m !! file_key tmpfile.
Proof.
  revert m. induction chunks as [|d chunks IH]; intros m; [reflexivity|].
  unfold manifests_written in *. cbn [foldl]. rewrite IH.
  unfold write_manifest. cbv zeta.
  apply lookup_insert_ne, chunk_path_not_tmpfile.
Qed.




End AllPaths.

(** ** Chunk manifests *)







(** ** Substrings *)

Lemma startswith_spec {A} `{EqDecision A} (s p : list A) :
  startswith s p = true <-> exists b, s = p ++ b.
Proof.
  revert s. induction p as [|x p IH]; intros s.
  - split; [eauto | intros _; destruct s; reflexivity].
  - destruct s as [|y s]; cbn [startswith].
    + split; [discriminate | intros [b Hb]; discriminate Hb].
    + rewrite andb_true_iff, bool_decide_eq_true, IH. split.
      * intros [-> [b ->]]. exists b. reflexivity.
      * intros [b Hb]. injection Hb as -> ->. eauto.
Qed.

Lemma contains_spec {A} `{EqDecision A} (p s : list A) :
  contains p s = true <-> exists a b, s = a ++ p ++ b.
Proof.
  induction s as [|y s IH].
  - cbn [contains]. rewrite orb_false_r, startswith_spec. split.
    + intros [b Hb]. exists [], b. exact Hb.
    + intros (a & b & Hab). destruct a; [|discriminate Hab]. eauto.
  - cbn [contains]. rewrite orb_true_iff, startswith_spec, IH. split.
    + intros [[b Hb]|(a & b & Hab)].
      * exists [], b. exact Hb.
      * exists (y :: a), b. rewrite Hab. reflexivity.
    + intros (a & b & Hab). destruct a as [|y' a].
      * left. eauto.
      * right. injection Hab as -> ->. eauto.
Qed.

Lemma contains_false_infix {A} `{EqDecision A} (p a s b : list A) :
  contains p (a ++ s ++ b) = false -> contains p s = false.
Proof.
  intros Hf. destruct (contains p s) eqn:Hs; [|reflexivity].
  apply contains_spec in Hs as (a' & b' & ->).
  assert (Ht : contains p (a ++ (a' ++ p ++ b') ++ b) = true).
  { apply contains_spec. exists (a ++ a'), (b' ++ b).
    rewrite <- !app_assoc. reflexivity. }
  congruence.
Qed.

(** An occurrence of [p] in [l ++ sep :: r], for [p] free of [sep], lies in
    [l] or in [r]. *)
Lemma occurrence_split {A} (sep : A) (p a b l r : list A) :
  ~ In sep p -> a ++ p ++ b = l ++ sep :: r ->
  (exists b', l = a ++ p ++ b') \/ (exists a', r = a' ++ p ++ b).
Proof.
  intros Hsep Heq.
  apply app_eq_app in Heq as [l' [[Ha Hr]|[Hl Hp]]].
  - destruct l' as [|x l'].
    + rewrite app_nil_r in Ha. subst a. cbn [app] in Hr.
      destruct p as [|y p].
      * left. exists []. rewrite !app_nil_r. reflexivity.
      * injection Hr as <- _. exfalso. apply Hsep. left. reflexivity.
    + injection Hr as <- ->. right. eauto.
  - apply app_eq_app in Hp as [l2 [[Hp Hr]|[Hl' Hb]]].
    + destruct l2 as [|x l2].
      * rewrite app_nil_r in Hp. subst l' l. left. exists [].
        rewrite app_nil_r. reflexivity.
      * injection Hr as <- _. exfalso. apply Hsep. rewrite Hp.
        apply in_elt.
    + subst l' l. left. exists l2. reflexivity.
Qed.

Lemma contains_unlines (p : str) (ls : list str) :
  ~ In LF p -> p <> [] ->
  Forall (fun l => contains p l = false) ls ->
  contains p (unlines ls) = false.
Proof.
  intros Hlf Hne Hls. induction Hls as [|l ls Hl _ IH].
  - destruct p; [congruence | reflexivity].
  - destruct (contains p (unlines (l :: ls))) eqn:Hc; [|reflexivity].
    apply contains_spec in Hc as (a & b & Hab).
    unfold unlines in Hab. cbn [map concat] in Hab. rewrite <- app_assoc in Hab.
    cbn [app] in Hab. symmetry in Hab.
    apply occurrence_split in Hab as [[b' Hb']|[a' Ha']]; [| |exact Hlf].
    + assert (contains p l = true) by (apply contains_spec; eauto). congruence.
    + assert (contains p (unlines ls) = true) by (apply contains_spec; eauto).
      congruence.
Qed.

(** ** What strip leaves *)

Lemma lstrip_by_spec {A} (sp : A -> bool) (l : list A) :
  (exists t, l = t ++ lstrip_by sp l)
  /\ (lstrip_by sp l = [] \/ exists a X, lstrip_by sp l = a :: X /\ sp a = false).
Proof.
  induction l as [|c l [[t Ht] IH]].
  - split; [exists []; reflexivity | left; reflexivity].
  - cbn [lstrip_by]. destruct (sp c) eqn:Hc.
    + split; [exists (c :: t); cbn; congruence | exact IH].
    + split; [exists []; reflexivity | right; eauto].
Qed.

Lemma rstrip_by_spec {A} (sp : A -> bool) (l : list A) :
  (exists t, l = rstrip_by sp l ++ t)
  /\ (rstrip_by sp l = [] \/ exists Y z, rstrip_by sp l = Y ++ [z] /\ sp z = false).
Proof.
  unfold rstrip_by. destruct (lstrip_by_spec sp (rev l)) as [[t Ht] Hend]. split.
  - exists (rev t). rewrite <- rev_app_distr, <- Ht, rev_involutive. reflexivity.
  - destruct Hend as [->|(a & X & -> & Ha)]; [left; reflexivity|].
    right. exists (rev X), a. split; [reflexivity | exact Ha].
Qed.

(** The strip of a text is a piece of it, and is empty or starts and ends
    with no white space. *)
Lemma strip_by_spec {A} (sp : A -> bool) (l : list A) :
  (exists t1 t2, l = t1 ++ strip_by sp l ++ t2)
  /\ (strip_by sp l = []
      \/ exists a X Y z, strip_by sp l = a :: X /\ strip_by sp l = Y ++ [z]
                         /\ sp a = false /\ sp z = false).
Proof.
  unfold strip_by.
  destruct (lstrip_by_spec sp l) as [[t1 Ht1] Hhead].
  destruct (rstrip_by_spec sp (lstrip_by sp l)) as [[t2 Ht2] Hlast].
  split.
  - exists t1, t2. rewrite <- Ht2. exact Ht1.
  - destruct Hlast as [->|(Y & z & HY & Hz)]; [left; reflexivity|].
    right. destruct Hhead as [Hnil|(a & X & Ha & Hsa)].
    + rewrite Hnil in HY. cbn in HY. destruct Y; discriminate HY.
    + rewrite HY in Ht2. rewrite Ha in Ht2.
      destruct Y as [|y Y].
      * cbn [app] in Ht2. injection Ht2 as <- _.
        exists a, [], [], a. rewrite HY. auto.
      * cbn [app] in Ht2. injection Ht2 as <- _.
        exists a, (Y ++ [z]), (a :: Y), z. rewrite HY. auto.
Qed.

Lemma linebreak_isspace c : is_linebreak c = true -> isspace c = true.
Proof.
  unfold is_linebreak, isspace.
  rewrite !orb_true_iff, !andb_true_iff, !N.leb_le, !N.eqb_eq. lia.
Qed.

Lemma not_space_not_linebreak c : isspace c = false -> is_linebreak c = false.
Proof.
  intros Hs. destruct (is_linebreak c) eqn:Hl; [|reflexivity].
  apply linebreak_isspace in Hl. congruence.
Qed.

(** ** Lines of a text without [\r] *)

Lemma splitlines_step c s :
  c <> CR ->
  splitlines (c :: s)
  = if is_linebreak c then [] :: splitlines s else cons_line c (splitlines s).
Proof.
  intros Hc. cbn [splitlines]. destruct (is_linebreak c); [|reflexivity].
  destruct s as [|c' s']; [reflexivity|].
  destruct (N.eqb_spec c CR); [congruence | reflexivity].
Qed.

Lemma splitlines_nonempty c s : splitlines (c :: s) <> [].
Proof.
  cbn [splitlines]. destruct (is_linebreak c); [discriminate|].
  destruct (splitlines s); discriminate.
Qed.

Lemma cons_line_app c (a b : list str) :
  a <> [] -> cons_line c (a ++ b) = cons_line c a ++ b.
Proof. destruct a; [congruence | reflexivity]. Qed.

Lemma splitlines_no_linebreak s :
  no_cr s -> Forall no_linebreak (splitlines s).
Proof.
  induction 1 as [|c s Hc _ IH]; [constructor|].
  rewrite splitlines_step by exact Hc.
  destruct (is_linebreak c) eqn:Hl.
  - constructor; [constructor | exact IH].
  - destruct (splitlines s) as [|l ls]; cbn [cons_line].
    + repeat constructor. exact Hl.
    + apply Forall_cons in IH as [Hl0 Hls]. constructor; [|exact Hls].
      constructor; assumption.
Qed.

Lemma only_lf_no_cr s : only_lf s -> no_cr s.
Proof.
  intros Hs. eapply Forall_impl; [exact Hs|]. intros c Hc ->.
  specialize (Hc eq_refl). discriminate Hc.
Qed.

Lemma only_lf_unlines ls : Forall no_linebreak ls -> only_lf (unlines ls).
Proof.
  induction 1 as [|l ls Hl _ IH]; [constructor|].
  unfold unlines, only_lf in *. cbn [map concat]. rewrite <- app_assoc.
  apply Forall_app. split; [|constructor; [reflexivity | exact IH]].
  eapply Forall_impl; [exact Hl|]. intros c Hc Ht. congruence.
Qed.

Lemma universal_newlines_id s : no_cr s -> universal_newlines s = s.
Proof.
  induction 1 as [|c s Hc _ IH]; [reflexivity|].
  cbn [universal_newlines]. destruct (N.eqb_spec c CR); [congruence|].
  rewrite IH. reflexivity.
Qed.

Section OnlyLf.
(** A text whose line boundaries are [\n] and that ends in the middle of
    a line. *)
Variables (Y : str) (z : N).
Hypothesis z_plain : is_linebreak z = false.

Lemma splitlines_app_lf : forall rest,
  only_lf Y ->
  splitlines ((Y ++ [z]) ++ LF :: rest) = splitlines (Y ++ [z]) ++ splitlines rest.
Proof.
  intros rest HY. induction HY as [|c Y' Hc _ IH].
  - cbn [app]. assert (Hz : z <> CR) by (intros ->; discriminate z_plain).
    rewrite !splitlines_step by (exact Hz || discriminate).
    rewrite z_plain. cbn. reflexivity.
  - cbn [app]. assert (Hcr : c <> CR).
    { intros ->. specialize (Hc eq_refl). discriminate Hc. }
    rewrite !splitlines_step by exact Hcr. rewrite IH.
    destruct (is_linebreak c); [reflexivity|].
    apply cons_line_app. destruct Y'; apply splitlines_nonempty.
Qed.

Lemma unlines_splitlines :
  only_lf Y -> unlines (splitlines (Y ++ [z])) = (Y ++ [z]) ++ [LF].
Proof.
  intros HY. induction HY as [|c Y' Hc _ IH].
  - cbn [app]. assert (Hz : z <> CR) by (intros ->; discriminate z_plain).
    rewrite splitlines_step by exact Hz. rewrite z_plain. reflexivity.
  - cbn [app]. assert (Hcr : c <> CR).
    { intros ->. specialize (Hc eq_refl). discriminate Hc. }
    rewrite splitlines_step by exact Hcr.
    destruct (is_linebreak c) eqn:Hl.
    + rewrite (Hc eq_refl). unfold unlines in *. cbn [map concat app].
      rewrite IH. reflexivity.
    + destruct (splitlines (Y' ++ [z])) as [|l ls] eqn:Hs.
      { exfalso. destruct Y'; eapply splitlines_nonempty; exact Hs. }
      unfold unlines in *. cbn [cons_line map concat app] in *.
      rewrite IH. reflexivity.
Qed.

End OnlyLf.

Lemma splitlines_head s l0 ls :
  no_cr s -> splitlines s = l0 :: ls -> exists b, s = l0 ++ b.
Proof.
  intros Hs. revert l0 ls. induction Hs as [|c s Hc _ IH]; intros l0 ls Hl.
  - discriminate Hl.
  - rewrite splitlines_step in Hl by exact Hc.
    destruct (is_linebreak c).
    + injection Hl as <- _. exists (c :: s). reflexivity.
    + destruct (splitlines s) as [|l1 ls1] eqn:Hsp; cbn [cons_line] in Hl.
      * injection Hl as <- _. exists s. reflexivity.
      * injection Hl as <- _. destruct (IH l1 ls1 eq_refl) as [b ->].
        exists b. reflexivity.
Qed.

Lemma splitlines_infix s l :
  no_cr s -> l ∈ splitlines s -> exists a b, s = a ++ l ++ b.
Proof.
  intros Hs. revert l. induction Hs as [|c s Hc Hs IH]; intros l Hl.
  - inversion Hl.
  - rewrite splitlines_step in Hl by exact Hc.
    destruct (is_linebreak c).
    + apply elem_of_cons in Hl as [->|Hl].
      * exists [], (c :: s). reflexivity.
      * destruct (IH l Hl) as (a & b & ->). exists (c :: a), b. reflexivity.
    + destruct (splitlines s) as [|l1 ls1] eqn:Hsp; cbn [cons_line] in Hl.
      * apply list_elem_of_singleton in Hl as ->. exists [], s. reflexivity.
      * apply elem_of_cons in Hl as [->|Hl].
        -- destruct (splitlines_head s l1 ls1 Hs Hsp) as [b ->].
           exists [], b. reflexivity.
        -- destruct (IH l ltac:(right; exact Hl)) as (a & b & ->).
           exists (c :: a), b. reflexivity.
Qed.

(** ** The attribute file after install *)

Lemma only_lf_check s :
  forallb (fun c => implb (is_linebreak c) (c =? LF)%N) s = true -> only_lf s.
Proof.
  intros Hs. apply Forall_forall. intros c Hc Hl.
  rewrite forallb_forall in Hs. specialize (Hs c (proj1 (list_elem_of_In _ _) Hc)).
  rewrite Hl in Hs. cbn in Hs. apply N.eqb_eq in Hs. exact Hs.
Qed.

Lemma only_lf_reserved : only_lf reserved_lines.
Proof. apply only_lf_check. vm_compute. reflexivity. Qed.

Lemma own_line_false l :
  contains cdcline l = false -> contains cdcattr l = false -> own_line l = false.
Proof. intros H1 H2. unfold own_line. rewrite H1, H2. reflexivity. Qed.

Lemma removed_spec data :
  no_cr data ->
  only_lf (removed data)
  /\ contains cdcline (removed data) = false
  /\ contains cdcattr (removed data) = false.
Proof.
  intros Hd. unfold removed.
  pose proof (splitlines_no_linebreak data Hd) as Hls.
  set (ls := splitlines data) in *.
  assert (Hf : Forall no_linebreak (List.filter (fun line => negb (own_line line)) ls)).
  { apply Forall_forall. intros l Hl. apply list_elem_of_In, filter_In in Hl as [Hl _].
    rewrite Forall_forall in Hls. apply Hls, list_elem_of_In, Hl. }
  assert (Hok : Forall (fun l => own_line l = false)
                       (List.filter (fun line => negb (own_line line)) ls)).
  { apply Forall_forall. intros l Hl. apply list_elem_of_In, filter_In in Hl as [_ Hl].
    apply negb_true_iff in Hl. exact Hl. }
  split; [apply only_lf_unlines, Hf|]. split.
  - apply contains_unlines.
    + vm_compute. intuition discriminate.
    + discriminate.
    + eapply Forall_impl; [exact Hok|]. intros l Hl. unfold own_line in Hl.
      apply orb_false_iff in Hl. apply Hl.
  - apply contains_unlines.
    + vm_compute. intuition discriminate.
    + discriminate.
    + eapply Forall_impl; [exact Hok|]. intros l Hl. unfold own_line in Hl.
      apply orb_false_iff in Hl. apply Hl.
Qed.

Lemma installed_nil text : str_strip text = [] -> installed text = reserved_lines.
Proof. intros Hs. unfold installed. rewrite Hs. reflexivity. Qed.

Lemma installed_cons text a X :
  str_strip text = a :: X ->
  installed text = (str_strip text ++ [LF]) ++ reserved_lines.
Proof. intros Hs. unfold installed. rewrite Hs. reflexivity. Qed.

(** What [install] writes is a fixed point of remove-then-install. *)
Lemma installed_removed_idem data :
  no_cr data ->
  only_lf (installed (removed data))
  /\ installed (removed (installed (removed data))) = installed (removed data).
Proof.
  intros Hd. destruct (removed_spec data Hd) as (Hlf & Hc1 & Hc2).
  set (R := removed data) in *.
  destruct (strip_by_spec isspace R) as [(t1 & t2 & HR) Hends].
  fold (str_strip R) in HR, Hends.
  assert (HlfD : only_lf (str_strip R)).
  { unfold only_lf in *. rewrite HR in Hlf.
    apply Forall_app in Hlf as [_ Hlf]. apply Forall_app in Hlf as [Hlf _].
    exact Hlf. }
  assert (Hc1D : contains cdcline (str_strip R) = false)
    by (rewrite HR in Hc1; eapply contains_false_infix; exact Hc1).
  assert (Hc2D : contains cdcattr (str_strip R) = false)
    by (rewrite HR in Hc2; eapply contains_false_infix; exact Hc2).
  destruct Hends as [HD|(a & X & Y & z & Ha & HY & Hsa & Hsz)].
  - rewrite (installed_nil R HD). split; [apply only_lf_reserved|].
    vm_compute. reflexivity.
  - rewrite (installed_cons R a X Ha).
    set (D := str_strip R) in *. split.
    { unfold only_lf. apply Forall_app. split; [|apply only_lf_reserved].
      apply Forall_app. split; [exact HlfD | repeat constructor]. }
    assert (Hz : is_linebreak z = false) by (apply not_space_not_linebreak, Hsz).
    assert (HlfY : only_lf Y).
    { unfold only_lf in *. rewrite HY in HlfD. apply Forall_app in HlfD. apply HlfD. }
    assert (HcrD : no_cr (Y ++ [z])).
    { apply only_lf_no_cr. rewrite <- HY. exact HlfD. }
    assert (Hrem : removed ((D ++ [LF]) ++ reserved_lines) = D ++ [LF]).
    { unfold removed. rewrite <- app_assoc. cbn [app].
      rewrite HY. rewrite (splitlines_app_lf Y z Hz _ HlfY).
      rewrite List.filter_app.
      replace (List.filter (fun line => negb (own_line line)) (splitlines reserved_lines))
        with (@nil str) by (vm_compute; reflexivity).
      rewrite app_nil_r.
      rewrite forallb_filter_id.
      - apply (unlines_splitlines Y z Hz HlfY).
      - apply forallb_forall. intros l Hl. apply negb_true_iff.
        apply list_elem_of_In in Hl.
        destruct (splitlines_infix _ l HcrD Hl) as (p & q & Hpq).
        apply own_line_false.
        + rewrite HY, Hpq in Hc1D. eapply contains_false_infix. exact Hc1D.
        + rewrite HY, Hpq in Hc2D. eapply contains_false_infix. exact Hc2D. }
    rewrite Hrem.
    assert (Hstrip : str_strip (D ++ [LF]) = D)
      by (apply (strip_by_trailing isspace D a X Y z LF Ha HY Hsa Hsz eq_refl)).
    rewrite (installed_cons (D ++ [LF]) a X) by (rewrite Hstrip; exact Ha).
    rewrite Hstrip. reflexivity.
Qed.

(** ** UTF-8 *)

Lemma to_N_byte_of n : (n < 256)%N -> Byte.to_N (byte_of n) = n.
Proof.
  intros Hn. unfold byte_of. destruct (Byte.of_N n) as [b|] eqn:Hb.
  - apply Byte.to_of_N in Hb. exact Hb.
  - apply Byte.of_N_None_iff in Hb. lia.
Qed.

Lemma continuation_byte_of c :
  (c < 64)%N -> continuation (byte_of (128 + c)) = Some c.
Proof.
  intros Hc. unfold continuation. rewrite to_N_byte_of by lia.
  destruct (N.leb_spec 128 (128 + c)); [|lia].
  destruct (N.leb_spec (128 + c) 191); [|lia].
  cbn [andb]. f_equal. lia.
Qed.

Lemma utf8_decode_encode_cp c r :
  scalar c = true ->
  utf8_decode (utf8_encode_cp c ++ r) = cons c <$> utf8_decode r.
Proof.
  unfold scalar. rewrite orb_true_iff, andb_true_iff, !N.ltb_lt. intros Hc.
  assert (H64 : forall m : N, (m mod 64 < 64)%N) by (intros; apply N.mod_lt; lia).
  pose proof (N.div_mod c 64 ltac:(lia)) as E64.
  pose proof (N.div_mod (c / 64) 64 ltac:(lia)) as E4096.
  pose proof (N.div_mod (c / 4096) 64 ltac:(lia)) as E262144.
  replace (c / 64 / 64)%N with (c / 4096)%N in E4096
    by (rewrite N.Div0.div_div; reflexivity).
  replace (c / 4096 / 64)%N with (c / 262144)%N in E262144
    by (rewrite N.Div0.div_div; reflexivity).
  pose proof (H64 c). pose proof (H64 (c / 64)%N). pose proof (H64 (c / 4096)%N).
  unfold utf8_encode_cp.
  destruct (N.ltb_spec c 128) as [Hc1|Hc1].
  { cbn [app utf8_decode]. cbv zeta. rewrite to_N_byte_of by lia.
    destruct (N.ltb_spec c 128); [reflexivity | lia]. }
  destruct (N.ltb_spec c 2048) as [Hc2|Hc2].
  { cbn [app utf8_decode]. cbv zeta.
    assert (c / 64 < 32)%N by (apply N.Div0.div_lt_upper_bound; lia).
    rewrite to_N_byte_of by lia.
    destruct (N.ltb_spec (192 + c / 64) 128); [lia|].
    destruct (N.ltb_spec (192 + c / 64) 194); [lia|].
    destruct (N.ltb_spec (192 + c / 64) 224); [|lia].
    rewrite continuation_byte_of by auto.
    replace ((192 + c / 64 - 192) * 64 + c mod 64)%N with c by lia.
    reflexivity. }
  destruct (N.ltb_spec c 65536) as [Hc3|Hc3].
  { cbn [app utf8_decode]. cbv zeta.
    assert (c / 4096 < 16)%N by (apply N.Div0.div_lt_upper_bound; lia).
    rewrite to_N_byte_of by lia.
    destruct (N.ltb_spec (224 + c / 4096) 128); [lia|].
    destruct (N.ltb_spec (224 + c / 4096) 194); [lia|].
    destruct (N.ltb_spec (224 + c / 4096) 224); [lia|].
    destruct (N.ltb_spec (224 + c / 4096) 240); [|lia].
    rewrite !continuation_byte_of by auto.
    assert (c / 4096 mod 64 = c / 4096)%N by (apply N.mod_small; lia).
    replace ((224 + c / 4096 - 224) * 4096 + c / 64 mod 64 * 64 + c mod 64)%N
      with c by lia.
    destruct (N.ltb_spec c 2048); [lia|].
    destruct (N.leb_spec 55296 c); destruct (N.leb_spec c 57343);
      cbn [orb andb]; try reflexivity; lia. }
  cbn [app utf8_decode]. cbv zeta.
  assert (c / 262144 < 5)%N by (apply N.Div0.div_lt_upper_bound; lia).
  rewrite to_N_byte_of by lia.
  destruct (N.ltb_spec (240 + c / 262144) 128); [lia|].
  destruct (N.ltb_spec (240 + c / 262144) 194); [lia|].
  destruct (N.ltb_spec (240 + c / 262144) 224); [lia|].
  destruct (N.ltb_spec (240 + c / 262144) 240); [lia|].
  destruct (N.ltb_spec (240 + c / 262144) 245); [|lia].
  rewrite !continuation_byte_of by auto.
  replace ((240 + c / 262144 - 240) * 262144 + c / 4096 mod 64 * 4096
           + c / 64 mod 64 * 64 + c mod 64)%N with c by lia.
  destruct (N.ltb_spec c 65536); [lia|].
  destruct (N.ltb_spec 1114111 c); [lia|]. reflexivity.
Qed.

Lemma utf8_encode_total s :
  Forall (fun c => scalar c = true) s ->
  exists bs, utf8_encode s = Some bs /\ utf8_decode bs = Some s.
Proof.
  induction 1 as [|c s Hc _ (bs & He & Hd)].
  - exists []. split; reflexivity.
  - exists (utf8_encode_cp c ++ bs). cbn [utf8_encode]. rewrite Hc, He. split.
    + reflexivity.
    + rewrite utf8_decode_encode_cp by exact Hc. rewrite Hd. reflexivity.
Qed.

Lemma utf8_encode_app a b ea eb :
  utf8_encode a = Some ea -> utf8_encode b = Some eb ->
  utf8_encode (a ++ b) = Some (ea ++ eb).
Proof.
  revert ea. induction a as [|c a IH]; intros ea Ha Hb.
  - injection Ha as <-. exact Hb.
  - cbn [app utf8_encode] in *. destruct (scalar c); [|discriminate].
    destruct (utf8_encode a) as [ea'|]; [|discriminate].
    injection Ha as <-. rewrite (IH ea' eq_refl Hb). cbn.
    rewrite <- app_assoc. reflexivity.
Qed.

Lemma continuation_bound b c : continuation b = Some c -> (c < 64)%N.
Proof.
  unfold continuation.
  destruct (N.leb_spec 128 (Byte.to_N b)); destruct (N.leb_spec (Byte.to_N b) 191);
    cbn [andb]; intros [= <-]; lia.
Qed.

Lemma fmap_cons_Some {A} (c : A) (o : option (list A)) t :
  cons c <$> o = Some t -> exists t', t = c :: t' /\ o = Some t'.
Proof. destruct o as [t'|]; [|discriminate]. intros [= <-]. eauto. Qed.

Lemma utf8_decode_scalar_len n : forall bs s,
  length bs <= n -> utf8_decode bs = Some s -> Forall (fun c => scalar c = true) s.
Proof.
  induction n as [|n IH]; intros bs s Hlen Hd.
  - destruct bs; [|cbn in Hlen; lia]. injection Hd as <-. constructor.
  - destruct bs as [|b0 r]; [injection Hd as <-; constructor|].
    cbn [utf8_decode length] in *. cbv zeta in Hd.
    destruct (N.ltb_spec (Byte.to_N b0) 128) as [H0|H0].
    { apply fmap_cons_Some in Hd as (t' & -> & Hd).
      constructor; [|apply (IH r); [lia | exact Hd]].
      unfold scalar. destruct (N.ltb_spec (Byte.to_N b0) 55296); [reflexivity | lia]. }
    destruct (N.ltb_spec (Byte.to_N b0) 194) as [|H194]; [discriminate|].
    destruct (N.ltb_spec (Byte.to_N b0) 224) as [H224|H224].
    { destruct r as [|b1 r']; [discriminate|].
      destruct (continuation b1) as [c1|] eqn:E1; [|discriminate].
      apply continuation_bound in E1.
      apply fmap_cons_Some in Hd as (t' & -> & Hd).
      constructor; [|apply (IH r'); [cbn [length] in Hlen; lia | exact Hd]].
      unfold scalar.
      destruct (N.ltb_spec ((Byte.to_N b0 - 192) * 64 + c1) 55296); [reflexivity | lia]. }
    destruct (N.ltb_spec (Byte.to_N b0) 240) as [H240|H240].
    { destruct r as [|b1 [|b2 r']]; try discriminate.
      destruct (continuation b1) as [c1|] eqn:E1; [|discriminate].
      destruct (continuation b2) as [c2|] eqn:E2; [|discriminate].
      apply continuation_bound in E1, E2.
      set (cp := ((Byte.to_N b0 - 224) * 4096 + c1 * 64 + c2)%N) in *.
      destruct (N.ltb_spec cp 2048); [discriminate|].
      destruct (N.leb_spec 55296 cp); destruct (N.leb_spec cp 57343);
        cbn [orb andb] in Hd; try discriminate;
        apply fmap_cons_Some in Hd as (t' & -> & Hd);
        (constructor; [|apply (IH r'); [cbn [length] in Hlen; lia | exact Hd]]);
        unfold scalar;
        destruct (N.ltb_spec cp 55296); destruct (N.ltb_spec 57343 cp);
        destruct (N.ltb_spec cp 1114112); cbn [orb andb]; try reflexivity;
        unfold cp in *; lia. }
    destruct (N.ltb_spec (Byte.to_N b0) 245) as [H245|H245]; [|discriminate].
    destruct r as [|b1 [|b2 [|b3 r']]]; try discriminate.
    destruct (continuation b1) as [c1|] eqn:E1; [|discriminate].
    destruct (continuation b2) as [c2|] eqn:E2; [|discriminate].
    destruct (continuation b3) as [c3|] eqn:E3; [|discriminate].
    set (cp := ((Byte.to_N b0 - 240) * 262144 + c1 * 4096 + c2 * 64 + c3)%N) in *.
    destruct (N.ltb_spec cp 65536); [discriminate|].
    destruct (N.ltb_spec 1114111 cp); [discriminate|]. cbn [orb] in Hd.
    apply fmap_cons_Some in Hd as (t' & -> & Hd).
    constructor; [|apply (IH r'); [cbn [length] in Hlen; lia | exact Hd]].
    unfold scalar.
    destruct (N.ltb_spec cp 55296); destruct (N.ltb_spec 57343 cp);
      destruct (N.ltb_spec cp 1114112); cbn [orb andb]; try reflexivity; lia.
Qed.

Lemma utf8_decode_scalar bs s :
  utf8_decode bs = Some s -> Forall (fun c => scalar c = true) s.
Proof. apply (utf8_decode_scalar_len (length bs)). lia. Qed.

(** ** install and remove on the state *)

Lemma universal_newlines_scalars s : scalars s -> scalars (universal_newlines s).
Proof.
  assert (Hgen : forall n s, length s <= n -> scalars s -> scalars (universal_newlines s)).
  { induction n as [|n IH]; intros s0 Hlen Hs.
    - destruct s0; [constructor | cbn in Hlen; lia].
    - destruct s0 as [|c s']; [constructor|].
      apply Forall_cons in Hs as [Hc Hs]. cbn [universal_newlines length] in *.
      destruct (c =? CR)%N.
      + constructor; [reflexivity|]. destruct s' as [|c' s'']; [constructor|].
        apply Forall_cons in Hs as [Hc' Hs'']. cbn [length] in Hlen.
        destruct (c' =? LF)%N; apply IH; try (cbn [length]; lia); try assumption.
        constructor; assumption.
      + constructor; [exact Hc|]. apply IH; [lia | exact Hs]. }
  apply (Hgen (length s)). lia.
Qed.

Lemma universal_newlines_no_cr s : no_cr (universal_newlines s).
Proof.
  assert (Hgen : forall n s, length s <= n -> no_cr (universal_newlines s)).
  { induction n as [|n IH]; intros s0 Hlen.
    - destruct s0; [constructor | cbn in Hlen; lia].
    - destruct s0 as [|c s']; [constructor|].
      cbn [universal_newlines length] in *.
      destruct (N.eqb_spec c CR).
      + constructor; [discriminate|]. destruct s' as [|c' s'']; [constructor|].
        cbn [length] in Hlen.
        destruct (c' =? LF)%N; apply IH; cbn [length]; lia.
      + constructor; [exact n0|]. apply IH. lia. }
  apply (Hgen (length s)). lia.
Qed.

Lemma scalars_infix (a s b : str) : scalars (a ++ s ++ b) -> scalars s.
Proof.
  intros H. apply Forall_app in H as [_ H]. apply Forall_app in H as [H _]. exact H.
Qed.

Lemma scalars_splitlines s :
  no_cr s -> scalars s -> Forall scalars (splitlines s).
Proof.
  intros Hcr Hs. apply Forall_forall. intros l Hl.
  destruct (splitlines_infix s l Hcr Hl) as (a & b & Hab).
  rewrite Hab in Hs. eapply scalars_infix. exact Hs.
Qed.

Lemma scalars_unlines ls : Forall scalars ls -> scalars (unlines ls).
Proof.
  induction 1 as [|l ls Hl _ IH]; [constructor|].
  unfold unlines, scalars in *. cbn [map concat]. rewrite <- app_assoc.
  apply Forall_app. split; [exact Hl|]. constructor; [reflexivity | exact IH].
Qed.

Lemma scalars_removed data : no_cr data -> scalars data -> scalars (removed data).
Proof.
  intros Hcr Hs. unfold removed. apply scalars_unlines.
  pose proof (scalars_splitlines data Hcr Hs) as Hls.
  apply Forall_forall. intros l Hl. apply list_elem_of_In, filter_In in Hl as [Hl _].
  rewrite Forall_forall in Hls. apply Hls, list_elem_of_In, Hl.
Qed.

Lemma scalars_reserved : scalars reserved_lines.
Proof.
  apply Forall_forall. intros c Hc. apply list_elem_of_In in Hc.
  assert (Hall : forallb scalar reserved_lines = true) by (vm_compute; reflexivity).
  rewrite forallb_forall in Hall. apply Hall, Hc.
Qed.

Lemma scalars_strip text : scalars text -> scalars (str_strip text).
Proof.
  intros Hs. destruct (strip_by_spec isspace text) as [(t1 & t2 & Ht) _].
  rewrite Ht in Hs. eapply scalars_infix. exact Hs.
Qed.

Lemma scalars_installed text : scalars text -> scalars (installed text).
Proof.
  intros Hs. apply scalars_strip in Hs. unfold installed.
  destruct (str_strip text) as [|a X] eqn:E; [apply scalars_reserved|].
  apply Forall_app. split; [|apply scalars_reserved].
  apply Forall_app. split; [exact Hs | repeat constructor].
Qed.

Lemma attributes_file_key : file_key (Path_of (lit ".gitattributes")) = attributes_key.
Proof. vm_compute. reflexivity. Qed.

Lemma alter_lookup {V} (f : V -> V) (k : str) (m : gmap str V) x :
  m !! k = Some x -> alter f k m = <[k := f x]> m.
Proof.
  intros Hx. apply map_eq. intros j. destruct (decide (k = j)) as [<-|Hne].
  - rewrite lookup_alter_eq, lookup_insert_eq, Hx. reflexivity.
  - rewrite lookup_alter_ne, lookup_insert_ne by exact Hne. reflexivity.
Qed.

Lemma set_files_same s : set_files (files s) s = s.
Proof. destruct s. reflexivity. Qed.

Lemma scalars_encode s : scalars s -> exists e, utf8_encode s = Some e /\ utf8_decode e = Some s.
Proof. apply utf8_encode_total. Qed.

(** The loop of [do_remove] appends the lines it keeps. *)
Lemma write_kept_lines (ls : list str) : forall acc s,
  Forall scalars ls ->
  files s !! attributes_key = Some acc ->
  exists e,
    utf8_encode (unlines (List.filter (fun line => negb (own_line line)) ls)) = Some e
    /\ for_each (fun line _ =>
                   if negb (contains cdcline line) && negb (contains cdcattr line)
                   then file_write_str (Path_of (lit ".gitattributes")) (line ++ [LF])
                   else ret tt) ls tt s
       = (Ok tt, set_files (<[attributes_key := acc ++ e]> (files s)) s).
Proof.
  induction ls as [|l ls IH]; intros acc s Hsc Hacc.
  - exists []. split; [reflexivity|]. cbn [for_each]. rewrite app_nil_r.
    rewrite insert_id by exact Hacc. rewrite set_files_same. reflexivity.
  - apply Forall_cons in Hsc as [Hl Hls]. cbn [for_each List.filter].
    rewrite <- negb_orb. fold (own_line l).
    destruct (own_line l) eqn:Hown; cbn [negb].
    + destruct (IH acc s Hls Hacc) as (e & He & Hrun).
      exists e. split; [exact He|]. rewrite bind_ret. exact Hrun.
    + assert (Hl' : scalars (l ++ [LF]))
        by (apply Forall_app; split; [exact Hl | repeat constructor]).
      destruct (scalars_encode _ Hl') as (el & Hel & _).
      destruct (IH (acc ++ el)
                   (set_files (<[attributes_key := acc ++ el]> (files s)) s) Hls)
        as (e & He & Hrun).
      { cbn [files set_files]. apply lookup_insert_eq. }
      exists (el ++ e). split.
      * unfold unlines in *. cbn [map concat]. apply utf8_encode_app; assumption.
      * unfold file_write_str at 1. rewrite Hel. cbn [or_raise].
        unfold file_write at 1. run. rewrite attributes_file_key.
        rewrite (alter_lookup _ _ _ acc Hacc).
        rewrite Hrun.
        cbn [files set_files]. rewrite insert_insert_eq, app_assoc. reflexivity.
Qed.

Lemma touch_eq p s :
  touch p s
  = (Ok tt, match files s !! file_key p with
            | Some _ => s
            | None => set_files (<[file_key p := []]> (files s)) s
            end).
Proof.
  unfold touch. rewrite bind_get. destruct (files s !! file_key p); reflexivity.
Qed.

Lemma file_read_str_eq p s c :
  files s !! file_key p = Some c ->
  file_read_str p s
  = match utf8_decode c with
    | Some t => (Ok (universal_newlines t), s)
    | None => (Raise UnicodeDecodeError, s)
    end.
Proof.
  intros Hc. unfold file_read_str, file_content. run. rewrite Hc. cbn [or_raise].
  run. destruct (utf8_decode c); reflexivity.
Qed.

Lemma do_remove_fail s :
  utf8_decode (default [] (files s !! attributes_key)) = None ->
  do_remove s = (Raise UnicodeDecodeError, set_config (config_removed (config s)) s).
Proof.
  intros Hd. unfold do_remove, git_config_unset. run.
  rewrite (bind_ok _ _ _ _ _ (touch_eq _ _)). rewrite attributes_file_key.
  cbn [files set_config].
  destruct (files s !! attributes_key) as [c|] eqn:Hc; [|discriminate Hd].
  cbn [default] in Hd. unfold id in Hd.
  erewrite bind_raise; [reflexivity|].
  rewrite (file_read_str_eq _ _ c) by (rewrite attributes_file_key; exact Hc).
  rewrite Hd. reflexivity.
Qed.

Lemma do_remove_ok s t :
  utf8_decode (default [] (files s !! attributes_key)) = Some t ->
  exists e,
    utf8_encode (removed (universal_newlines t)) = Some e
    /\ do_remove s
       = (Ok tt, set_files (<[attributes_key := e]> (files s))
                   (set_config (config_removed (config s)) s)).
Proof.
  intros Hd. unfold do_remove, git_config_unset. run.
  rewrite (bind_ok _ _ _ _ _ (touch_eq _ _)). rewrite attributes_file_key.
  cbn [files set_config].
  set (s0 := set_config _ (set_config _ s)).
  assert (Hlook : files (match files s !! attributes_key with
                         | Some _ => s0
                         | None => set_files (<[attributes_key := []]> (files s)) s0
                         end) !! attributes_key
                  = Some (default [] (files s !! attributes_key))).
  { destruct (files s !! attributes_key) as [c|] eqn:Hc; cbn [default].
    - exact Hc.
    - cbn [files set_files]. apply lookup_insert_eq. }
  erewrite bind_ok;
    [| rewrite (file_read_str_eq _ _ _ ltac:(rewrite attributes_file_key; exact Hlook));
       rewrite Hd; reflexivity].
  unfold file_open_w. rewrite bind_modify. rewrite attributes_file_key.
  pose proof (utf8_decode_scalar _ _ Hd) as Hsc.
  pose proof (universal_newlines_no_cr t) as Hcr.
  pose proof (scalars_splitlines _ Hcr (universal_newlines_scalars _ Hsc)) as Hls.
  match goal with
  | |- context [for_each ?b ?ls tt ?st] =>
      destruct (write_kept_lines ls [] st Hls) as (e & He & Hrun)
  end.
  { cbn [files set_files]. apply lookup_insert_eq. }
  exists e. split; [exact He|]. rewrite Hrun. f_equal.
  destruct (files s !! attributes_key); cbn [files set_files app];
    rewrite ?insert_insert_eq; reflexivity.
Qed.

Lemma file_write_str_eq p s t e acc :
  utf8_encode t = Some e ->
  files s !! file_key p = Some acc ->
  file_write_str p t s = (Ok tt, set_files (<[file_key p := acc ++ e]> (files s)) s).
Proof.
  intros He Hacc. unfold file_write_str. rewrite He. cbn [or_raise]. run.
  unfold file_write, modify. rewrite (alter_lookup _ _ _ acc Hacc). reflexivity.
Qed.

Lemma install_fail s :
  utf8_decode (default [] (files s !! attributes_key)) = None ->
  install s = (Raise UnicodeDecodeError, set_config (config_removed (config s)) s).
Proof.
  intros Hd. unfold install. erewrite bind_raise; [reflexivity|].
  apply do_remove_fail, Hd.
Qed.

Lemma install_ok s t :
  utf8_decode (default [] (files s !! attributes_key)) = Some t ->
  exists e,
    utf8_encode (installed (removed (universal_newlines t))) = Some e
    /\ utf8_decode e = Some (installed (removed (universal_newlines t)))
    /\ install s
       = (Ok tt, set_files (<[attributes_key := e]> (files s))
                   (set_config (config_installed (config s)) s)).
Proof.
  intros Hd.
  pose proof (utf8_decode_scalar _ _ Hd) as Hsc.
  pose proof (universal_newlines_no_cr t) as Hcr.
  pose proof (universal_newlines_scalars _ Hsc) as Hsu.
  set (u := universal_newlines t) in *.
  pose proof (scalars_removed u Hcr Hsu) as HsR.
  destruct (removed_spec u Hcr) as (Hlf & _ & _).
  destruct (do_remove_ok s t Hd) as (e0 & He0 & Hrun). fold u in He0.
  destruct (scalars_encode _ HsR) as (e0' & He0' & Hd0).
  rewrite He0 in He0'. injection He0' as <-.
  set (R := removed u) in *.
  destruct (scalars_encode _ (scalars_strip _ HsR)) as (ed & Hed & _).
  unfold install. rewrite (bind_ok _ _ _ _ _ Hrun).
  unfold git_config_set. run.
  rewrite (bind_ok _ _ _ _ _ (touch_eq _ _)). rewrite attributes_file_key.
  cbn [files set_files set_config config].
  rewrite lookup_insert_eq.
  erewrite bind_ok;
    [| rewrite (file_read_str_eq _ _ e0)
         by (rewrite attributes_file_key; cbn [files set_files set_config];
             apply lookup_insert_eq);
       rewrite Hd0; reflexivity].
  rewrite (universal_newlines_id R (only_lf_no_cr _ Hlf)).
  unfold file_open_w. rewrite bind_modify. rewrite attributes_file_key.
  cbn [files set_files set_config config]. rewrite insert_insert_eq.
  assert (Hl1 : utf8_encode (cdcline ++ [LF]) = Some (blit "/.cdc/**/*.cdc binary filter=git_fastcdc" ++ [byte_of 10])).
  { vm_compute. reflexivity. }
  assert (Hl2 : utf8_encode (cdcattr ++ [LF]) = Some (blit "/.gitattributes text -binary -filter" ++ [byte_of 10])).
  { vm_compute. reflexivity. }
  set (e1 := blit "/.cdc/**/*.cdc binary filter=git_fastcdc" ++ [byte_of 10]) in *.
  set (e2 := blit "/.gitattributes text -binary -filter" ++ [byte_of 10]) in *.
  assert (Hres : utf8_encode reserved_lines = Some (e1 ++ e2)).
  { apply utf8_encode_app; assumption. }
  destruct (str_strip R) as [|a X] eqn:EX.
  - exists (e1 ++ e2). rewrite (installed_nil _ EX).
    split; [exact Hres|]. split.
    { vm_compute. reflexivity. }
    run.
    erewrite bind_ok;
      [| apply (file_write_str_eq _ _ _ e1 []); [exact Hl1|];
         rewrite attributes_file_key; cbn [files set_files]; apply lookup_insert_eq].
    rewrite (file_write_str_eq _ _ _ e2 ([] ++ e1) Hl2)
      by (rewrite attributes_file_key; cbn [files set_files]; apply lookup_insert_eq).
    rewrite attributes_file_key. cbn [files set_files set_config config app].
    rewrite !insert_insert_eq. reflexivity.
  - assert (Hdl : utf8_encode ((a :: X) ++ [LF]) = Some (ed ++ [byte_of 10])).
    { apply utf8_encode_app; [exact Hed | vm_compute; reflexivity]. }
    assert (Hall : utf8_encode (((a :: X) ++ [LF]) ++ reserved_lines)
                   = Some ((ed ++ [byte_of 10]) ++ e1 ++ e2)).
    { apply utf8_encode_app; assumption. }
    exists ((ed ++ [byte_of 10]) ++ e1 ++ e2).
    rewrite (installed_cons _ _ _ EX), EX.
    split; [exact Hall|]. split.
    { assert (Hs : scalars (((a :: X) ++ [LF]) ++ reserved_lines)).
      { rewrite <- EX. rewrite <- (installed_cons _ _ _ EX).
        apply scalars_installed, HsR. }
      destruct (scalars_encode _ Hs) as (e' & He' & Hd').
      rewrite Hall in He'. injection He' as <-. exact Hd'. }
    erewrite bind_ok;
      [| apply (file_write_str_eq _ _ _ (ed ++ [byte_of 10]) []); [exact Hdl|];
         rewrite attributes_file_key; cbn [files set_files]; apply lookup_insert_eq].
    erewrite bind_ok;
      [| apply (file_write_str_eq _ _ _ e1 ([] ++ ed ++ [byte_of 10])); [exact Hl1|];
         rewrite attributes_file_key; cbn [files set_files]; apply lookup_insert_eq].
    rewrite (file_write_str_eq _ _ _ e2 (([] ++ ed ++ [byte_of 10]) ++ e1) Hl2)
      by (rewrite attributes_file_key; cbn [files set_files]; apply lookup_insert_eq).
    rewrite attributes_file_key. cbn [files set_files set_config config].
    rewrite !insert_insert_eq. rewrite app_nil_l, <- !app_assoc. reflexivity.
Qed.

Ltac lookup_keys :=
  repeat (rewrite lookup_delete_eq
          || rewrite lookup_insert_eq
          || (rewrite lookup_delete_ne by congruence)
          || (rewrite lookup_insert_ne by congruence)).

Lemma config_removed_idem cfg : config_removed (config_removed cfg) = config_removed cfg.
Proof.
  unfold config_removed. apply map_eq. intros k.
  destruct (decide (lit "filter.git_fastcdc.required" = k)) as [<-|H1];
    [lookup_keys; reflexivity|].
  destruct (decide (lit "filter.git_fastcdc.process" = k)) as [<-|H2];
    lookup_keys; reflexivity.
Qed.

Lemma config_installed_idem cfg :
  config_installed (config_installed cfg) = config_installed cfg.
Proof.
  unfold config_installed, config_removed. apply map_eq. intros k.
  destruct (decide (lit "filter.git_fastcdc.required" = k)) as [<-|H1];
    [lookup_keys; reflexivity|].
  destruct (decide (lit "filter.git_fastcdc.process" = k)) as [<-|H2];
    lookup_keys; reflexivity.
Qed.

(** C5. Idempotent install: from every state of the attribute file and of the
    local configuration, running [install] a second time right after the first
    leaves the contents of [.gitattributes] and the values of
    [filter.git_fastcdc.process] and [filter.git_fastcdc.required] as the first
    run left them; the whole state and the outcome of the command are in fact
    the same. *)
Theorem install_idempotent (s : state) :
  let once := snd (install s) in
  let twice := snd (install once) in
  files twice !! attributes_key = files once !! attributes_key
  /\ config twice !! lit "filter.git_fastcdc.process"
     = config once !! lit "filter.git_fastcdc.process"
  /\ config twice !! lit "filter.git_fastcdc.required"
     = config once !! lit "filter.git_fastcdc.required"
  /\ install once = install s.
Proof.
  cbv zeta.
  assert (Hsame : install (snd (install s)) = install s).
  { destruct (utf8_decode (default [] (files s !! attributes_key))) as [t|] eqn:Hd.
    - destruct (install_ok s t Hd) as (e & He & Hde & Hrun). rewrite Hrun.
      cbn [snd].
      set (T := installed (removed (universal_newlines t))) in *.
      set (s1 := set_files _ _).
      assert (Hd1 : utf8_decode (default [] (files s1 !! attributes_key)) = Some T).
      { unfold s1. cbn [files set_files]. rewrite lookup_insert_eq. exact Hde. }
      destruct (install_ok s1 T Hd1) as (e' & He' & _ & Hrun'). rewrite Hrun'.
      destruct (installed_removed_idem _ (universal_newlines_no_cr t)) as [Hlf Hidem].
      fold T in Hlf, Hidem.
      rewrite (universal_newlines_id T (only_lf_no_cr _ Hlf)) in He'.
      rewrite Hidem, He in He'. injection He' as <-.
      unfold s1. cbn [files set_files config set_config].
      rewrite insert_insert_eq, config_installed_idem. reflexivity.
    - rewrite (install_fail s Hd). cbn [snd].
      rewrite install_fail by exact Hd.
      cbn [config set_config]. rewrite config_removed_idem. reflexivity. }
  rewrite Hsame. repeat split; reflexivity.
Qed.


(** ** The sweep *)

Lemma bind_inv {A B} (m : M A) (k : A -> M B) s b s' :
  bind m k s = (Ok b, s') ->
  exists a s1, m s = (Ok a, s1) /\ k a s1 = (Ok b, s').
Proof.
  unfold bind. destruct (m s) as [[a|e] s1]; intros Hk.
  - exists a, s1. split; [reflexivity | exact Hk].
  - discriminate Hk.
Qed.

Lemma or_raise_inv {A} e (o : option A) s a s' :
  or_raise e o s = (Ok a, s') -> o = Some a /\ s' = s.
Proof.
  destruct o as [x|]; cbn; intros Hr; [|discriminate Hr].
  injection Hr as <- <-. split; reflexivity.
Qed.

(** A loop keeps what every round keeps. *)
Lemma for_each_inv {A T} (body : A -> T -> M T) (I : list A -> T -> state -> Prop)
    (xs : list A) :
  (forall done x acc s acc' s',
      I done acc s -> In x xs -> body x acc s = (Ok acc', s') ->
      I (done ++ [x]) acc' s') ->
  forall done acc s acc' s',
    I done acc s ->
    for_each body xs acc s = (Ok acc', s') ->
    I (done ++ xs) acc' s'.
Proof.
  induction xs as [|x xs IH]; intros Hstep done acc s acc' s' HI Hrun.
  - cbn in Hrun. injection Hrun as <- <-. rewrite app_nil_r. exact HI.
  - cbn [for_each] in Hrun. apply bind_inv in Hrun as (acc1 & s1 & Hx & Hrest).
    replace (done ++ x :: xs) with ((done ++ [x]) ++ xs)
      by (rewrite <- app_assoc; reflexivity).
    apply (IH (fun done' y a t a' t' HI' Hy => Hstep done' y a t a' t' HI' (or_intror Hy))
              (done ++ [x]) acc1 s1); [|exact Hrest].
    apply (Hstep done x acc s); [exact HI | left; reflexivity | exact Hx].
Qed.

Lemma grows_refl fs : grows fs fs.
Proof. split; [reflexivity | tauto]. Qed.

Lemma grows_trans fs1 fs2 fs3 : grows fs1 fs2 -> grows fs2 fs3 -> grows fs1 fs3.
Proof.
  intros [H1 N1] [H2 N2]. split; [etransitivity; eassumption | tauto].
Qed.

Lemma normal_spec fs k c :
  normal fs = true -> fs !! k = Some c -> path_str (Path_of k) = k.
Proof.
  unfold normal. rewrite forallb_forall. intros Hn Hk.
  specialize (Hn (k, c)). cbn [fst] in Hn.
  eapply bool_decide_eq_true_1.
  apply Hn, list_elem_of_In, elem_of_map_to_list, Hk.
Qed.

Section Sweep.
Context `{Git} `{PyLib}.
Hypothesis staging : staging_keeps.

Lemma git_add_grows args s s' :
  git_add args s = (Ok tt, s') -> grows (files s) (files s').
Proof.
  unfold git_add. rewrite bind_get. intros Hrun.
  apply bind_inv in Hrun as (fs' & s1 & Hadd & Hmod).
  apply or_raise_inv in Hadd as [Hadd ->].
  unfold modify in Hmod. injection Hmod as <-. cbn [files set_files].
  apply (staging args), Hadd.
Qed.

Lemma names_added (blobs : gset str) (ls : list str) x :
  x ∈ foldl (fun blobs blob =>
               if fnmatch blob (lit "*.cdc") then {[blob]} ∪ blobs else blobs)
            blobs ls
  <-> x ∈ blobs \/ In x (List.filter (fun blob => fnmatch blob (lit "*.cdc")) ls).
Proof.
  revert blobs. induction ls as [|l ls IH]; intros blobs.
  - cbn. tauto.
  - cbn [foldl List.filter]. rewrite IH.
    destruct (fnmatch l (lit "*.cdc")).
    + cbn [In]. rewrite elem_of_union, elem_of_singleton. intuition congruence.
    + tauto.
Qed.

Lemma read_blobs_inv entry blobs s blobs' s' :
  read_blobs entry blobs s = (Ok blobs', s') ->
  grows (files s) (files s')
  /\ forall x, x ∈ blobs' <-> x ∈ blobs \/ In x (manifest_names entry).
Proof.
  unfold read_blobs. intros Hrun.
  apply bind_inv in Hrun as ([] & s1 & Hadd & Hrun).
  apply git_add_grows in Hadd.
  apply bind_inv in Hrun as (out & s2 & Hshow & Hrun).
  unfold git_show in Hshow. apply or_raise_inv in Hshow as [Hshow ->].
  apply bind_inv in Hrun as (text & s3 & Hdec & Hrun).
  apply or_raise_inv in Hdec as [Hdec ->].
  unfold ret in Hrun. injection Hrun as <- <-.
  split; [exact Hadd|]. intros x. rewrite names_added.
  unfold manifest_names. rewrite Hshow, Hdec. reflexivity.
Qed.

(** The tracked paths one pattern selects. *)
Lemma entries_inv pat (file_list : list str) blobs s blobs' s' :
  for_each (fun entry blobs =>
              if fnmatch entry pat then read_blobs entry blobs else ret blobs)
           file_list blobs s = (Ok blobs', s') ->
  grows (files s) (files s')
  /\ forall x, x ∈ blobs'
               <-> x ∈ blobs
                   \/ exists entry, In entry file_list /\ fnmatch entry pat = true
                                    /\ In x (manifest_names entry).
Proof.
  intros Hrun.
  pose (I := fun (done : list str) (b : gset str) (t : state) =>
               grows (files s) (files t)
               /\ forall x, x ∈ b
                            <-> x ∈ blobs
                                \/ exists entry, In entry done /\ fnmatch entry pat = true
                                                 /\ In x (manifest_names entry)).
  apply (for_each_inv _ I file_list) with (done := []) in Hrun; [exact Hrun| |].
  - clear Hrun. intros done e b t b' t' [Hg Hb] _ Hbody.
    destruct (fnmatch e pat) eqn:Hm.
    + apply read_blobs_inv in Hbody as [Hg' Hb']. split.
      * eapply grows_trans; eassumption.
      * intros x. rewrite Hb', Hb. split.
        -- intros [[Hx|(e' & He' & Hm' & Hx)]|Hx].
           ++ left. exact Hx.
           ++ right. exists e'. rewrite in_app_iff. tauto.
           ++ right. exists e. rewrite in_app_iff. cbn. tauto.
        -- intros [Hx|(e' & He' & Hm' & Hx)]; [tauto|].
           apply in_app_iff in He' as [He'|[<-|[]]].
           ++ left. right. exists e'. tauto.
           ++ right. exact Hx.
    + unfold ret in Hbody. injection Hbody as <- <-. split; [exact Hg|].
      intros x. rewrite Hb. split.
      * intros [Hx|(e' & He' & Hm' & Hx)]; [tauto|].
        right. exists e'. rewrite in_app_iff. tauto.
      * intros [Hx|(e' & He' & Hm' & Hx)]; [tauto|].
        apply in_app_iff in He' as [He'|[<-|[]]].
        -- right. exists e'. tauto.
        -- congruence.
  - split; [apply grows_refl|]. intros x. split; [tauto|].
    intros [Hx|(e & [] & _)]. exact Hx.
Qed.

Lemma pattern_of_spec line pat :
  pattern_of line = Some pat
  <-> exists tokens, shlex_split line = Some tokens /\ head tokens = Some pat.
Proof.
  unfold pattern_of. destruct (shlex_split line) as [[|p ts]|]; cbn.
  - split; [discriminate|]. intros (tokens & [= <-] & Hh). discriminate Hh.
  - split.
    + intros [= ->]. exists (pat :: ts). split; reflexivity.
    + intros (tokens & [= <-] & Hh). exact Hh.
  - split; [discriminate|]. intros (tokens & Ht & _). discriminate Ht.
Qed.

Lemma lines_inv (file_list lines : list str) s blobs s' :
  for_each (fun line blobs =>
              if contains (lit "filter=git_fastcdc") line
                 && negb (contains cdcline line)
              then
                tokens <- or_raise ValueError (shlex_split line) ;;
                pat <- or_raise IndexError (head tokens) ;;
                for_each (fun entry blobs =>
                            if fnmatch entry pat
                            then read_blobs entry blobs
                            else ret blobs) file_list blobs
              else ret blobs) lines ∅ s = (Ok blobs, s') ->
  grows (files s) (files s')
  /\ forall x, x ∈ blobs
               <-> exists line entry, In line lines /\ In entry file_list
                                      /\ selects line entry
                                      /\ In x (manifest_names entry).
Proof.
  intros Hrun.
  pose (I := fun (done : list str) (b : gset str) (t : state) =>
               grows (files s) (files t)
               /\ forall x, x ∈ b
                            <-> exists line entry, In line done /\ In entry file_list
                                                   /\ selects line entry
                                                   /\ In x (manifest_names entry)).
  apply (for_each_inv _ I lines) with (done := []) in Hrun; [exact Hrun| |].
  - clear Hrun. intros done l b t b' t' [Hg Hb] _ Hbody.
    fold (binding_line l) in Hbody.
    destruct (binding_line l) eqn:Hbl.
    + apply bind_inv in Hbody as (tokens & t1 & Htok & Hbody).
      apply or_raise_inv in Htok as [Htok ->].
      apply bind_inv in Hbody as (pat & t2 & Hpat & Hbody).
      apply or_raise_inv in Hpat as [Hpat ->].
      assert (Hpo : pattern_of l = Some pat).
      { apply pattern_of_spec. exists tokens. split; assumption. }
      apply entries_inv in Hbody as [Hg' Hb']. split.
      * eapply grows_trans; eassumption.
      * intros x. rewrite Hb', Hb. split.
        -- intros [(l' & e & Hl' & He & Hsel & Hx)|(e & He & Hm & Hx)].
           ++ exists l', e. rewrite in_app_iff. tauto.
           ++ exists l, e. rewrite in_app_iff. cbn [In].
              split; [tauto|]. split; [exact He|]. split; [|exact Hx].
              split; [exact Hbl|]. exists pat. split; assumption.
        -- intros (l' & e & Hl' & He & Hsel & Hx).
           apply in_app_iff in Hl' as [Hl'|[<-|[]]].
           ++ left. exists l', e. tauto.
           ++ right. exists e. split; [exact He|]. split; [|exact Hx].
              destruct Hsel as (_ & pat' & Hpo' & Hm).
              rewrite Hpo in Hpo'. injection Hpo' as <-. exact Hm.
    + unfold ret in Hbody. injection Hbody as <- <-. split; [exact Hg|].
      intros x. rewrite Hb. split.
      * intros (l' & e & Hl' & Hrest). exists l', e. rewrite in_app_iff. tauto.
      * intros (l' & e & Hl' & He & Hsel & Hx).
        apply in_app_iff in Hl' as [Hl'|[<-|[]]].
        -- exists l', e. tauto.
        -- destruct Hsel as [Hsel _]. congruence.
  - split; [apply grows_refl|]. intros x. split.
    + intros Hx. apply elem_of_empty in Hx. destruct Hx.
    + intros (l & e & [] & _).
Qed.

Lemma bound_spec attrs entry :
  bound attrs entry = true
  <-> exists line, In line (readlines attrs) /\ selects line entry.
Proof.
  unfold bound, selects. rewrite existsb_exists. split.
  - intros (line & Hl & Hb). apply andb_true_iff in Hb as [Hb Hp].
    exists line. split; [exact Hl|]. split; [exact Hb|].
    destruct (pattern_of line) as [pat|]; [|discriminate Hp].
    exists pat. split; [reflexivity | exact Hp].
  - intros (line & Hl & Hb & pat & Hp & Hm). exists line. split; [exact Hl|].
    rewrite Hb, Hp. exact Hm.
Qed.

Lemma live_spec attrs x :
  live attrs x = true
  <-> exists line entry,
        In line (readlines attrs)
        /\ In entry (List.filter considered tracked)
        /\ selects line entry
        /\ In x (manifest_names entry).
Proof.
  unfold live. rewrite existsb_exists. split.
  - intros (entry & He & Hc). apply andb_true_iff in Hc as [Hc Hx].
    apply andb_true_iff in Hc as [Hc Hb].
    apply bound_spec in Hb as (line & Hl & Hsel).
    apply bool_decide_eq_true in Hx. apply list_elem_of_In in Hx.
    exists line, entry. rewrite filter_In. tauto.
  - intros (line & entry & Hl & He & Hsel & Hx). apply filter_In in He as [He Hc].
    exists entry. split; [exact He|]. rewrite Hc. cbn [andb].
    apply andb_true_iff. split.
    + apply bound_spec. exists line. tauto.
    + apply bool_decide_eq_true, list_elem_of_In, Hx.
Qed.

(** What the deletion loop leaves. *)
Lemma prune_blobs_loop (blobs : gset str) (l : list Path) : forall s s',
  for_each (fun file _ =>
              if bool_decide (name file ∈ blobs) then ret tt else unlink file)
           l tt s = (Ok tt, s') ->
  files s' ⊆ files s
  /\ (forall p, In p l -> name p ∉ blobs -> files s' !! file_key p = None)
  /\ (forall k, (forall p, In p l -> file_key p = k -> name p ∈ blobs) ->
                files s' !! k = files s !! k).
Proof.
  induction l as [|p l IH]; intros s s' Hrun.
  - cbn in Hrun. injection Hrun as <-. split; [reflexivity|].
    split; [intros p []|reflexivity].
  - cbn [for_each] in Hrun. apply bind_inv in Hrun as ([] & s1 & Hp & Hrest).
    apply IH in Hrest as (Hsub & Hdel & Hkeep).
    destruct (bool_decide (name p ∈ blobs)) eqn:Hin.
    + unfold ret in Hp. injection Hp as <-. split; [exact Hsub|]. split.
      * intros q [<-|Hq] Hn; [|apply Hdel; assumption].
        apply bool_decide_eq_true in Hin. contradiction.
      * intros k Hk. apply Hkeep. intros q Hq. apply Hk. right. exact Hq.
    + apply bool_decide_eq_false in Hin.
      unfold unlink in Hp. rewrite bind_get in Hp.
      destruct (files s !! file_key p) as [c|] eqn:Hc; [|discriminate Hp].
      unfold modify in Hp. injection Hp as <-. cbn [files set_files] in *.
      split; [|split].
      * etransitivity; [exact Hsub|]. apply delete_subseteq.
      * intros q [<-|Hq] Hn; [|apply Hdel; assumption].
        eapply lookup_weaken_None; [|exact Hsub]. apply lookup_delete_eq.
      * intros k Hk. rewrite Hkeep by (intros q Hq; apply Hk; right; exact Hq).
        apply lookup_delete_ne. intros <-.
        apply Hin, (Hk p); [left|]; reflexivity.
Qed.




Lemma path_exists_eq p s : path_exists p s = (Ok (exists_in (files s) (file_key p)), s).
Proof. reflexivity. Qed.


Lemma file_read_str_inv p s text s' :
  file_read_str p s = (Ok text, s') ->
  exists c t, files s !! file_key p = Some c /\ utf8_decode c = Some t
              /\ text = universal_newlines t /\ s' = s.
Proof.
  intros Hrun. destruct (files s !! file_key p) as [c|] eqn:Hc.
  - rewrite (file_read_str_eq _ _ _ Hc) in Hrun.
    destruct (utf8_decode c) as [t|] eqn:Ht; [|discriminate Hrun].
    injection Hrun as <- <-. exists c, t.
    split; [reflexivity|]. split; [exact Ht|]. split; reflexivity.
  - unfold file_read_str, file_content in Hrun.
    apply bind_inv in Hrun as (c & s1 & Hrun & _).
    rewrite bind_get, Hc in Hrun. discriminate Hrun.
Qed.

(** The names the first part of [prune] collects are the live set. *)
Lemma collect_inv ls s blobs s' :
  ls_files_stdout = Some ls ->
  (if exists_in (files s) attributes_key then
     text <- file_read_str (Path_of (lit ".gitattributes")) ;;
     for_each (fun line blobs =>
                 if contains (lit "filter=git_fastcdc") line
                    && negb (contains cdcline line)
                 then
                   tokens <- or_raise ValueError (shlex_split line) ;;
                   pat <- or_raise IndexError (head tokens) ;;
                   for_each (fun entry blobs =>
                               if fnmatch entry pat
                               then read_blobs entry blobs
                               else ret blobs)
                            (List.filter considered (map str_strip (splitlines ls))) blobs
                 else ret blobs) (readlines text) ∅
   else ret ∅) s = (Ok blobs, s') ->
  grows (files s) (files s')
  /\ forall x, x ∈ blobs <-> live (attributes_text s) x = true.
Proof.
  intros Hls Hrun.
  assert (Htr : tracked = map str_strip (splitlines ls)).
  { unfold tracked. rewrite Hls. reflexivity. }
  destruct (exists_in (files s) attributes_key) eqn:Hex.
  - apply bind_inv in Hrun as (text & s1 & Hread & Hrun).
    apply file_read_str_inv in Hread as (c & t & Hc & Ht & -> & ->).
    rewrite attributes_file_key in Hc.
    apply lines_inv in Hrun as [Hg Hb]. split; [exact Hg|].
    intros x. rewrite Hb, live_spec. unfold attributes_text. rewrite Hc, Ht, Htr.
    split.
    + intros (l & e & Hl & He & Hrest). exists l, e. tauto.
    + intros (l & e & Hl & He & Hrest). exists l, e. tauto.
  - unfold ret in Hrun. injection Hrun as <- <-. split; [apply grows_refl|].
    intros x. rewrite live_spec. unfold attributes_text.
    unfold exists_in in Hex. apply orb_false_iff in Hex as [Hex _].
    apply bool_decide_eq_false in Hex.
    destruct (files s !! attributes_key) as [c|]; [exfalso; apply Hex; eexists; reflexivity|].
    split.
    + intros Hx. apply elem_of_empty in Hx. destruct Hx.
    + intros (l & e & [] & _).
Qed.
End Sweep.




(** * Further properties of the module *)

(** ** Packets written and read back *)



(** X2.  The end of the input, a flush packet and a data packet without
    payload all read as the empty payload, which ends the loops over the
    packets: the end of the input is not an error. *)
Theorem read_pkt_line_empty (rest : bytes) (s : state) :
  (stdin s = [] -> stdin_broken s = false -> read_pkt_line s = (Ok [], s))
  /\ (stdin s = blit "0000" ++ rest -> read_pkt_line s = (Ok [], set_stdin rest s))
  /\ (stdin s = blit "0004" ++ rest -> read_pkt_line s = (Ok [], set_stdin rest s)).
Proof.
  split; [|split].
  - intros Hs Hb. unfold read_pkt_line.
    assert (Hrd : read 4 s = (Ok [], s)).
    { change 4%Z with (Z.of_nat 4). rewrite read_short by (rewrite Hs; cbn; lia).
      rewrite Hb, Hs. destruct s; cbn in *; subst; reflexivity. }
    rewrite (bind_ok _ _ _ _ _ Hrd). reflexivity.
  - apply read_pkt_line_flush.
  - intros Hs. unfold read_pkt_line.
    assert (Hrd : read 4 s = (Ok (blit "0004"), set_stdin rest s)).
    { change 4%Z with (Z.of_nat 4). rewrite read_exact by (rewrite Hs; cbn; lia).
      rewrite Hs. reflexivity. }
    rewrite (bind_ok _ _ _ _ _ Hrd). vm_compute. reflexivity.
Qed.

Lemma read_pkt_line_empty_witness :
  read_pkt_line (input_state [] false) = (Ok [], input_state [] false)
  /\ read_pkt_line (input_state (blit "00040008abcd") false)
     = (Ok [], input_state (blit "0008abcd") false).
Proof.
  split.
  - apply (proj1 (read_pkt_line_empty [] (input_state [] false))); reflexivity.
  - apply (proj2 (proj2 (read_pkt_line_empty (blit "0008abcd")
                           (input_state (blit "00040008abcd") false)))).
    reflexivity.
Defined.

(** ** The handlers for paths below [.cdc/] *)

Lemma foldl_snoc {A} (l : list A) : forall acc,
  foldl (fun a p => a ++ [p]) acc l = acc ++ l.
Proof.
  induction l as [|x l IH]; intros acc; cbn [foldl].
  - rewrite app_nil_r. reflexivity.
  - rewrite IH, <- app_assoc. reflexivity.
Qed.

Lemma foldl_const {A B} (l : list A) (b : B) : foldl (fun s _ => s) b l = b.
Proof. induction l as [|x l IH]; [reflexivity | exact IH]. Qed.

(** X3.  [cat] answers a request with the payload packets as it read
    them, one packet for each, between [status=success] with a flush and two
    flushes. *)
Theorem cat_echo (pkts : list bytes) (rest : bytes) (s : state) :
  Forall payload_ok pkts ->
  stdin s = pkt_lines pkts ++ flush_line ++ rest ->
  cat s = (Ok tt,
           set_stdout (stdout s ++ pkt_line status_line ++ flush_line
                         ++ pkt_lines pkts ++ flush_line ++ flush_line)
                      (set_stdin rest s)).
Proof.
  intros Hok Hin. unfold cat.
  erewrite bind_ok;
    [| apply (while_read_pkt_lines _ (fun p a => a ++ [p]) (fun _ s => s) pkts rest);
       [reflexivity | reflexivity | reflexivity | exact Hok | exact Hin]].
  rewrite foldl_snoc, foldl_const. cbn [app].
  rewrite (bind_ok _ _ _ _ _ (write_status_eq _)).
  rewrite (bind_ok _ _ _ _ _ (flush_pkt_eq _)).
  rewrite (bind_ok _ _ _ _ _ (write_pkt_lines_eq _ _)).
  rewrite (bind_ok _ _ _ _ _ (flush_pkt_eq _)).
  rewrite flush_pkt_eq. cbn [stdout set_stdout set_stdin].
  rewrite <- !app_assoc. reflexivity.
Qed.

Lemma cat_echo_witness :
  cat (input_state (blit "0006ab0005c0000") false)
  = (Ok tt, mkState [] false
               (blit "0013status=success" ++ [x0a] ++ blit "00000006ab0005c00000000")
               ∅ ∅ ∅ None).
Proof.
  apply (cat_echo [blit "ab"; blit "c"] [] (input_state (blit "0006ab0005c0000") false)).
  - repeat constructor; try discriminate; vm_compute; discriminate.
  - reflexivity.
Defined.

Lemma read_carried (p : bytes) (line : str) (rest : bytes) (s : state) :
  carries p line -> stdin s = pkt_line p ++ rest ->
  read_pkt_line_str s = (Ok line, set_stdin rest s).
Proof.
  intros (Hok & text & Hd & <-) Hin. exact (read_pkt_line_str_frame p rest text s Hok Hd Hin).
Qed.

Lemma git_get_blob_key hash key s :
  utf8_encode hash = Some key ->
  git_get_blob hash s
  = match objects s !! key with
    | Some d => (Ok d, s)
    | None => (Raise CalledProcessError, s)
    end.
Proof.
  intros Hk. unfold git_get_blob. rewrite Hk. cbn [or_raise]. rewrite bind_ret, bind_get.
  destruct (objects s !! key); reflexivity.
Qed.

(** X4.  [clean_cdc] takes the one payload packet for the name of a blob
    and answers with the bytes of that blob, cut into packets of at most
    65516 bytes that read back in order as the blob.  A blob git does not
    have ends the session after [status=success] went out, and a payload of
    two packets ends it before anything is written. *)
Theorem clean_cdc_answer (pathname : Path) (p : bytes) (hash : str) (key : bytes)
    (rest : bytes) (s : state) :
  carries p hash ->
  utf8_encode hash = Some key ->
  (forall d,
      stdin s = pkt_line p ++ flush_line ++ rest ->
      objects s !! key = Some d ->
      clean_cdc pathname s
      = (Ok tt,
         set_stdout (stdout s ++ pkt_line status_line ++ flush_line
                       ++ pkt_lines (chunk_string d) ++ flush_line ++ flush_line)
                    (set_stdin rest s))
      /\ concat (chunk_string d) = d)
  /\ (stdin s = pkt_line p ++ flush_line ++ rest ->
      objects s !! key = None ->
      clean_cdc pathname s
      = (Raise CalledProcessError,
         set_stdout (stdout s ++ pkt_line status_line ++ flush_line)
                    (set_stdin rest s)))
  /\ (forall q line,
         carries q line -> line <> [] ->
         stdin s = pkt_line p ++ pkt_line q ++ rest ->
         clean_cdc pathname s = (Raise AssertionError, set_stdin rest s)).
Proof.
  intros Hp Hkey. split; [|split].
  - intros d Hin Hd. split; [|apply chunk_string_concat].
    unfold clean_cdc.
    rewrite (bind_ok _ _ _ _ _ (read_carried p hash _ s Hp Hin)).
    erewrite bind_ok; [|apply (read_pkt_line_str_flush rest); reflexivity].
    cbn [bool_decide decide_rel]. rewrite bool_decide_eq_true_2 by reflexivity.
    cbn [py_assert]. rewrite bind_ret.
    rewrite (bind_ok _ _ _ _ _ (write_status_eq _)).
    rewrite (bind_ok _ _ _ _ _ (flush_pkt_eq _)).
    erewrite bind_ok; [|rewrite (git_get_blob_key _ _ _ Hkey); cbn [objects set_stdout set_stdin];
                        rewrite Hd; reflexivity].
    rewrite (bind_ok _ _ _ _ _ (write_pkt_lines_eq _ _)).
    rewrite (bind_ok _ _ _ _ _ (flush_pkt_eq _)).
    rewrite flush_pkt_eq. cbn [stdout set_stdout set_stdin].
    rewrite <- !app_assoc. reflexivity.
  - intros Hin Hd. unfold clean_cdc.
    rewrite (bind_ok _ _ _ _ _ (read_carried p hash _ s Hp Hin)).
    erewrite bind_ok; [|apply (read_pkt_line_str_flush rest); reflexivity].
    rewrite bool_decide_eq_true_2 by reflexivity.
    cbn [py_assert]. rewrite bind_ret.
    rewrite (bind_ok _ _ _ _ _ (write_status_eq _)).
    rewrite (bind_ok _ _ _ _ _ (flush_pkt_eq _)).
    erewrite bind_raise; [|rewrite (git_get_blob_key _ _ _ Hkey); cbn [objects set_stdout set_stdin];
                           rewrite Hd; reflexivity].
    cbn [stdout set_stdout set_stdin]. rewrite <- !app_assoc. reflexivity.
  - intros q line Hq Hne Hin. unfold clean_cdc.
    rewrite (bind_ok _ _ _ _ _ (read_carried p hash _ s Hp Hin)).
    erewrite bind_ok; [|apply (read_carried q line rest _ Hq); reflexivity].
    rewrite bool_decide_eq_false_2 by exact Hne.
    reflexivity.
Qed.

Lemma clean_cdc_answer_witness :
  let s := mkState (blit "0008abcd0000") false [] ∅ {[ blit "abcd" := blit "hello" ]} ∅ None in
  clean_cdc (Path_of (lit ".cdc/ab/cd/abcd.cdc")) s
  = (Ok tt,
     mkState [] false
             (blit "0013status=success" ++ [x0a] ++ blit "00000009hello00000000")
             ∅ {[ blit "abcd" := blit "hello" ]} ∅ None).
Proof.
  cbv zeta.
  assert (Hc : carries (blit "abcd") (lit "abcd")).
  { split; [split; [discriminate | vm_compute; discriminate]|].
    exists (lit "abcd"). split; reflexivity. }
  destruct (proj1 (clean_cdc_answer (Path_of (lit ".cdc/ab/cd/abcd.cdc")) (blit "abcd")
                     (lit "abcd") (blit "abcd") []
                     (mkState (blit "0008abcd0000") false [] ∅
                              {[ blit "abcd" := blit "hello" ]} ∅ None)
                     Hc eq_refl) (blit "hello")) as [Hrun _].
  - reflexivity.
  - vm_compute. reflexivity.
  - rewrite Hrun. vm_compute. reflexivity.
Defined.

(** ** The handshake *)

Lemma read_pkt_line_eof s :
  stdin s = [] -> stdin_broken s = false -> read_pkt_line s = (Ok [], s).
Proof.
  intros Hs Hb. unfold read_pkt_line.
  assert (Hrd : read 4 s = (Ok [], s)).
  { change 4%Z with (Z.of_nat 4). rewrite read_short by (rewrite Hs; cbn; lia).
    rewrite Hb, Hs. destruct s; cbn in *; subst; reflexivity. }
  rewrite (bind_ok _ _ _ _ _ Hrd). reflexivity.
Qed.

Lemma read_pkt_line_str_eof s :
  stdin s = [] -> stdin_broken s = false -> read_pkt_line_str s = (Ok [], s).
Proof.
  intros Hs Hb. unfold read_pkt_line_str.
  rewrite (bind_ok _ _ _ _ _ (read_pkt_line_eof s Hs Hb)). reflexivity.
Qed.

(** A loop over text packets whose body leaves the state alone on the lines
    it gets. *)
Section Carried.
Context {T : Type}.
Variable body : str -> T -> M T.
Variable P : str -> Prop.
Variable g : str -> T -> T.
Hypothesis body_keeps :
  forall x acc s r s', body x acc s = (r, s') -> length (stdin s') <= length (stdin s).
Hypothesis body_ok : forall line acc s, P line -> body line acc s = (Ok (g line acc), s).

Lemma while_carried (tail rest : bytes) (s0 : state) :
  (forall s, stdin s = tail -> stdin_broken s = stdin_broken s0 ->
             read_pkt_line_str s = (Ok [], set_stdin rest s)) ->
  forall (pls : list (bytes * str)) acc s,
    Forall (fun pl => carries (fst pl) (snd pl) /\ snd pl <> [] /\ P (snd pl)) pls ->
    stdin s = pkt_lines (map fst pls) ++ tail ->
    stdin_broken s = stdin_broken s0 ->
    while_pkt read_pkt_line_str body acc s
    = (Ok (foldl (fun a pl => g (snd pl) a) acc pls), set_stdin rest s).
Proof.
  intros Hend. induction pls as [|[p line] pls IH]; intros acc s Hall Hin Hb.
  - cbn [foldl]. apply while_pkt_stop. apply Hend; assumption.
  - apply Forall_cons in Hall as [(Hc & Hne & HP) Hall]. cbn [fst snd] in *.
    unfold pkt_lines in Hin. cbn [map concat] in Hin. rewrite <- app_assoc in Hin.
    fold (pkt_lines (map fst pls)) in Hin.
    pose proof (read_carried p line _ s Hc Hin) as Hrd.
    destruct line as [|c l]; [congruence|].
    rewrite (while_pkt_step read_pkt_line_str body read_pkt_line_str_consumes
               body_keeps acc s c l _ Hrd).
    unfold bind at 1. rewrite (body_ok (c :: l) acc _ HP).
    rewrite (IH (g (c :: l) acc) (set_stdin (pkt_lines (map fst pls) ++ tail) s) Hall);
      [reflexivity | reflexivity | exact Hb].
Qed.
End Carried.


Lemma capabilities_elem (caps : list str) (acc : gset str) x :
  x ∈ foldl (fun a cap => {[cap]} ∪ a) acc caps <-> x ∈ acc \/ In x caps.
Proof.
  revert acc. induction caps as [|c caps IH]; intros acc; cbn [foldl In].
  - tauto.
  - rewrite IH, elem_of_union, elem_of_singleton. intuition congruence.
Qed.

Lemma offers_spec cap lines :
  offers cap lines = true <-> In cap (map capability_of lines).
Proof.
  unfold offers. rewrite existsb_exists, in_map_iff. split.
  - intros (l & Hl & Hc). apply bool_decide_eq_true in Hc. exists l. tauto.
  - intros (l & Hc & Hl). exists l. split; [exact Hl|]. apply bool_decide_eq_true, Hc.
Qed.

(** X5.  The handshake.  To a host that sends [git-filter-client],
    [version=2], a flush, its capabilities and a flush, the session answers
    [git-filter-server], [version=2] and a flush, and then, when [clean] and
    [smudge] are both offered, [capability=clean], [capability=smudge] and a
    flush, whatever else is offered; when the input ends there, the session
    ends without an error.  When one of the two is not offered the session
    ends with an [AssertionError] after its greeting. *)
Theorem process_handshake `{Git} `{FastCDC}
    (p1 p2 : bytes) (cps : list (bytes * str)) (s : state) :
  carries p1 (lit "git-filter-client") ->
  carries p2 (lit "version=2") ->
  Forall (fun pl => carries (fst pl) (snd pl)
                    /\ fst (partition_eq (snd pl)) = lit "capability") cps ->
  stdin s = pkt_line p1 ++ pkt_line p2 ++ flush_line
              ++ pkt_lines (map fst cps) ++ flush_line ->
  stdin_broken s = false ->
  process s
  = if offers (lit "clean") (map snd cps) && offers (lit "smudge") (map snd cps)
    then (Ok tt, set_stdout (stdout s ++ greeting ++ advertisement) (set_stdin [] s))
    else (Raise AssertionError, set_stdout (stdout s ++ greeting) (set_stdin [] s)).
Proof.
  intros Hp1 Hp2 Hcps Hin Hb. unfold process, expect.
  rewrite bind_assoc. rewrite (bind_ok _ _ _ _ _ (read_carried p1 _ _ s Hp1 Hin)).
  rewrite bool_decide_eq_true_2 by reflexivity. cbn [py_assert]. rewrite bind_ret.
  rewrite bind_assoc.
  erewrite bind_ok; [|eapply (read_carried p2); [exact Hp2 | reflexivity]].
  rewrite bool_decide_eq_true_2 by reflexivity. cbn [py_assert]. rewrite bind_ret.
  erewrite bind_ok; [|apply (write_pkt_line_str_eq _ (blit "git-filter-server")); reflexivity].
  erewrite bind_ok; [|apply (write_pkt_line_str_eq _ (blit "version=2")); reflexivity].
  rewrite (bind_ok _ _ _ _ _ (flush_pkt_eq _)).
  rewrite bind_assoc.
  erewrite bind_ok; [|apply (read_pkt_line_str_flush (pkt_lines (map fst cps) ++ flush_line));
                      reflexivity].
  rewrite bool_decide_eq_true_2 by reflexivity. cbn [py_assert]. rewrite bind_ret.
  cbn [stdout set_stdout set_stdin].
  set (s1 := set_stdin _ (set_stdout _ _)).
  erewrite bind_ok.
  2:{ apply (while_carried _ (fun line => fst (partition_eq line) = lit "capability")
               (fun line acc => {[capability_of line]} ∪ acc)) with (s0 := s1)
        (tail := flush_line) (rest := []) (pls := cps).
      - intros x acc t r t'. destruct (partition_eq x) as [k c].
        destruct (bool_decide (k = lit "capability")); cbn; intros [= <- <-]; lia.
      - intros line acc t HP. unfold capability_of.
        destruct (partition_eq line) as [k c]. cbn [fst snd] in *. subst k.
        rewrite bool_decide_eq_true_2 by reflexivity. reflexivity.
      - intros t Ht _. apply (read_pkt_line_str_flush []). rewrite Ht. reflexivity.
      - eapply Forall_impl; [exact Hcps|]. intros [p l] [Hc Hk]. cbn [fst snd] in *.
        split; [exact Hc|]. split; [|exact Hk].
        intros ->. discriminate Hk.
      - reflexivity.
      - reflexivity. }
  set (capability := foldl _ _ _).
  assert (Hcap : forall x, x ∈ capability <-> In x (map capability_of (map snd cps))).
  { intros x. unfold capability.
    replace (foldl (fun a pl => {[capability_of (snd pl)]} ∪ a) ∅ cps)
      with (foldl (fun a cap => {[cap]} ∪ a) (∅ : gset str)
                  (map capability_of (map snd cps))).
    - rewrite capabilities_elem. rewrite elem_of_empty. tauto.
    - clear. generalize (∅ : gset str).
      induction cps as [|pl cps IH]; intros acc; [reflexivity|]. cbn [map foldl]. apply IH. }
  destruct (offers (lit "clean") (map snd cps) && offers (lit "smudge") (map snd cps))
    eqn:Hoff.
  - apply andb_true_iff in Hoff as [Hc Hs].
    apply offers_spec in Hc, Hs.
    rewrite bool_decide_eq_true_2.
    2:{ intros x Hx. apply Hcap. apply elem_of_union in Hx as [Hx|Hx];
          apply elem_of_singleton in Hx; subst x; assumption. }
    cbn [py_assert]. rewrite bind_ret.
    erewrite bind_ok; [|apply (write_pkt_line_str_eq _ (blit "capability=clean")); reflexivity].
    erewrite bind_ok; [|apply (write_pkt_line_str_eq _ (blit "capability=smudge")); reflexivity].
    rewrite (bind_ok _ _ _ _ _ (flush_pkt_eq _)).
    erewrite bind_ok; [|apply while_pkt_stop; apply read_pkt_line_str_eof; [reflexivity|exact Hb]].
    unfold ret, s1, greeting, advertisement. cbn [stdout set_stdout set_stdin].
    rewrite <- !app_assoc. reflexivity.
  - rewrite bool_decide_eq_false_2.
    2:{ intros Hsub. apply andb_false_iff in Hoff as [Hoff|Hoff];
          apply not_true_iff_false in Hoff; apply Hoff, offers_spec, Hcap, Hsub.
        - apply elem_of_union_l, elem_of_singleton. reflexivity.
        - apply elem_of_union_r, elem_of_singleton. reflexivity. }
    unfold s1, greeting. cbn. rewrite <- !app_assoc. reflexivity.
Qed.

Lemma process_handshake_witness :
  @process example_git example_cdc
    (input_state (blit "0016git-filter-client" ++ [x0a] ++ blit "000eversion=2" ++ [x0a]
                  ++ blit "0000"
                  ++ blit "0015capability=clean" ++ [x0a]
                  ++ blit "0016capability=smudge" ++ [x0a]
                  ++ blit "0015capability=delay" ++ [x0a] ++ blit "0000") false)
  = (Ok tt,
     mkState [] false
             (blit "0015git-filter-server000dversion=20000"
              ++ blit "0014capability=clean0015capability=smudge0000")
             ∅ ∅ ∅ None).
Proof.
  assert (Hc : forall text : string,
             payload_ok (blit text ++ [x0a]) ->
             utf8_decode (blit text ++ [x0a]) = Some (lit text ++ [LF]) ->
             str_strip (lit text ++ [LF]) = lit text ->
             carries (blit text ++ [x0a]) (lit text)).
  { intros text Hok Hd Hs. split; [exact Hok|]. eexists. split; [exact Hd | exact Hs]. }
  assert (Hok : forall text : string,
             (N.of_nat (length (blit text ++ [x0a])) <=? 65531)%N = true ->
             payload_ok (blit text ++ [x0a])).
  { intros text Hle. split; [destruct (blit text); discriminate|].
    apply N.leb_le, Hle. }
  apply (@process_handshake example_git example_cdc
           (blit "git-filter-client" ++ [x0a]) (blit "version=2" ++ [x0a])
           [(blit "capability=clean" ++ [x0a], lit "capability=clean");
            (blit "capability=smudge" ++ [x0a], lit "capability=smudge");
            (blit "capability=delay" ++ [x0a], lit "capability=delay")]).
  - apply Hc; [apply Hok|..]; vm_compute; reflexivity.
  - apply Hc; [apply Hok|..]; vm_compute; reflexivity.
  - repeat constructor; try (apply Hc; [apply Hok|..]; vm_compute; reflexivity).
  - vm_compute. reflexivity.
  - reflexivity.
Defined.

(** ** What remove and install leave *)

Lemma splitlines_unlines ls : Forall no_linebreak ls -> splitlines (unlines ls) = ls.
Proof.
  induction 1 as [|l ls Hl _ IH]; [reflexivity|].
  unfold unlines. cbn [map concat]. rewrite <- app_assoc. cbn [app].
  rewrite (splitlines_line l _ Hl). fold (unlines ls). rewrite IH. reflexivity.
Qed.

Lemma kept_lines data :
  no_cr data ->
  splitlines (removed data)
  = List.filter (fun line => negb (own_line line)) (splitlines data).
Proof.
  intros Hd. unfold removed. apply splitlines_unlines.
  pose proof (splitlines_no_linebreak data Hd) as Hls.
  apply Forall_forall. intros l Hl. apply list_elem_of_In, filter_In in Hl as [Hl _].
  rewrite Forall_forall in Hls. apply Hls, list_elem_of_In, Hl.
Qed.

Lemma filter_filter_same {A} (f : A -> bool) (l : list A) :
  List.filter f (List.filter f l) = List.filter f l.
Proof.
  induction l as [|x l IH]; [reflexivity|]. cbn [List.filter].
  destruct (f x) eqn:Hx; [|exact IH]. cbn [List.filter]. rewrite Hx, IH. reflexivity.
Qed.

Lemma removed_idem data : no_cr data -> removed (removed data) = removed data.
Proof.
  intros Hd. unfold removed at 1. rewrite (kept_lines data Hd), filter_filter_same.
  reflexivity.
Qed.

Lemma remove_ok s t :
  utf8_decode (default [] (files s !! attributes_key)) = Some t ->
  exists e,
    utf8_encode (removed (universal_newlines t)) = Some e
    /\ utf8_decode e = Some (removed (universal_newlines t))
    /\ do_remove s
       = (Ok tt, set_files (<[attributes_key := e]> (files s))
                   (set_config (config_removed (config s)) s)).
Proof.
  intros Hd. destruct (do_remove_ok s t Hd) as (e & He & Hrun).
  exists e. split; [exact He|]. split; [|exact Hrun].
  pose proof (utf8_decode_scalar _ _ Hd) as Hsc.
  pose proof (scalars_removed _ (universal_newlines_no_cr t)
                (universal_newlines_scalars _ Hsc)) as HsR.
  destruct (scalars_encode _ HsR) as (e' & He' & Hd').
  rewrite He in He'. injection He' as <-. exact Hd'.
Qed.

(** X6.  [remove], on an attribute file that is UTF-8 (or missing): the two
    configuration keys are unset, and the file afterwards holds the lines it
    had before that contain neither reserved line, in their order, each
    ended by a line feed; nothing else in the state changes. *)
Theorem remove_result (s : state) (t : str) :
  utf8_decode (default [] (files s !! attributes_key)) = Some t ->
  exists e after,
    remove s = (Ok tt, set_files (<[attributes_key := e]> (files s))
                         (set_config (config_removed (config s)) s))
    /\ utf8_decode e = Some after
    /\ splitlines after
       = List.filter (fun line => negb (contains cdcline line)
                                  && negb (contains cdcattr line))
                     (splitlines (universal_newlines t))
    /\ after = unlines (splitlines after)
    /\ config_removed (config s) !! lit "filter.git_fastcdc.process" = None
    /\ config_removed (config s) !! lit "filter.git_fastcdc.required" = None.
Proof.
  intros Hd. destruct (remove_ok s t Hd) as (e & He & Hde & Hrun).
  exists e, (removed (universal_newlines t)).
  pose proof (universal_newlines_no_cr t) as Hcr.
  split; [exact Hrun|]. split; [exact Hde|]. split; [|split; [|split]].
  - rewrite (kept_lines _ Hcr). apply filter_ext. intros l. unfold own_line.
    rewrite negb_orb. reflexivity.
  - rewrite (kept_lines _ Hcr). reflexivity.
  - unfold config_removed.
    rewrite lookup_delete_ne by (intros E; vm_compute in E; discriminate E).
    apply lookup_delete_eq.
  - unfold config_removed. apply lookup_delete_eq.
Qed.

Lemma remove_result_witness :
  let s := mkState [] false []
             {[ attributes_key :=
                  blit "*.bin filter=git_fastcdc" ++ [x0a]
                  ++ blit "/.cdc/**/*.cdc binary filter=git_fastcdc" ++ [x0a] ]}
             ∅ {[ lit "filter.git_fastcdc.required" := blit "true" ]} None in
  exists e after,
    remove s = (Ok tt, set_files (<[attributes_key := e]> (files s))
                         (set_config (config_removed (config s)) s))
    /\ utf8_decode e = Some after
    /\ splitlines after = [lit "*.bin filter=git_fastcdc"].
Proof.
  intros s.
  destruct (remove_result s
              (lit "*.bin filter=git_fastcdc" ++ [LF]
               ++ lit "/.cdc/**/*.cdc binary filter=git_fastcdc" ++ [LF]))
    as (e & after & Hrun & Hd & Hlines & _).
  - vm_compute. reflexivity.
  - exists e, after. split; [exact Hrun|]. split; [exact Hd|].
    rewrite Hlines. vm_compute. reflexivity.
Defined.

(** X7.  [remove] twice is [remove] once: the second run ends as the first
    did and leaves the state the first left. *)
Theorem remove_idempotent (s : state) :
  remove (snd (remove s)) = remove s.
Proof.
  unfold remove.
  destruct (utf8_decode (default [] (files s !! attributes_key))) as [t|] eqn:Hd.
  - destruct (remove_ok s t Hd) as (e & He & Hde & Hrun). rewrite Hrun. cbn [snd].
    set (R := removed (universal_newlines t)) in *.
    set (s1 := set_files _ _).
    assert (Hd1 : utf8_decode (default [] (files s1 !! attributes_key)) = Some R).
    { unfold s1. cbn [files set_files]. rewrite lookup_insert_eq. exact Hde. }
    destruct (remove_ok s1 R Hd1) as (e' & He' & _ & Hrun'). rewrite Hrun'.
    destruct (removed_spec _ (universal_newlines_no_cr t)) as (Hlf & _).
    fold R in Hlf.
    rewrite (universal_newlines_id R (only_lf_no_cr _ Hlf)) in He'.
    unfold R in He' at 1. rewrite removed_idem in He' by apply universal_newlines_no_cr.
    fold R in He'. rewrite He in He'. injection He' as <-.
    unfold s1. cbn [files set_files config set_config].
    rewrite insert_insert_eq, config_removed_idem. reflexivity.
  - rewrite (do_remove_fail s Hd). cbn [snd].
    rewrite do_remove_fail by exact Hd.
    cbn [config set_config]. rewrite config_removed_idem. reflexivity.
Qed.

Lemma installed_lines R :
  only_lf R ->
  splitlines (installed R) = splitlines (str_strip R) ++ [cdcline; cdcattr].
Proof.
  intros Hlf.
  destruct (strip_by_spec isspace R) as [(t1 & t2 & HR) Hends].
  fold (str_strip R) in HR, Hends.
  assert (HlfD : only_lf (str_strip R)).
  { unfold only_lf in *. rewrite HR in Hlf.
    apply Forall_app in Hlf as [_ Hlf]. apply Forall_app in Hlf as [Hlf _].
    exact Hlf. }
  destruct Hends as [HD|(a & X & Y & z & Ha & HY & Hsa & Hsz)].
  - rewrite (installed_nil R HD), HD. vm_compute. reflexivity.
  - rewrite (installed_cons R a X Ha). rewrite HY in *.
    assert (Hz : is_linebreak z = false) by (apply not_space_not_linebreak, Hsz).
    assert (HlfY : only_lf Y).
    { unfold only_lf in *. apply Forall_app in HlfD. apply HlfD. }
    rewrite <- app_assoc. cbn [app].
    rewrite (splitlines_app_lf Y z Hz _ HlfY). f_equal.
Qed.

(** X8.  [install], on an attribute file that is UTF-8 (or missing): the
    two configuration keys hold [git-fastcdc process] and [true], and the
    file afterwards holds the lines [remove] leaves, without the white space
    at the start and the end of the text, and then the two reserved
    lines. *)
Theorem install_result (s : state) (t : str) :
  utf8_decode (default [] (files s !! attributes_key)) = Some t ->
  exists e after,
    install s = (Ok tt, set_files (<[attributes_key := e]> (files s))
                          (set_config (config_installed (config s)) s))
    /\ utf8_decode e = Some after
    /\ splitlines after
       = splitlines (str_strip (removed (universal_newlines t)))
         ++ [cdcline; cdcattr]
    /\ config_installed (config s) !! lit "filter.git_fastcdc.process"
       = Some (blit "git-fastcdc process")
    /\ config_installed (config s) !! lit "filter.git_fastcdc.required"
       = Some (blit "true").
Proof.
  intros Hd. destruct (install_ok s t Hd) as (e & He & Hde & Hrun).
  exists e, (installed (removed (universal_newlines t))).
  split; [exact Hrun|]. split; [exact Hde|]. split; [|split].
  - apply installed_lines.
    apply (removed_spec _ (universal_newlines_no_cr t)).
  - unfold config_installed.
    rewrite lookup_insert_ne by (intros E; vm_compute in E; discriminate E).
    apply lookup_insert_eq.
  - unfold config_installed. apply lookup_insert_eq.
Qed.

Lemma install_result_witness :
  let s := mkState [] false []
             {[ attributes_key := [x0a] ++ blit "*.bin filter=git_fastcdc" ]}
             ∅ ∅ None in
  exists e after,
    install s = (Ok tt, set_files (<[attributes_key := e]> (files s))
                          (set_config (config_installed (config s)) s))
    /\ utf8_decode e = Some after
    /\ splitlines after = [lit "*.bin filter=git_fastcdc"; cdcline; cdcattr].
Proof.
  intros s.
  destruct (install_result s ([LF] ++ lit "*.bin filter=git_fastcdc"))
    as (e & after & Hrun & Hd & Hlines & _).
  - vm_compute. reflexivity.
  - exists e, after. split; [exact Hrun|]. split; [exact Hd|].
    rewrite Hlines. vm_compute. reflexivity.
Defined.

(** X9.  On an attribute file that is not UTF-8, [install] and [remove]
    end with a [UnicodeDecodeError]: the file is left as it was, but the two
    configuration keys are unset by then. *)
Theorem install_undecodable (s : state) :
  utf8_decode (default [] (files s !! attributes_key)) = None ->
  install s = (Raise UnicodeDecodeError, set_config (config_removed (config s)) s)
  /\ remove s = (Raise UnicodeDecodeError, set_config (config_removed (config s)) s)
  /\ files (snd (install s)) = files s.
Proof.
  intros Hd. rewrite (install_fail s Hd). unfold remove.
  rewrite (do_remove_fail s Hd). repeat split.
Qed.

Lemma install_undecodable_witness :
  let s := mkState [] false [] {[ attributes_key := [xff] ]} ∅
                   {[ lit "filter.git_fastcdc.required" := blit "true" ]} None in
  install s = (Raise UnicodeDecodeError, set_config (config_removed (config s)) s)
  /\ remove s = (Raise UnicodeDecodeError, set_config (config_removed (config s)) s)
  /\ files (snd (install s)) = files s.
Proof.
  intros s. apply (install_undecodable s). vm_compute. reflexivity.
Defined.

(** ** The mode of the clean handler *)

Lemma strip_by_snoc_space {A} (sp : A -> bool) (l : list A) (t : A) :
  sp t = true -> strip_by sp (l ++ [t]) = strip_by sp l.
Proof.
  intros Ht. unfold strip_by.
  assert (Hl : lstrip_by sp (l ++ [t])
               = match lstrip_by sp l with [] => [] | _ :: _ => lstrip_by sp l ++ [t] end).
  { induction l as [|c l IH]; cbn [app lstrip_by].
    - rewrite Ht. reflexivity.
    - destruct (sp c); [exact IH | reflexivity]. }
  rewrite Hl. destruct (lstrip_by sp l) as [|c l'] eqn:E; [reflexivity|].
  apply rstrip_by_snoc_space, Ht.
Qed.

(** X10.  [ondisk] asks git once.  The first call stores its answer, which
    is [true] exactly when [fastcdc.ondisk] is set and its value, without
    the white space around it, is the word [true]; every later call gives
    the stored answer, whatever the configuration has become. *)
Theorem ondisk_memo (s : state) (cfg' : gmap str bytes) :
  _ondisk s = None ->
  let v := match config s !! lit "fastcdc.ondisk" with
           | Some c => bool_decide (bytes_strip c = blit "true")
           | None => false
           end in
  ondisk s = (Ok v, set_ondisk (Some v) s)
  /\ ondisk (set_config cfg' (snd (ondisk s)))
     = (Ok v, set_config cfg' (snd (ondisk s))).
Proof.
  intros Hm. cbv zeta.
  assert (Hfirst : ondisk s
                   = (Ok match config s !! lit "fastcdc.ondisk" with
                         | Some c => bool_decide (bytes_strip c = blit "true")
                         | None => false
                         end,
                      set_ondisk
                        (Some match config s !! lit "fastcdc.ondisk" with
                              | Some c => bool_decide (bytes_strip c = blit "true")
                              | None => false
                              end) s)).
  { unfold ondisk. rewrite bind_get, Hm. unfold git_config_ondisk.
    rewrite bind_assoc, bind_get, bind_ret.
    destruct (config s !! lit "fastcdc.ondisk") as [c|]; [|reflexivity].
    unfold bytes_strip. rewrite strip_by_snoc_space by reflexivity. reflexivity. }
  split; [exact Hfirst|]. rewrite Hfirst. reflexivity.
Qed.

Lemma ondisk_memo_witness :
  let s := mkState [] false [] ∅ ∅ {[ lit "fastcdc.ondisk" := blit " true" ]} None in
  ondisk s = (Ok true, set_ondisk (Some true) s)
  /\ ondisk (set_config ∅ (snd (ondisk s))) = (Ok true, set_config ∅ (snd (ondisk s))).
Proof.
  intros s. apply (ondisk_memo s ∅). reflexivity.
Defined.

(** ** The two clean handlers *)










Lemma for_each_cons {A T} (body : A -> T -> M T) x xs acc s :
  for_each body (x :: xs) acc s
  = match body x acc s with
    | (Ok acc', s1) => for_each body xs acc' s1
    | (Raise e, s1) => (Raise e, s1)
    end.
Proof. reflexivity. Qed.

Section Modes.
Context `{Git} `{FastCDC}.
Hypothesis git_names :
  forall d out, hash_object_stdout d = Some out -> object_name (bytes_strip out) = true.






End Modes.


(** ** Cleaning the same content again *)

Lemma text_of_inj a b : text_of a = text_of b -> a = b.
Proof.
  unfold text_of. revert b. induction a as [|x a IH]; intros [|y b] E;
    try discriminate E; [reflexivity|].
  cbn [map] in E. injection E as Hxy E. f_equal; [|apply IH, E].
  apply (f_equal Byte.of_N) in Hxy.
  rewrite !Byte.of_to_N in Hxy. injection Hxy as ->. reflexivity.
Qed.

Lemma chunk_path_inj hb hb' :
  object_name hb = true -> object_name hb' = true ->
  chunk_path (text_of hb) = chunk_path (text_of hb') -> hb = hb'.
Proof.
  intros Hn Hn' E. apply text_of_inj.
  rewrite <- (chunk_path_stem hb Hn), <- (chunk_path_stem hb' Hn'), E. reflexivity.
Qed.

Section Again.
Context `{Git} `{FastCDC}.

Lemma manifests_written_present chunks : forall fs d hb,
  named chunks = true ->
  name_of d = Some hb ->
  d ∈ chunks \/ fs !! chunk_path (text_of hb) = Some hb ->
  manifests_written chunks fs !! chunk_path (text_of hb) = Some hb.
Proof.
  induction chunks as [|d' chunks IH]; intros fs d hb Hall Hd Hin.
  - destruct Hin as [Hin|Hfs]; [inversion Hin | exact Hfs].
  - apply named_cons in Hall as [[hb' Hd'] Hall].
    unfold manifests_written. cbn [foldl]. apply (IH _ d hb Hall Hd).
    unfold write_manifest. rewrite Hd'. cbn [default]. unfold id.
    destruct (decide (hb' = hb)) as [->|Hne].
    + right. apply lookup_insert_eq.
    + assert (Hk : chunk_path (text_of hb') <> chunk_path (text_of hb)).
      { intros E. apply Hne.
        apply name_of_inv in Hd as (_ & _ & _ & Hn).
        apply name_of_inv in Hd' as (_ & _ & _ & Hn').
        apply (chunk_path_inj _ _ Hn' Hn E). }
      rewrite lookup_insert_ne by exact Hk.
      destruct Hin as [Hin|Hfs]; [|right; exact Hfs].
      apply elem_of_cons in Hin as [->|Hin]; [congruence | left; exact Hin].
Qed.

Lemma store_chunks_present io spans : forall new s,
  named (chunks_of io spans) = true ->
  manifests_present (chunks_of io spans) (files s) ->
  for_each (fun cdc new => store_chunk (slice io (fst cdc) (snd cdc)) new) spans new s
  = (Ok new, chunks_stored (chunks_of io spans) s)
  /\ files (chunks_stored (chunks_of io spans) s) = files s.
Proof.
  induction spans as [|cdc spans IH]; intros new s Hall Hpres; [split; reflexivity|].
  change (chunks_of io (cdc :: spans))
    with (slice io (fst cdc) (snd cdc) :: chunks_of io spans) in *.
  apply named_cons in Hall as [[hb Hd] Hall].
  pose proof (Hpres _ hb (list_elem_of_here _ _) Hd) as Hk.
  rewrite for_each_cons, (store_chunk_eq _ hb new s Hd).
  assert (Hex : exists_in (files s) (chunk_path (text_of hb)) = true).
  { unfold exists_in. rewrite Hk. rewrite bool_decide_eq_true_2 by eauto. reflexivity. }
  rewrite Hex. cbn [negb]. rewrite orb_false_r.
  assert (Hfs : files (chunk_stored (slice io (fst cdc) (snd cdc)) hb s) = files s).
  { cbn [chunk_stored files set_stdout set_files]. apply insert_id, Hk. }
  destruct (IH new (chunk_stored (slice io (fst cdc) (snd cdc)) hb s) Hall) as [Hrun Hfiles].
  { intros d hb' Hin Hd'. rewrite Hfs. apply (Hpres d hb'); [|exact Hd'].
    apply list_elem_of_further, Hin. }
  unfold chunks_stored in *. cbn [foldl]. rewrite Hd. cbn [default]. unfold id.
  split; [exact Hrun|]. etransitivity; [exact Hfiles | exact Hfs].
Qed.

(** X12.  Cleaning the same content again stores nothing new.  After a
    [clean] that went through, a second [clean] of the same payload, with the
    chunk files the first one left, returns [False] - so the session has no
    reason to stage [.cdc] - and leaves the files as they are. *)
Theorem clean_again (pathname : Path) (pkts : list bytes) (rest rest' : bytes)
    (spans : list (nat * nat)) (s s2 : state) :
  Forall payload_ok pkts ->
  stdin s = pkt_lines pkts ++ flush_line ++ rest ->
  fastcdc (concat pkts)
          (Z.max avg_min (get_avg_size (Z.of_nat (length (concat pkts)))))
  = (spans, None) ->
  named (chunks_of (concat pkts) spans) = true ->
  stdin s2 = pkt_lines pkts ++ flush_line ++ rest' ->
  files s2 = files (snd (clean pathname s)) ->
  fst (clean pathname s2) = Ok false
  /\ files (snd (clean pathname s2)) = files s2.
Proof.
  intros Hok Hin Hcdc Hnamed Hin2 Hfiles.
  destruct (clean_eq pathname pkts rest s spans Hok Hin Hcdc Hnamed) as [new Hfirst].
  rewrite Hfirst in Hfiles. cbn [snd] in Hfiles.
  unfold clean_state in Hfiles. cbn [files set_stdout] in Hfiles.
  rewrite chunks_stored_files in Hfiles. cbn [files set_stdout set_stdin] in Hfiles.
  assert (Hpres : forall t, files t = files s2 ->
                            manifests_present (chunks_of (concat pkts) spans) (files t)).
  { intros t Ht d hb Hd Hname. rewrite Ht, Hfiles.
    apply (manifests_written_present _ _ d hb Hnamed Hname). left. exact Hd. }
  unfold clean.
  rewrite (bind_ok _ _ _ _ _ (read_payload_eq pkts rest' s2 Hok Hin2)).
  rewrite (bind_ok _ _ _ _ _ (write_status_eq _)).
  rewrite (bind_ok _ _ _ _ _ (flush_pkt_eq _)).
  rewrite Hcdc.
  match goal with
  | |- context [bind (for_each _ spans false) _ ?t] =>
      destruct (store_chunks_present (concat pkts) spans false t Hnamed (Hpres t eq_refl))
        as [Hrun Hkeep]
  end.
  rewrite (bind_ok _ _ _ _ _ Hrun). cbn [generator_end]. rewrite bind_ret.
  rewrite (bind_ok _ _ _ _ _ (flush_pkt_eq _)).
  rewrite (bind_ok _ _ _ _ _ (flush_pkt_eq _)).
  cbn [ret fst snd files set_stdout]. split; [reflexivity|]. exact Hkeep.
Qed.
End Again.

Lemma clean_again_witness :
  let s := input_state (blit "0009hello0000") false in
  let s2 := set_stdin (blit "0009hello0000")
              (snd (@clean example_git example_cdc (Path_of (lit "a.bin")) s)) in
  fst (@clean example_git example_cdc (Path_of (lit "a.bin")) s2) = Ok false
  /\ files (snd (@clean example_git example_cdc (Path_of (lit "a.bin")) s2)) = files s2.
Proof.
  intros s s2.
  apply (@clean_again example_git example_cdc (Path_of (lit "a.bin")) [blit "hello"] [] []
           [(0, 4); (4, 1)] s s2).
  - repeat constructor; [discriminate | vm_compute; discriminate].
  - reflexivity.
  - vm_compute. reflexivity.
  - vm_compute. reflexivity.
  - reflexivity.
  - reflexivity.
Defined.

(** ** More on the sweep *)

(** X13.  [prune] deletes chunk files only: with a [git add] that keeps
    the files of the working tree, every file that is not a file below
    [.cdc] with a name ending in [.cdc] is there afterwards as it was. *)
Theorem prune_keeps_other_files `{Git} `{PyLib} (s s' : state) :
  normal (files s) = true ->
  staging_keeps ->
  prune s = (Ok tt, s') ->
  forall k c, files s !! k = Some c -> is_chunk_file k = false ->
              files s' !! k = Some c.
Proof.
  intros Hn Hkeeps Hrun k c Hk Hnot. unfold prune in Hrun.
  apply bind_inv in Hrun as (ls & s0 & Hls & Hrun).
  unfold git_ls_files in Hls. apply or_raise_inv in Hls as [Hls ->].
  rewrite (bind_ok _ _ _ _ _ (path_exists_eq _ _)) in Hrun.
  rewrite attributes_file_key in Hrun.
  apply bind_inv in Hrun as (blobs & s1 & Hcollect & Hrun).
  apply (collect_inv Hkeeps ls) in Hcollect as [[Hsub Hnorm] _]; [|exact Hls].
  apply bind_inv in Hrun as ([] & s2 & Hdel & Hrun).
  unfold prune_blobs in Hdel. rewrite bind_get in Hdel.
  apply prune_blobs_loop in Hdel as (_ & _ & Hkept).
  assert (Hk2 : files s2 !! k = Some c).
  { rewrite Hkept; [eapply lookup_weaken; eassumption|].
    intros p Hp Hkey. exfalso.
    apply filter_In in Hp as [Hp Hm]. apply in_map_iff in Hp as ([k0 c0] & <- & Hkc).
    cbn [fst] in *. apply list_elem_of_In, elem_of_map_to_list in Hkc.
    unfold file_key in Hkey. rewrite (normal_spec _ _ _ (Hnorm Hn) Hkc) in Hkey.
    subst k0. unfold is_chunk_file in Hnot. congruence. }
  rewrite (bind_ok _ _ _ _ _ (path_exists_eq _ _)) in Hrun.
  destruct (exists_in (files s2) (file_key (Path_of (lit ".cdc")))).
  - unfold remove_empty_dirs in Hrun. rewrite bind_ret in Hrun.
    apply (git_add_grows Hkeeps) in Hrun as [Hsub' _].
    eapply lookup_weaken; eassumption.
  - unfold ret in Hrun. injection Hrun as <-. exact Hk2.
Qed.

Lemma prune_keeps_other_files_witness :
  files sweep_after !! lit "big.bin" = Some (blit "many bytes").
Proof.
  apply (@prune_keeps_other_files sweep_git example_pylib sweep_state sweep_after).
  - vm_compute. reflexivity.
  - intros args fs fs' Hadd. injection Hadd as <-. apply grows_refl.
  - vm_compute. reflexivity.
  - vm_compute. reflexivity.
  - vm_compute. reflexivity.
Defined.






Lemma for_each_app {A T} (body : A -> T -> M T) xs ys acc s :
  for_each body (xs ++ ys) acc s
  = bind (for_each body xs acc) (fun acc' => for_each body ys acc') s.
Proof.
  revert acc s. induction xs as [|x xs IH]; intros acc s; [reflexivity|].
  cbn [app]. rewrite !for_each_cons. unfold bind at 1. rewrite for_each_cons.
  destruct (body x acc s) as [[acc'|e] s1]; [apply IH | reflexivity].
Qed.

(** X15.  A binding line that [shlex.split] rejects ends [prune] with a
    [ValueError]: when no binding line comes before it in the attribute
    file, nothing has been staged or deleted by then. *)
Theorem prune_unparseable `{Git} `{PyLib} (s : state) (ls : str) (c : bytes) (t : str)
    (pre post : list str) (line : str) :
  ls_files_stdout = Some ls ->
  files s !! attributes_key = Some c ->
  utf8_decode c = Some t ->
  readlines (universal_newlines t) = pre ++ line :: post ->
  Forall (fun l => binding_line l = false) pre ->
  binding_line line = true ->
  shlex_split line = None ->
  prune s = (Raise ValueError, s).
Proof.
  intros Hls Hc Ht Hlines Hpre Hline Hsplit. unfold prune.
  unfold git_ls_files at 1. rewrite Hls. cbn [or_raise]. rewrite bind_ret.
  rewrite (bind_ok _ _ _ _ _ (path_exists_eq _ _)).
  rewrite attributes_file_key.
  assert (Hex : exists_in (files s) attributes_key = true).
  { unfold exists_in. rewrite Hc. rewrite bool_decide_eq_true_2 by eauto. reflexivity. }
  rewrite Hex.
  apply bind_raise.
  rewrite (bind_ok _ _ _ (universal_newlines t) s).
  2:{ rewrite (file_read_str_eq _ _ c) by (rewrite attributes_file_key; exact Hc).
      rewrite Ht. reflexivity. }
  rewrite Hlines, for_each_app.
  erewrite bind_ok.
  2:{ clear Hlines. induction Hpre as [|l pre Hl _ IH]; [reflexivity|].
      rewrite for_each_cons. fold (binding_line l). rewrite Hl. exact IH. }
  rewrite for_each_cons. fold (binding_line line). rewrite Hline, Hsplit. reflexivity.
Qed.

Lemma prune_unparseable_witness :
  let c := blit "# big files" ++ [x0a; x22] ++ blit "my file.bin filter=git_fastcdc" ++ [x0a] in
  let s := mkState [] false [] {[ attributes_key := c ]} ∅ ∅ None in
  @prune sweep_git example_pylib s = (Raise ValueError, s).
Proof.
  intros c s.
  apply (@prune_unparseable sweep_git example_pylib s
           (lit ".cdc/aa/aa/aaaa.cdc" ++ [LF] ++ lit ".cdc/bb/bb/bbbb.cdc" ++ [LF]
            ++ lit ".cdc/cc/cc/cccc.cdc" ++ [LF] ++ lit ".gitattributes" ++ [LF]
            ++ lit "big.bin" ++ [LF] ++ lit "notes.gitattributes.bin" ++ [LF])
           c (text_of c) [lit "# big files" ++ [LF]] []
           ([34%N] ++ lit "my file.bin filter=git_fastcdc" ++ [LF])).
  - reflexivity.
  - vm_compute. reflexivity.
  - vm_compute. reflexivity.
  - vm_compute. reflexivity.
  - repeat constructor.
  - vm_compute. reflexivity.
  - vm_compute. reflexivity.
Defined.

(** ** More on the average size *)

Section AvgMore.
Local Open Scope Z_scope.

(** X16.  Inputs of less than 4.25 MiB are cut with the minimal average of
    128 KiB, and no longer input is: the quantized size first passes the
    minimum at 34 * 131072 bytes. *)
Theorem minimal_average (n : Z) :
  0 <= n ->
  (Z.max avg_min (get_avg_size n) = 131072 <-> n < 4456448).
Proof.
  intros Hn. split.
  - intros Hmax. destruct (Z_lt_le_dec n 4456448) as [|Hge]; [assumption|].
    pose proof (get_avg_size_mono 4456448 n ltac:(lia)) as Hm.
    change (get_avg_size 4456448) with 139264 in Hm. lia.
  - intros Hlt.
    pose proof (get_avg_size_mono n 4456447 ltac:(lia)) as Hm.
    change (get_avg_size 4456447) with 131072 in Hm.
    unfold avg_min. lia.
Qed.

Lemma minimal_average_witness :
  Z.max avg_min (get_avg_size 307200) = 131072 <-> 307200 < 4456448.
Proof. apply (minimal_average 307200). lia. Defined.

(** X17.  The average keeps the five leading bits of the size over 32:
    for a size below [2^53] it is at most that quotient and falls short of
    it by at most a sixteenth. *)
Theorem average_precision (n : Z) :
  0 <= n < 2 ^ 53 ->
  get_avg_size n <= n / 32
  /\ 16 * (n / 32 - get_avg_size n) <= n / 32.
Proof.
  intros [Hn Hlt].
  assert (Hbox : 0 <= n / 32) by (apply Z.div_pos; lia).
  assert (Hq : get_avg_size n = quantize (n / 32)).
  { unfold get_avg_size, quantize, int_truediv_32. cbv zeta.
    rewrite to_float_exact; [reflexivity|].
    destruct (Z.eq_dec n 0) as [->|Hn0]; [cbn; lia|].
    pose proof (bit_length_spec n ltac:(lia)) as [Hlo _].
    destruct (Z_le_gt_dec (bit_length n) 53) as [|Hgt]; [assumption|].
    exfalso.
    assert (2 ^ 53 <= 2 ^ (bit_length n - 1)) by (apply Z.pow_le_mono_r; lia).
    lia. }
  rewrite Hq. set (box := n / 32) in *. split; [apply quantize_le, Hbox|].
  rewrite quantize_eq.
  set (sh := Z.max (bit_length box - 5) 0).
  assert (Hsh : 0 <= sh) by (unfold sh; lia).
  pose proof (Z.pow_pos_nonneg 2 sh ltac:(lia) Hsh) as Hpow.
  pose proof (Z.div_mod box (2 ^ sh) ltac:(lia)) as Hdm.
  pose proof (Z.mod_pos_bound box (2 ^ sh) Hpow) as Hmod.
  destruct (Z.eq_dec box 0) as [Hb0|Hb0].
  { rewrite Hb0. rewrite Z.div_0_l by lia. lia. }
  pose proof (bit_length_spec box ltac:(lia)) as [Hlo _].
  destruct (Z_le_gt_dec (bit_length box) 5) as [Hsmall|Hbig].
  - assert (sh = 0) by (unfold sh; lia). subst sh. replace (Z.max _ 0) with 0 in * by lia.
    change (2 ^ 0) with 1 in *. rewrite Z.div_1_r. lia.
  - assert (Hs : sh = bit_length box - 5) by (unfold sh; lia).
    assert (H16 : 16 * 2 ^ sh = 2 ^ (bit_length box - 1)).
    { rewrite Hs. replace (bit_length box - 1) with (4 + (bit_length box - 5)) by lia.
      rewrite Z.pow_add_r by lia. reflexivity. }
    nia.
Qed.

Lemma average_precision_witness :
  get_avg_size 100000000 <= 100000000 / 32
  /\ 16 * (100000000 / 32 - get_avg_size 100000000) <= 100000000 / 32.
Proof. apply (average_precision 100000000). lia. Defined.
End AvgMore.

(** ** Requests that are not answered *)

(** X18.  [smudge] sends [status=success] before it fetches a blob: when
    the first line of the manifest that is not blank names a blob git does
    not have, the session ends with a [CalledProcessError] after the status
    and its flush went out. *)
Theorem smudge_missing_blob (pathname : Path) (blob : option str)
    (pkts : list bytes) (rest : bytes) (pre post : list str) (line : str)
    (key : bytes) (s : state) :
  Forall text_ok pkts ->
  stdin s = pkt_lines pkts ++ flush_line ++ rest ->
  foldl (fun a p => a ++ splitlines (line_of p)) [] pkts = pre ++ line :: post ->
  Forall (fun l => str_strip l = []) pre ->
  str_strip line <> [] ->
  utf8_encode (stem (Path_of (str_strip line))) = Some key ->
  objects s !! key = None ->
  smudge pathname blob s
  = (Raise CalledProcessError,
     set_stdout (stdout s ++ pkt_line status_line ++ flush_line) (set_stdin rest s)).
Proof.
  intros Hok Hin Hlines Hpre Hline Hkey Hnone. unfold smudge.
  erewrite bind_ok;
    [| apply (while_read_str_lines _ (fun x a => a ++ splitlines x) (fun _ s => s) pkts rest);
       [reflexivity | reflexivity | reflexivity | exact Hok | exact Hin]].
  rewrite Hlines, foldl_const.
  rewrite (bind_ok _ _ _ _ _ (write_status_eq _)).
  rewrite (bind_ok _ _ _ _ _ (flush_pkt_eq _)).
  apply bind_raise. rewrite for_each_app.
  erewrite bind_ok.
  2:{ clear Hlines. induction Hpre as [|l pre Hl _ IH]; [reflexivity|].
      rewrite for_each_cons. cbv zeta. rewrite Hl. exact IH. }
  rewrite for_each_cons. cbv zeta.
  destruct (str_strip line) as [|c l] eqn:Hs; [congruence|].
  erewrite bind_raise; [|rewrite (git_get_blob_key _ _ _ Hkey);
                         cbn [objects set_stdout set_stdin]; rewrite Hnone; reflexivity].
  cbn [stdout set_stdout set_stdin]. rewrite <- app_assoc. reflexivity.
Qed.

Lemma smudge_missing_blob_witness :
  smudge (Path_of (lit "big.bin")) None
         (input_state (blit "000dabcd.cdc" ++ [x0a] ++ blit "0000") false)
  = (Raise CalledProcessError,
     mkState [] false (blit "0013status=success" ++ [x0a] ++ blit "0000") ∅ ∅ ∅ None).
Proof.
  apply (smudge_missing_blob (Path_of (lit "big.bin")) None
           [blit "abcd.cdc" ++ [x0a]] [] [] [] (lit "abcd.cdc") (blit "abcd")
           (input_state (blit "000dabcd.cdc" ++ [x0a] ++ blit "0000") false)).
  - repeat constructor; try discriminate; vm_compute; discriminate.
  - reflexivity.
  - vm_compute. reflexivity.
  - constructor.
  - vm_compute. discriminate.
  - vm_compute. reflexivity.
  - reflexivity.
Defined.

Lemma read_headers_carried (hdrs : list (bytes * str)) (rest : bytes) (s : state) :
  Forall (fun pl => carries (fst pl) (snd pl) /\ snd pl <> []) hdrs ->
  stdin s = pkt_lines (map fst hdrs) ++ flush_line ++ rest ->
  exists h, read_headers s = (Ok h, set_stdin rest s).
Proof.
  intros Hall Hin.
  pose (g := fun (line : str) h =>
               match fst (header line h s) with
               | Ok h' => h'
               | Raise _ => h
               end).
  exists (foldl (fun a pl => g (snd pl) a) (None, None, None) hdrs).
  unfold read_headers.
  apply (while_carried header (fun _ => True) g) with (s0 := s) (tail := flush_line ++ rest).
  - apply header_keeps.
  - intros line h t _. unfold g. destruct (header_pure line h) as [h' Hh].
    rewrite !Hh. reflexivity.
  - intros t Ht _. apply (read_pkt_line_str_flush rest). exact Ht.
  - eapply Forall_impl; [exact Hall|]. intros pl [Hc Hne]. auto.
  - exact Hin.
  - reflexivity.
Qed.

(** X19.  A command that is neither [clean] nor [smudge] gets no answer:
    the session reads the pathname and the headers of the request, writes
    nothing, not even a status, and goes on with what follows. *)
Theorem unknown_command `{Git} `{FastCDC}
    (command_line : str) (new : bool) (path_pkt : bytes) (path_line : str)
    (hdrs : list (bytes * str)) (rest : bytes) (s : state) :
  fst (partition_eq command_line) = lit "command" ->
  snd (partition_eq command_line) <> lit "clean" ->
  snd (partition_eq command_line) <> lit "smudge" ->
  carries path_pkt path_line ->
  fst (partition_eq path_line) = lit "pathname" ->
  Forall (fun pl => carries (fst pl) (snd pl) /\ snd pl <> []) hdrs ->
  stdin s = pkt_line path_pkt ++ pkt_lines (map fst hdrs) ++ flush_line ++ rest ->
  request command_line new s = (Ok new, set_stdin rest s).
Proof.
  intros Hkey Hc Hs Hpath Hpkey Hall Hin. unfold request.
  destruct (partition_eq command_line) as [key command]. cbn [fst snd] in *. subst key.
  rewrite bool_decide_eq_true_2 by reflexivity. cbn [py_assert]. rewrite bind_ret.
  rewrite (bind_ok _ _ _ _ _ (read_carried path_pkt path_line _ s Hpath Hin)).
  destruct (partition_eq path_line) as [key pathname]. cbn [fst] in Hpkey. subst key.
  rewrite bool_decide_eq_true_2 by reflexivity. cbn [py_assert]. rewrite bind_ret.
  destruct (read_headers_carried hdrs rest
              (set_stdin (pkt_lines (map fst hdrs) ++ flush_line ++ rest) s) Hall eq_refl)
    as [[[treeish ref] blob] Hh].
  rewrite (bind_ok _ _ _ _ _ Hh). unfold dispatch.
  rewrite !bool_decide_eq_false_2 by assumption. reflexivity.
Qed.

Lemma unknown_command_witness :
  @request example_git example_cdc (lit "command=list_available_blobs") false
    (input_state (blit "0013pathname=a.bin" ++ [x0a] ++ blit "0000") false)
  = (Ok false, input_state [] false).
Proof.
  apply (@unknown_command example_git example_cdc (lit "command=list_available_blobs") false
           (blit "pathname=a.bin" ++ [x0a]) (lit "pathname=a.bin") [] []
           (input_state (blit "0013pathname=a.bin" ++ [x0a] ++ blit "0000") false)).
  - reflexivity.
  - vm_compute. discriminate.
  - vm_compute. discriminate.
  - split; [split; [discriminate | vm_compute; discriminate]|].
    eexists. split; [vm_compute; reflexivity | vm_compute; reflexivity].
  - reflexivity.
  - constructor.
  - reflexivity.
Defined.

(** ** The request loop *)

















Section Keeps.
Context `{Git} `{FastCDC}.





End Keeps.

Section Session.
Context `{Git} `{FastCDC}.



End Session.


(** ** A host that does not greet *)

(** X21.  The session writes nothing before it has read both lines of the
    greeting: on an input that is empty, that starts with another line than
    [git-filter-client], or that goes on with another line than [version=2],
    it ends with an [AssertionError] and standard output is as it was. *)
Theorem process_rejects_greeting `{Git} `{FastCDC} (s : state) :
  (stdin s = [] -> stdin_broken s = false -> process s = (Raise AssertionError, s))
  /\ (forall p line rest,
         carries p line -> line <> lit "git-filter-client" ->
         stdin s = pkt_line p ++ rest ->
         process s = (Raise AssertionError, set_stdin rest s))
  /\ (forall p1 p2 line rest,
         carries p1 (lit "git-filter-client") ->
         carries p2 line -> line <> lit "version=2" ->
         stdin s = pkt_line p1 ++ pkt_line p2 ++ rest ->
         process s = (Raise AssertionError, set_stdin rest s)).
Proof.
  split; [|split].
  - intros Hs Hb. unfold process, expect. rewrite bind_assoc.
    rewrite (bind_ok _ _ _ _ _ (read_pkt_line_str_eof s Hs Hb)). reflexivity.
  - intros p line rest Hp Hne Hin. unfold process, expect. rewrite bind_assoc.
    rewrite (bind_ok _ _ _ _ _ (read_carried p line rest s Hp Hin)).
    rewrite bool_decide_eq_false_2 by exact Hne. reflexivity.
  - intros p1 p2 line rest Hp1 Hp2 Hne Hin. unfold process, expect. rewrite bind_assoc.
    rewrite (bind_ok _ _ _ _ _ (read_carried p1 _ _ s Hp1 Hin)).
    rewrite bool_decide_eq_true_2 by reflexivity. cbn [py_assert]. rewrite bind_ret.
    rewrite bind_assoc.
    erewrite bind_ok; [|eapply (read_carried p2); [exact Hp2 | reflexivity]].
    rewrite bool_decide_eq_false_2 by exact Hne. reflexivity.
Qed.

Lemma process_rejects_greeting_witness :
  @process example_git example_cdc (input_state [] false)
  = (Raise AssertionError, input_state [] false)
  /\ @process example_git example_cdc
       (input_state (blit "0016git-filter-client" ++ [x0a] ++ blit "000eversion=3" ++ [x0a])
                    false)
     = (Raise AssertionError, input_state [] false).
Proof.
  split.
  - apply (proj1 (@process_rejects_greeting example_git example_cdc (input_state [] false)));
      reflexivity.
  - apply (proj2 (proj2 (@process_rejects_greeting example_git example_cdc
                           (input_state (blit "0016git-filter-client" ++ [x0a]
                                         ++ blit "000eversion=3" ++ [x0a]) false)))
             (blit "git-filter-client" ++ [x0a]) (blit "version=3" ++ [x0a])
             (lit "version=3") []).
    + split; [split; [discriminate | vm_compute; discriminate]|].
      eexists. split; vm_compute; reflexivity.
    + split; [split; [discriminate | vm_compute; discriminate]|].
      eexists. split; vm_compute; reflexivity.
    + vm_compute. discriminate.
    + reflexivity.
Defined.
